(** * Scene-graph evaluation: a shallow embedding of the scoring pipeline

    The development follows the two Python modules of the repository that
    carry the algorithmic content:

    - [sg_adapter_eval.py]: [load_metadata], [extract_scene_graph_from_image],
      [compute_iou], [evaluate_image], [evaluate_method];
    - [filter_best_images.py]: [extract_scene_index], [filter_best_per_scene].

    Python values are dynamically typed, so the functions are embedded over a
    small universe [pyval] of the values that [json.loads] can hand to the
    program, and every operation that can raise returns in the error monad
    [res].  Floating-point scores are idealised as exact rationals ([Q]):
    every score of the program is a quotient of two small naturals or a sum
    and mean of such quotients. *)

From stdpp Require Import base decidable option list strings gmap sorting.
From Stdlib Require Import Ascii ZArith QArith Lia.

Local Open Scope Z_scope.

(** ** Python exceptions and the error monad *)

Inductive exn : Set :=
  | TypeError
  | IndexError
  | KeyError
  | ValueError
  | ZeroDivisionError.

Inductive res (A : Type) : Type :=
  | Ok (a : A)
  | Err (e : exn).
Arguments Ok {A} a.
Arguments Err {A} e.

Definition bind {A B : Type} (m : res A) (k : A -> res B) : res B :=
  match m with
  | Ok a => k a
  | Err e => Err e
  end.

Notation "'let*' x ':=' m 'in' k" := (bind m (fun x => k))
  (at level 10, x name, m at level 100, k at level 200).

Definition is_ok {A : Type} (m : res A) : bool :=
  match m with Ok _ => true | Err _ => false end.

(** [for x in xs: ...] where the body may raise: left-to-right, the first
    exception aborts the loop. *)
Fixpoint mapM {A B : Type} (f : A -> res B) (xs : list A) : res (list B) :=
  match xs with
  | [] => Ok []
  | x :: xs' => let* y := f x in let* ys := mapM f xs' in Ok (y :: ys)
  end.

Fixpoint foldM {A S : Type} (f : S -> A -> res S) (s : S) (xs : list A) : res S :=
  match xs with
  | [] => Ok s
  | x :: xs' => let* s' := f s x in foldM f s' xs'
  end.

(** ** The universe of Python values

    The values that reach the program are what [json.loads] builds (None,
    integers, strings, lists, dicts with string keys) and the tuples that
    [compute_iou] makes itself.  A dict is an association list in insertion
    order with pairwise distinct keys.  JSON booleans and numbers with a
    fraction or an exponent are outside this universe. *)

#[warnings="-register-all"]
Inductive pyval : Type :=
  | VNone
  | VInt (z : Z)
  | VStr (s : string)
  | VList (l : list pyval)
  | VTuple (l : list pyval)
  | VDict (d : list (string * pyval)).

(** Structural equality.  On hashable values (None, int, str, tuples of
    hashable values), which are the only ones a Python set ever holds, it is
    Python's [==]. *)
Fixpoint pyval_eqb (a b : pyval) {struct a} : bool :=
  let fix list_eqb (l k : list pyval) {struct l} : bool :=
    match l, k with
    | [], [] => true
    | x :: l', y :: k' => pyval_eqb x y && list_eqb l' k'
    | _, _ => false
    end in
  let fix dict_eqb (l k : list (string * pyval)) {struct l} : bool :=
    match l, k with
    | [], [] => true
    | (s, x) :: l', (t, y) :: k' => String.eqb s t && pyval_eqb x y && dict_eqb l' k'
    | _, _ => false
    end in
  match a, b with
  | VNone, VNone => true
  | VInt x, VInt y => Z.eqb x y
  | VStr s, VStr t => String.eqb s t
  | VList l, VList k => list_eqb l k
  | VTuple l, VTuple k => list_eqb l k
  | VDict l, VDict k => dict_eqb l k
  | _, _ => false
  end.

Lemma pyval_eqb_spec (a b : pyval) : pyval_eqb a b = true <-> a = b.
Proof.
  revert b.
  refine ((fix IH (a : pyval) : forall b, pyval_eqb a b = true <-> a = b := _) a).
  assert (HL : forall l k : list pyval,
    (fix list_eqb (l k : list pyval) {struct l} : bool :=
       match l, k with
       | [], [] => true
       | x :: l', y :: k' => pyval_eqb x y && list_eqb l' k'
       | _, _ => false
       end) l k = true <-> l = k).
  { fix IHl 1. intros [|x l] [|y k]; simpl; try (split; [discriminate|congruence]).
    - tauto.
    - rewrite andb_true_iff, (IH x y), (IHl l k). split; [intros [-> ->]|intros [= -> ->]]; auto. }
  assert (HD : forall l k : list (string * pyval),
    (fix dict_eqb (l k : list (string * pyval)) {struct l} : bool :=
       match l, k with
       | [], [] => true
       | (s, x) :: l', (t, y) :: k' => String.eqb s t && pyval_eqb x y && dict_eqb l' k'
       | _, _ => false
       end) l k = true <-> l = k).
  { fix IHd 1. intros [|[s x] l] [|[t y] k]; simpl; try (split; [discriminate|congruence]).
    - tauto.
    - rewrite !andb_true_iff, String.eqb_eq, (IH x y), (IHd l k).
      split; [intros [[-> ->] ->]|intros [= -> -> ->]]; auto. }
  intros b. destruct a, b; simpl; try (split; [discriminate|congruence]).
  - tauto.
  - rewrite Z.eqb_eq. split; congruence.
  - rewrite String.eqb_eq. split; congruence.
  - rewrite HL. split; congruence.
  - rewrite HL. split; congruence.
  - rewrite HD. split; congruence.
Qed.

#[export] Instance pyval_eq_dec : EqDecision pyval.
Proof.
  intros a b. destruct (pyval_eqb a b) eqn:E.
  - left. apply pyval_eqb_spec, E.
  - right. intros H. apply pyval_eqb_spec in H. congruence.
Defined.

(** ** Python built-ins used by the program *)

Module Py.

(** *** Strings (ASCII text) *)

(** The characters [str.strip] treats as white space. *)
Definition is_space (c : ascii) : bool :=
  match c with
  | "009" | "010" | "011" | "012" | "013"
  | "028" | "029" | "030" | "031" | " " => true
  | _ => false
  end%char.

Definition is_digit (c : ascii) : bool :=
  match c with
  | "0" | "1" | "2" | "3" | "4" | "5" | "6" | "7" | "8" | "9" => true
  | _ => false
  end%char.

Definition digit_val (c : ascii) : Z := Z.of_nat (nat_of_ascii c) - 48.

Fixpoint lstrip (s : string) : string :=
  match s with
  | String c s' => if is_space c then lstrip s' else s
  | EmptyString => EmptyString
  end.

Definition rstrip (s : string) : string := String.rev (lstrip (String.rev s)).

(** [s.strip()] *)
Definition strip (s : string) : string := rstrip (lstrip s).

(** [s.startswith(p)] *)
Definition startswith (p s : string) : bool := String.prefix p s.

(** [s[n:]] for [0 <= n] *)
Fixpoint drop (n : nat) (s : string) : string :=
  match n, s with
  | O, _ => s
  | S n', String _ s' => drop n' s'
  | S _, EmptyString => EmptyString
  end.

(** [s[:n]] for [0 <= n] *)
Fixpoint take (n : nat) (s : string) : string :=
  match n, s with
  | S n', String c s' => String c (take n' s')
  | _, _ => EmptyString
  end.

(** [s.split(sep)] for a non-empty [sep]: the pieces between the
    non-overlapping occurrences of [sep], scanned from the left.  [skip]
    counts the characters of a matched separator still to be consumed and
    [cur] holds the current piece, reversed. *)
Fixpoint split_go (sep : string) (skip : nat) (cur : string) (s : string)
  : list string :=
  match s with
  | EmptyString => [String.rev cur]
  | String c s' =>
      match skip with
      | S k => split_go sep k cur s'
      | O =>
          if String.prefix sep s
          then String.rev cur :: split_go sep (String.length sep - 1) EmptyString s'
          else split_go sep O (String c cur) s'
      end
  end.

Definition split (sep s : string) : list string := split_go sep O EmptyString s.

(** [needle in s] on strings: substring test. *)
Fixpoint contains_str (needle s : string) : bool :=
  String.prefix needle s ||
  match s with
  | EmptyString => false
  | String _ s' => contains_str needle s'
  end.

(** [s.isdigit()]: at least one character, all of them digits. *)
Fixpoint all_digits (s : string) : bool :=
  match s with
  | EmptyString => true
  | String c s' => is_digit c && all_digits s'
  end.

Definition isdigit (s : string) : bool :=
  match s with
  | EmptyString => false
  | _ => all_digits s
  end.

(** The digits of an [int] literal: a non-empty run of digits in which
    single underscores may separate digits.  [prev] tells whether the
    previous character was a digit. *)
Fixpoint int_digits (acc : Z) (prev : bool) (s : string) : option Z :=
  match s with
  | EmptyString => if prev then Some acc else None
  | String c s' =>
      if is_digit c then int_digits (10 * acc + digit_val c) true s'
      else if Ascii.eqb c "_" then (if prev then int_digits acc false s' else None)
      else None
  end.

(** The characters [int] skips around a literal.  On ASCII text it uses
    C's [isspace], which leaves out the separators 28 to 31 that
    [str.strip] removes. *)
Definition is_int_space (c : ascii) : bool :=
  match c with
  | "009" | "010" | "011" | "012" | "013" | " " => true
  | _ => false
  end%char.

Fixpoint int_lskip (s : string) : string :=
  match s with
  | String c s' => if is_int_space c then int_lskip s' else s
  | EmptyString => EmptyString
  end.

Definition int_skip (s : string) : string :=
  String.rev (int_lskip (String.rev (int_lskip s))).

(** [sys.int_info.default_max_str_digits]: CPython refuses to convert a
    decimal literal with more digit characters (leading zeros count,
    underscores and the sign do not). *)
Definition max_str_digits : Z := 4300.

Fixpoint count_digits (s : string) : Z :=
  match s with
  | EmptyString => 0
  | String c s' => (if is_digit c then 1 else 0) + count_digits s'
  end.

(** [int(s)] on a string: surrounding white space is skipped, one sign is
    allowed, and the literal may not have more than [max_str_digits] digits;
    anything else raises [ValueError]. *)
Definition int_of_str (s : string) : res Z :=
  let body (neg : bool) (t : string) :=
    match int_digits 0 false t with
    | Some z =>
        if (count_digits t <=? max_str_digits)%Z
        then Ok (if neg then - z else z)
        else Err ValueError
    | None => Err ValueError
    end in
  match int_skip s with
  | String "-" t => body true t
  | String "+" t => body false t
  | t => body false t
  end.

(** [s.rfind(c)] for a single character, [-1] when absent. *)
Fixpoint rfind_go (c : ascii) (s : string) (i last : Z) : Z :=
  match s with
  | EmptyString => last
  | String a s' => rfind_go c s' (i + 1) (if Ascii.eqb a c then i else last)
  end.

Definition rfind (c : ascii) (s : string) : Z := rfind_go c s 0 (-1).

(** [os.path.basename(p)] on a POSIX path: what follows the last slash. *)
Definition basename (p : string) : string :=
  drop (Z.to_nat (rfind "/" p + 1)) p.

(** [os.path.splitext(p)[0]] on a POSIX path.  The extension starts at the
    last dot, provided that dot comes after the last slash and some
    character between that slash and the dot is not a dot. *)
Definition splitext_root (p : string) : string :=
  let sepIndex := rfind "/" p in
  let dotIndex := rfind "." p in
  if Z.ltb sepIndex dotIndex then
    let name := take (Z.to_nat (dotIndex - (sepIndex + 1)))
                     (drop (Z.to_nat (sepIndex + 1)) p) in
    if forallb (Ascii.eqb ".") (String.list_ascii_of_string name)
    then p
    else take (Z.to_nat dotIndex) p
  else p.

(** *** Dynamic operations on values *)

(** Truth value of an object ([if x], [not x]). *)
Definition truthy (v : pyval) : bool :=
  match v with
  | VNone => false
  | VInt z => negb (Z.eqb z 0)
  | VStr s => negb (String.eqb s EmptyString)
  | VList l => match l with [] => false | _ => true end
  | VTuple l => match l with [] => false | _ => true end
  | VDict d => match d with [] => false | _ => true end
  end.

Definition chars (s : string) : list pyval :=
  map (fun c => VStr (String c EmptyString)) (String.list_ascii_of_string s).

(** The items a [for] loop, [set(...)], [tuple(...)] or [update(...)]
    draws from an object. *)
Definition iter (v : pyval) : res (list pyval) :=
  match v with
  | VList l | VTuple l => Ok l
  | VStr s => Ok (chars s)
  | VDict d => Ok (map (fun kv => VStr (fst kv)) d)
  | VNone | VInt _ => Err TypeError
  end.

(** [isinstance(v, list)] *)
Definition is_list (v : pyval) : bool :=
  match v with VList _ => true | _ => false end.

(** Whether [hash(v)] succeeds. *)
Fixpoint hashable (v : pyval) : bool :=
  match v with
  | VNone | VInt _ | VStr _ => true
  | VTuple l => forallb hashable l
  | VList _ | VDict _ => false
  end.

(** Sequence indexing with an integer: negative indices count from the
    end, anything outside [-len, len) raises [IndexError]. *)
Definition seq_get {A : Type} (l : list A) (i : Z) : res A :=
  let n := Z.of_nat (length l) in
  let j := if Z.ltb i 0 then i + n else i in
  if Z.ltb j 0 then Err IndexError
  else match l !! Z.to_nat j with
       | Some x => Ok x
       | None => Err IndexError
       end.

(** [v[i]] with an integer [i].  A dict built by [json.loads] has only
    string keys, so an integer subscript raises [KeyError]. *)
Definition getitem_int (v : pyval) (i : Z) : res pyval :=
  match v with
  | VList l | VTuple l => seq_get l i
  | VStr s => seq_get (chars s) i
  | VDict _ => Err KeyError
  | VNone | VInt _ => Err TypeError
  end.

Fixpoint assoc (k : string) (d : list (string * pyval)) : option pyval :=
  match d with
  | [] => None
  | (k', v) :: d' => if String.eqb k k' then Some v else assoc k d'
  end.

(** [v[k]] with a string [k]. *)
Definition getitem_str (v : pyval) (k : string) : res pyval :=
  match v with
  | VDict d => match assoc k d with Some x => Ok x | None => Err KeyError end
  | _ => Err TypeError
  end.

(** [k in v] with a string [k]: key test on a dict, element test on a list
    or tuple, substring test on a string. *)
Definition contains (k : string) (v : pyval) : res bool :=
  match v with
  | VDict d => Ok (match assoc k d with Some _ => true | None => false end)
  | VList l | VTuple l => Ok (existsb (pyval_eqb (VStr k)) l)
  | VStr s => Ok (contains_str k s)
  | VNone | VInt _ => Err TypeError
  end.

(** [int(v)] *)
Definition int (v : pyval) : res Z :=
  match v with
  | VInt z => Ok z
  | VStr s => int_of_str s
  | _ => Err TypeError
  end.

(** A Python set is kept as a list without duplicates.  Building one
    hashes every element. *)
Definition set_of (l : list pyval) : res (list pyval) :=
  if forallb hashable l then Ok (remove_dups l) else Err TypeError.

(** [tuple(v)] *)
Definition tuple (v : pyval) : res pyval :=
  let* l := iter v in Ok (VTuple l).

End Py.

(** ** Similarity engine: [SGAdapterEvaluator.compute_iou] *)

Local Open Scope Q_scope.

(** [len(set1 & set2) / len(set1 | set2)], guarded as in the source. *)
Definition iou_of_sets (set1 set2 : list pyval) : Q :=
  let intersection := length (list_intersection set1 set2) in
  let union := length (list_union set1 set2) in
  if (0 <? union)%nat
  then inject_Z (Z.of_nat intersection) / inject_Z (Z.of_nat union)
  else 0.

(** [set(tuple(item) for item in v)]: both [tuple] and hashing raise
    [TypeError], so the order in which the generator and the set
    constructor interleave is not observable. *)
Definition tuple_set (v : pyval) : res (list pyval) :=
  let* items := Py.iter v in
  let* tuples := mapM Py.tuple items in
  Py.set_of tuples.

(** [set(v)] *)
Definition plain_set (v : pyval) : res (list pyval) :=
  let* items := Py.iter v in
  Py.set_of items.

Definition compute_iou (list1 list2 : pyval) : res Q :=
  if negb (Py.truthy list1) && negb (Py.truthy list2) then Ok 1
  else if negb (Py.truthy list1) || negb (Py.truthy list2) then Ok 0
  else
    let* first := Py.getitem_int list1 0 in
    if Py.is_list first then
      let* set1 := tuple_set list1 in
      let* set2 := tuple_set list2 in
      Ok (iou_of_sets set1 set2)
    else
      let* set1 := plain_set list1 in
      let* set2 := plain_set list2 in
      Ok (iou_of_sets set1 set2).

(** The specification's [setIoU], read off its words: both sequences are
    turned into sets under structural equality; two empty sets score 1,
    exactly one empty set scores 0, otherwise the score is
    |A n B| / |A u B|. *)
Definition card_inter (a b : list pyval) : nat :=
  length (filter (fun x => x ∈ b) (remove_dups a)).

Definition card_union (a b : list pyval) : nat :=
  length (remove_dups (a ++ b)).

Definition setIoU_spec (a b : list pyval) : Q :=
  match a, b with
  | [], [] => 1
  | [], _ | _, [] => 0
  | _, _ => inject_Z (Z.of_nat (card_inter a b)) / inject_Z (Z.of_nat (card_union a b))
  end.

(** Shapes of the sequences the scoring engine is specified for. *)
Definition is_str (v : pyval) : bool :=
  match v with VStr _ => true | _ => false end.

Definition is_str_list (l : list pyval) : bool := forallb is_str l.

Definition is_triple (v : pyval) : bool :=
  match v with VList l => is_str_list l | _ => false end.

Definition is_triple_list (l : list pyval) : bool := forallb is_triple l.

(** What [tuple(item)] makes of one element of the second argument when the
    first argument selected the tuple branch. *)
Definition as_tuple (v : pyval) : pyval :=
  match v with
  | VList l => VTuple l
  | VStr s => VTuple (Py.chars s)
  | _ => v
  end.

(** ** Metadata loader: [SGAdapterEvaluator.load_metadata] *)

(** One entry of [metadata_list]. *)
Record metadata_entry : Type := {
  file_name : pyval;
  caption : pyval;
  scene_graph : list pyval;
  objects : pyval;
  relations : pyval
}.

(** The evaluator's [object_list] and [predicate_list]: two sets. *)
Record vocab : Type := {
  object_list : list pyval;
  predicate_list : list pyval
}.

Definition empty_vocab : vocab := {| object_list := []; predicate_list := [] |}.

(** [s.update(items)]: every item is hashed. *)
Definition set_update (s items : list pyval) : res (list pyval) :=
  if forallb Py.hashable items then Ok (remove_dups (s ++ items)) else Err TypeError.

(** The body of [for rel in relations_idx]: one resolved triple
    [[objects[subj_idx], pred, objects[obj_idx]]]. *)
Definition resolve_relation (objects : pyval) (rel : pyval) : res pyval :=
  let* r0 := Py.getitem_int rel 0 in
  let* subj_idx := Py.int r0 in
  let* pred := Py.getitem_int rel 1 in
  let* r2 := Py.getitem_int rel 2 in
  let* obj_idx := Py.int r2 in
  let* subj := Py.getitem_int objects subj_idx in
  let* obj := Py.getitem_int objects obj_idx in
  Ok (VList [subj; pred; obj]).

(** What [load_metadata] does with the parsed content [data] of one line. *)
Definition load_entry (data : pyval) (st : vocab) : res (metadata_entry * vocab) :=
  let* objects := Py.getitem_str data "objects" in
  let* relations_idx := Py.getitem_str data "relations" in
  let* rels := Py.iter relations_idx in
  let* scene_graph := mapM (resolve_relation objects) rels in
  let* file_name := Py.getitem_str data "file_name" in
  let* caption := Py.getitem_str data "caption" in
  let* objs := Py.iter objects in
  let* object_list' := set_update (object_list st) objs in
  let* preds := mapM (fun rel => Py.getitem_int rel 1) rels in
  let* predicate_list' := set_update (predicate_list st) preds in
  Ok ({| file_name := file_name; caption := caption; scene_graph := scene_graph;
         objects := objects; relations := relations_idx |},
      {| object_list := object_list'; predicate_list := predicate_list' |}).

Section Loader.
(** [json.loads]: the parsed document, or [None] when the text is not
    valid JSON (the call raises [JSONDecodeError], a [ValueError]). *)
Variable json_loads : string -> option pyval.

Definition loads (text : string) : res pyval :=
  match json_loads text with
  | Some v => Ok v
  | None => Err ValueError
  end.

(** The body of [for line in f]. *)
Definition load_line (acc : list metadata_entry * vocab) (line : string)
  : res (list metadata_entry * vocab) :=
  if Py.truthy (VStr (Py.strip line)) then
    let* data := loads line in
    let* r := load_entry data (snd acc) in
    Ok (fst acc ++ [fst r], snd r)
  else Ok acc.

(** [load_metadata], on the lines of the metadata file and the
    vocabulary the evaluator already holds. *)
Definition load_metadata (lines : list string) (st : vocab)
  : res (list metadata_entry * vocab) :=
  foldM load_line ([], st) lines.
End Loader.

(** ** Graph extraction: [SGAdapterEvaluator.extract_scene_graph_from_image] *)

(** [{"scene_graph": [], "entities": []}] *)
Definition empty_prediction : pyval :=
  VDict [("scene_graph", VList []); ("entities", VList [])].

Definition is_int (v : pyval) : bool :=
  match v with VInt _ => true | _ => false end.

(** Whether [sorted(list(s))] succeeds on a vocabulary set.  The sets built
    by [load_metadata] hold None, integers and strings only; ordering
    compares elements pairwise and raises [TypeError] as soon as two
    elements of different types, or two None, meet, which happens exactly
    when there are two elements or more and they are not all strings or all
    integers. *)
Definition sorted_ok (s : list pyval) : bool :=
  (length s <=? 1)%nat || forallb is_str s || forallb is_int s.

Section Extraction.
Variable json_loads : string -> option pyval.

(** The hosted model: given the vocabulary that goes into the prompt and
    the image path, the text of its reply, or [None] when opening the
    image, the call or reading [response.text] raises. *)
Variable oracle : vocab -> string -> option string.

(** The statements of the [try] block after the reply text is there:
    first the Markdown fence is removed, *)
Definition unfence (text : string) : res string :=
  let response_text := Py.strip text in
  if Py.startswith "```" response_text then
    let* part := Py.seq_get (Py.split "```" response_text) 1 in
    let part := if Py.startswith "json" part then Py.drop 4 part else part in
    Ok (Py.strip part)
  else Ok response_text.

(** then the text is parsed and checked for the two names. *)
Definition parse_reply (text : string) : res pyval :=
  let* response_text := unfence text in
  let* result := loads json_loads response_text in
  let* has_scene_graph := Py.contains "scene_graph" result in
  if negb has_scene_graph then Err ValueError
  else
    let* has_entities := Py.contains "entities" result in
    if negb has_entities then Err ValueError
    else Ok result.

Definition extract_scene_graph_from_image (st : vocab) (image_path : string)
  : res pyval :=
  if sorted_ok (object_list st) && sorted_ok (predicate_list st) then
    match oracle st image_path with
    | None => Ok empty_prediction
    | Some text =>
        match parse_reply text with
        | Ok result => Ok result
        | Err _ => Ok empty_prediction
        end
    end
  else Err TypeError.

(** ** Scoring one image: [SGAdapterEvaluator.evaluate_image] *)

Record metrics : Type := {
  m_sg_iou : Q;
  m_entity_iou : Q;
  m_relation_iou : Q;
  m_predicted_sg : pyval;
  m_predicted_entities : pyval
}.

(** [[sg[i] for sg in graph]] *)
Definition column (i : Z) (graph : list pyval) : res (list pyval) :=
  mapM (fun sg => Py.getitem_int sg i) graph.

(** The scoring part of [evaluate_image], once [extracted] is there.
    [list(set(...))] is kept in the order [remove_dups] leaves. *)
Definition score_prediction (ground_truth_sg : list pyval) (extracted : pyval)
  : res metrics :=
  let* predicted_sg := Py.getitem_str extracted "scene_graph" in
  let* predicted_entities := Py.getitem_str extracted "entities" in
  let* subjects := column 0 ground_truth_sg in
  let* objects := column 2 ground_truth_sg in
  let* gt_entities := Py.set_of (subjects ++ objects) in
  let* gt_relations := column 1 ground_truth_sg in
  let* predicted_relations :=
    if Py.truthy predicted_sg then
      let* items := Py.iter predicted_sg in column 1 items
    else Ok [] in
  let* sg_iou := compute_iou (VList ground_truth_sg) predicted_sg in
  let* entity_iou := compute_iou (VList gt_entities) predicted_entities in
  let* relation_iou := compute_iou (VList gt_relations) (VList predicted_relations) in
  Ok {| m_sg_iou := sg_iou; m_entity_iou := entity_iou;
        m_relation_iou := relation_iou;
        m_predicted_sg := predicted_sg;
        m_predicted_entities := predicted_entities |}.

Definition evaluate_image (st : vocab) (image_path : string)
    (ground_truth_sg : list pyval) : res metrics :=
  let* extracted := extract_scene_graph_from_image st image_path in
  score_prediction ground_truth_sg extracted.

(** ** Scoring a method: [SGAdapterEvaluator.evaluate_method] *)

(** One element of [results]. *)
Record score_record : Type := {
  image : string;
  scene_index : Z;
  sr_caption : pyval;
  ground_truth_sg : list pyval;
  sg_iou : Q;
  entity_iou : Q;
  relation_iou : Q;
  predicted_sg : pyval;
  predicted_entities : pyval
}.

Record average_metrics : Type := {
  avg_sg_iou : Q;
  avg_entity_iou : Q;
  avg_relation_iou : Q;
  n_images : nat
}.

(** The scene index read off a base file name: the part of the name
    without extension before the first underscore, when it is a run of
    digits.  Any exception inside the [try] leaves [None]. *)
Definition scene_idx_of (base_name : string) : option Z :=
  let name_without_ext := Py.splitext_root base_name in
  match Py.split "_" name_without_ext with
  | first_part :: _ =>
      if Py.isdigit first_part then
        match Py.int_of_str first_part with
        | Ok z => Some z
        | Err _ => None
        end
      else None
  | [] => None
  end.

(** The metadata entry an index selects, under the guard
    [scene_idx is not None and scene_idx < len(metadata_list)]. *)
Definition matching_meta (metadata_list : list metadata_entry)
    (scene_idx : option Z) : option (Z * metadata_entry) :=
  match scene_idx with
  | Some i =>
      if (i <? Z.of_nat (length metadata_list))%Z then
        match Py.seq_get metadata_list i with
        | Ok m => Some (i, m)
        | Err _ => None
        end
      else None
  | None => None
  end.

(** The variables the image loop updates. *)
Record loop_state : Type := {
  results : list score_record;
  total_sg_iou : Q;
  total_entity_iou : Q;
  total_relation_iou : Q;
  evaluated : nat;
  skipped : nat
}.

Definition loop_init : loop_state :=
  {| results := []; total_sg_iou := 0; total_entity_iou := 0;
     total_relation_iou := 0; evaluated := 0; skipped := 0 |}.

(** The body of [for img_path in image_files]. *)
Definition evaluate_step (st : vocab) (metadata_list : list metadata_entry)
    (s : loop_state) (img_path : string) : res loop_state :=
  let base_name := Py.basename img_path in
  match matching_meta metadata_list (scene_idx_of base_name) with
  | None =>
      Ok {| results := results s;
            total_sg_iou := total_sg_iou s;
            total_entity_iou := total_entity_iou s;
            total_relation_iou := total_relation_iou s;
            evaluated := evaluated s;
            skipped := S (skipped s) |}
  | Some (scene_idx, meta) =>
      let gt_scene_graph := scene_graph meta in
      let* m := evaluate_image st img_path gt_scene_graph in
      Ok {| results := results s ++
              [ {| image := base_name; scene_index := scene_idx;
                   sr_caption := caption meta;
                   ground_truth_sg := gt_scene_graph;
                   sg_iou := m_sg_iou m; entity_iou := m_entity_iou m;
                   relation_iou := m_relation_iou m;
                   predicted_sg := m_predicted_sg m;
                   predicted_entities := m_predicted_entities m |} ];
            total_sg_iou := total_sg_iou s + m_sg_iou m;
            total_entity_iou := total_entity_iou s + m_entity_iou m;
            total_relation_iou := total_relation_iou s + m_relation_iou m;
            evaluated := S (evaluated s);
            skipped := skipped s |}
  end.

(** [total / n_images if n_images > 0 else 0] *)
Definition guarded_mean (total : Q) (n : nat) : Q :=
  if (0 <? n)%nat then total / inject_Z (Z.of_nat n) else 0.

Record method_output : Type := {
  out_average_metrics : average_metrics;
  per_image_results : list score_record;
  out_evaluated : nat;
  out_skipped : nat
}.

(** [evaluate_method] on the lines of the metadata file and the sorted
    list of image paths found in the image directory. *)
Definition evaluate_method (st : vocab) (lines image_files : list string)
  : res (method_output * vocab) :=
  let* loaded := load_metadata json_loads lines st in
  let metadata_list := fst loaded in
  let st' := snd loaded in
  let* s := foldM (evaluate_step st' metadata_list) loop_init image_files in
  let n := length (results s) in
  Ok ({| out_average_metrics :=
           {| avg_sg_iou := guarded_mean (total_sg_iou s) n;
              avg_entity_iou := guarded_mean (total_entity_iou s) n;
              avg_relation_iou := guarded_mean (total_relation_iou s) n;
              n_images := n |};
         per_image_results := results s;
         out_evaluated := evaluated s;
         out_skipped := skipped s |}, st').
End Extraction.

(** ** Best image per scene: [filter_best_images.py] *)

(** The [metric] argument; the command line admits these three names. *)
Inductive metric_name : Set := SgIou | EntityIou | RelationIou.

(** [x[metric]] *)
Definition metric_value (metric : metric_name) (x : score_record) : Q :=
  match metric with
  | SgIou => sg_iou x
  | EntityIou => entity_iou x
  | RelationIou => relation_iou x
  end.

(** [max(items, key=key)]: the running best is replaced only by an item
    whose key is strictly greater, so the first of several maximal items is
    returned; an empty sequence raises [ValueError]. *)
Fixpoint max_from (key : score_record -> Q) (best : score_record)
    (items : list score_record) : score_record :=
  match items with
  | [] => best
  | x :: items' =>
      max_from key (match key best ?= key x with Lt => x | _ => best end) items'
  end.

Definition py_max (key : score_record -> Q) (items : list score_record)
  : res score_record :=
  match items with
  | [] => Err ValueError
  | x :: items' => Ok (max_from key x items')
  end.

(** [sum(f(r) for r in rs)] *)
Definition py_sum (f : score_record -> Q) (rs : list score_record) : Q :=
  foldl (fun acc r => acc + f r) 0 rs.

(** [total / n] with an integer [n]: no guard. *)
Definition py_div (total : Q) (n : nat) : res Q :=
  match n with
  | O => Err ZeroDivisionError
  | S _ => Ok (total / inject_Z (Z.of_nat n))
  end.

(** The content of a [*_results.json] file. *)
Record results_data : Type := {
  data_average_metrics : average_metrics;
  data_per_image_results : list score_record
}.

Record filtered_data : Type := {
  selection_method : metric_name;
  fd_average_metrics : average_metrics;
  fd_per_image_results : list score_record;
  original_metrics : average_metrics
}.

Section BestPerScene.
(** [Path(image_name).stem] of [pathlib]. *)
Variable stem : string -> string.

Definition extract_scene_index (image_name : string) : string :=
  let base_name := stem image_name in
  match Py.split "_" base_name with
  | scene_idx :: _ => scene_idx
  | [] => EmptyString
  end.

(** The [scenes] dictionary, a [defaultdict(list)]: each result is
    appended to the list of its scene. *)
Definition add_result (scenes : gmap string (list score_record))
    (result : score_record) : gmap string (list score_record) :=
  let scene_idx := extract_scene_index (image result) in
  <[scene_idx := default [] (scenes !! scene_idx) ++ [result]]> scenes.

Definition group_by_scene (per_image_results : list score_record)
  : gmap string (list score_record) :=
  foldl add_result ∅ per_image_results.

(** [sorted(scenes.keys())] *)
Definition sorted_keys (scenes : gmap string (list score_record)) : list string :=
  merge_sort String.le (elements (dom scenes)).

(** The loop that fills [best_results]. *)
Definition select_best (metric : metric_name)
    (per_image_results : list score_record) : res (list score_record) :=
  let scenes := group_by_scene per_image_results in
  mapM (fun scene_idx =>
          py_max (metric_value metric) (default [] (scenes !! scene_idx)))
       (sorted_keys scenes).

Definition filter_best_per_scene (data : results_data) (metric : metric_name)
  : res filtered_data :=
  let* best_results := select_best metric (data_per_image_results data) in
  let n_scenes := length best_results in
  let* a_sg := py_div (py_sum sg_iou best_results) n_scenes in
  let* a_entity := py_div (py_sum entity_iou best_results) n_scenes in
  let* a_relation := py_div (py_sum relation_iou best_results) n_scenes in
  Ok {| selection_method := metric;
        fd_average_metrics :=
          {| avg_sg_iou := a_sg; avg_entity_iou := a_entity;
             avg_relation_iou := a_relation; n_images := n_scenes |};
        fd_per_image_results := best_results;
        original_metrics := data_average_metrics data |}.
End BestPerScene.

(** ** A reader for plain JSON

    [json.loads] itself is a parameter of the development.  To run the
    functions on concrete text, [MiniJson.loads] reads the fragment of JSON
    made of objects, arrays, strings without escape sequences, integers and
    [null]; on that fragment it returns what [json.loads] returns.  Text
    outside the fragment is not used in any example. *)

Module MiniJson.

Definition is_ws (c : ascii) : bool :=
  match c with
  | " " | "009" | "010" | "013" => true
  | _ => false
  end%char.

Fixpoint skip_ws (s : string) : string :=
  match s with
  | String c s' => if is_ws c then skip_ws s' else s
  | EmptyString => EmptyString
  end.

(** The characters up to the closing quote, and the rest. *)
Fixpoint read_string (s : string) : option (string * string) :=
  match s with
  | EmptyString => None
  | String c s' =>
      if Ascii.eqb c "034" then Some (EmptyString, s')
      else if Ascii.eqb c "\" then None
      else if (nat_of_ascii c <? 32)%nat then None
      else match read_string s' with
           | Some (t, rest) => Some (String c t, rest)
           | None => None
           end
  end.

Fixpoint read_digits (s : string) : string * string :=
  match s with
  | String c s' =>
      if Py.is_digit c
      then let '(d, rest) := read_digits s' in (String c d, rest)
      else (EmptyString, s)
  | EmptyString => (EmptyString, EmptyString)
  end.

Fixpoint digits_val (acc : Z) (s : string) : Z :=
  match s with
  | String c s' => digits_val (10 * acc + Py.digit_val c)%Z s'
  | EmptyString => acc
  end.

(** An integer literal: no leading zero, no fraction, no exponent. *)
Definition read_int (neg : bool) (s : string) : option (pyval * string) :=
  let '(d, rest) := read_digits s in
  let ok_digits :=
    match d with
    | EmptyString => false
    | String "0" (String _ _) => false
    | _ => true
    end in
  let ok_rest :=
    match rest with
    | String c _ => negb (Ascii.eqb c "." || Ascii.eqb c "e" || Ascii.eqb c "E")
    | EmptyString => true
    end in
  if ok_digits && ok_rest
  then Some (VInt (if neg then - digits_val 0 d else digits_val 0 d)%Z, rest)
  else None.

(** Assignment to a dict key: a repeated key keeps its place and takes
    the new value. *)
Fixpoint dict_set (k : string) (v : pyval) (d : list (string * pyval))
  : list (string * pyval) :=
  match d with
  | [] => [(k, v)]
  | (k', v') :: d' =>
      if String.eqb k k' then (k, v) :: d' else (k', v') :: dict_set k v d'
  end.

Fixpoint read_value (fuel : nat) (s : string) : option (pyval * string) :=
  match fuel with
  | O => None
  | S fuel' =>
      let fix read_elements (n : nat) (acc : list pyval) (s : string)
          : option (pyval * string) :=
        match n with
        | O => None
        | S n' =>
            match read_value fuel' s with
            | None => None
            | Some (v, rest) =>
                match skip_ws rest with
                | String "," rest' => read_elements n' (acc ++ [v]) rest'
                | String "]" rest' => Some (VList (acc ++ [v]), rest')
                | _ => None
                end
            end
        end in
      let fix read_members (n : nat) (acc : list (string * pyval)) (s : string)
          : option (pyval * string) :=
        match n with
        | O => None
        | S n' =>
            match skip_ws s with
            | String "034" s1 =>
                match read_string s1 with
                | None => None
                | Some (k, s2) =>
                    match skip_ws s2 with
                    | String ":" s3 =>
                        match read_value fuel' s3 with
                        | None => None
                        | Some (v, rest) =>
                            match skip_ws rest with
                            | String "," rest' => read_members n' (dict_set k v acc) rest'
                            | String "}" rest' => Some (VDict (dict_set k v acc), rest')
                            | _ => None
                            end
                        end
                    | _ => None
                    end
                end
            | _ => None
            end
        end in
      match skip_ws s with
      | String "034" s' =>
          match read_string s' with
          | Some (t, rest) => Some (VStr t, rest)
          | None => None
          end
      | String "[" s' =>
          match skip_ws s' with
          | String "]" rest => Some (VList [], rest)
          | _ => read_elements (String.length s') [] s'
          end
      | String "{" s' =>
          match skip_ws s' with
          | String "}" rest => Some (VDict [], rest)
          | _ => read_members (String.length s') [] s'
          end
      | String "-" s' => read_int true s'
      | String "n" (String "u" (String "l" (String "l" rest))) => Some (VNone, rest)
      | s' => read_int false s'
      end%char
  end.

(** A whole document: one value, then nothing but white space. *)
Definition loads (text : string) : option pyval :=
  match read_value (S (String.length text)) text with
  | Some (v, rest) =>
      match skip_ws rest with
      | EmptyString => Some v
      | _ => None
      end
  | None => None
  end.

End MiniJson.

(** The double quote, and a quoted word, for writing JSON text. *)
Definition dquote : string := String "034"%char EmptyString.
Definition quoted (s : string) : string := dquote +:+ s +:+ dquote.

(** ** The loader as the specification words it

    A line counts when stripping it leaves something.  The record the
    specification expects of a parsed line has the four fields, [objects] a
    sequence of strings and every relation a triple [[i, predicate, j]]
    whose indices, given as integers or as strings, are positions of
    [objects]; its scene graph names the two positions. *)

Definition nonblank (line : string) : bool := Py.truthy (VStr (Py.strip line)).

Definition position (objs : list pyval) (v : pyval) : option pyval :=
  match Py.int v with
  | Ok i => if (0 <=? i)%Z then objs !! Z.to_nat i else None
  | Err _ => None
  end.

Definition spec_triple (objs : list pyval) (rel : pyval) : option pyval :=
  match rel with
  | VList [a; VStr p; b] =>
      match position objs a, position objs b with
      | Some subj, Some obj => Some (VList [subj; VStr p; obj])
      | _, _ => None
      end
  | _ => None
  end.

Fixpoint spec_scene_graph (objs rels : list pyval) : option (list pyval) :=
  match rels with
  | [] => Some []
  | rel :: rels' =>
      match spec_triple objs rel, spec_scene_graph objs rels' with
      | Some t, Some ts => Some (t :: ts)
      | _, _ => None
      end
  end.

Definition spec_record (data : pyval) : option metadata_entry :=
  match data with
  | VDict d =>
      match Py.assoc "file_name" d, Py.assoc "caption" d,
            Py.assoc "objects" d, Py.assoc "relations" d with
      | Some fn, Some cap, Some (VList objs), Some (VList rels) =>
          if is_str_list objs then
            match spec_scene_graph objs rels with
            | Some sg =>
                Some {| file_name := fn; caption := cap; scene_graph := sg;
                        objects := VList objs; relations := VList rels |}
            | None => None
            end
          else None
      | _, _, _, _ => None
      end
  | _ => None
  end.

(** The integer [i] is the subject or the object index of [rel]. *)
Definition relation_index (rel : pyval) (i : Z) : Prop :=
  (exists v, Py.getitem_int rel 0 = Ok v /\ Py.int v = Ok i) \/
  (exists v, Py.getitem_int rel 2 = Ok v /\ Py.int v = Ok i).

(** The parsed [line] has the objects [objs] and a relation with index [i]. *)
Definition line_has_index (json_loads : string -> option pyval)
    (line : string) (objs : list pyval) (i : Z) : Prop :=
  nonblank line = true /\
  exists data rels_v rels rel,
    json_loads line = Some data /\
    Py.getitem_str data "objects" = Ok (VList objs) /\
    Py.getitem_str data "relations" = Ok rels_v /\
    Py.iter rels_v = Ok rels /\
    rel ∈ rels /\
    relation_index rel i.

(** The specification's reading of a valid index: a 0-based position. *)
Definition valid_index (objs : list pyval) (i : Z) : Prop :=
  (0 <= i < Z.of_nat (length objs))%Z.

(** The indices Python's subscript accepts. *)
Definition python_index (objs : list pyval) (i : Z) : Prop :=
  (- Z.of_nat (length objs) <= i < Z.of_nat (length objs))%Z.

(** The loader rejects every file with an index that is not a 0-based
    position. *)
Definition rejects_invalid_indices : Prop :=
  forall (json_loads : string -> option pyval) (lines : list string) (st : vocab)
         (line : string) (objs : list pyval) (i : Z),
    line ∈ lines ->
    line_has_index json_loads line objs i ->
    ~ valid_index objs i ->
    is_ok (load_metadata json_loads lines st) = false.

(** The metadata line of the specification's scenario. *)
Definition scenario_line : string :=
  "{" +:+ quoted "file_name" +:+ ":" +:+ quoted "a" +:+ "," +:+
  quoted "caption" +:+ ":" +:+ quoted "c" +:+ "," +:+
  quoted "objects" +:+ ":[" +:+ quoted "cat" +:+ "," +:+ quoted "mat" +:+ "]," +:+
  quoted "relations" +:+ ":[[0," +:+ quoted "on" +:+ ",1]]}".

(** The same line with the subject index [-1]. *)
Definition negative_index_line : string :=
  "{" +:+ quoted "file_name" +:+ ":" +:+ quoted "a" +:+ "," +:+
  quoted "caption" +:+ ":" +:+ quoted "c" +:+ "," +:+
  quoted "objects" +:+ ":[" +:+ quoted "cat" +:+ "," +:+ quoted "mat" +:+ "]," +:+
  quoted "relations" +:+ ":[[-1," +:+ quoted "on" +:+ ",0]]}".

(** And with the object index [2], one past the end. *)
Definition large_index_line : string :=
  "{" +:+ quoted "file_name" +:+ ":" +:+ quoted "a" +:+ "," +:+
  quoted "caption" +:+ ":" +:+ quoted "c" +:+ "," +:+
  quoted "objects" +:+ ":[" +:+ quoted "cat" +:+ "," +:+ quoted "mat" +:+ "]," +:+
  quoted "relations" +:+ ":[[0," +:+ quoted "on" +:+ ",2]]}".

(** [t] is the named form of [rel] over [objects]: its subject and object
    are the elements of [objects] at the two indices of [rel]. *)
Definition names_relation (objects rel t : pyval) : Prop :=
  exists a b i j subj pred obj,
    Py.getitem_int rel 0 = Ok a /\ Py.int a = Ok i /\
    Py.getitem_int rel 1 = Ok pred /\
    Py.getitem_int rel 2 = Ok b /\ Py.int b = Ok j /\
    Py.getitem_int objects i = Ok subj /\
    Py.getitem_int objects j = Ok obj /\
    t = VList [subj; pred; obj].

(** The scene graph of [e] names its relations one by one, in order. *)
Definition resolved_entry (e : metadata_entry) : Prop :=
  exists rels,
    Py.iter (relations e) = Ok rels /\
    Forall2 (names_relation (objects e)) rels (scene_graph e).

(** ** The scene id as the specification words it *)

(** The left segment of a split on the first underscore. *)
Fixpoint before_underscore (s : string) : string :=
  match s with
  | EmptyString => EmptyString
  | String c s' => if Ascii.eqb c "_" then EmptyString else String c (before_underscore s')
  end.

(** The number a run of decimal digits denotes. *)
Fixpoint decimal_from (acc : Z) (s : string) : Z :=
  match s with
  | EmptyString => acc
  | String c s' => decimal_from (10 * acc + Py.digit_val c)%Z s'
  end.

Definition decimal (s : string) : Z := decimal_from 0 s.

(** A run of digits that [int] accepts: not longer than the limit on the
    digits of a literal.  No file name is that long. *)
Definition within_digit_limit (s : string) : bool :=
  (Z.of_nat (String.length s) <=? Py.max_str_digits)%Z.

(** The state after an image was skipped. *)
Definition skip_image (s : loop_state) : loop_state :=
  {| results := results s;
     total_sg_iou := total_sg_iou s;
     total_entity_iou := total_entity_iou s;
     total_relation_iou := total_relation_iou s;
     evaluated := evaluated s;
     skipped := S (skipped s) |}.

(** The state after an image of scene [scene_idx] was scored as [m]. *)
Definition record_image (s : loop_state) (base_name : string) (scene_idx : Z)
    (meta : metadata_entry) (m : metrics) : loop_state :=
  {| results := results s ++
       [ {| image := base_name; scene_index := scene_idx;
            sr_caption := caption meta;
            ground_truth_sg := scene_graph meta;
            sg_iou := m_sg_iou m; entity_iou := m_entity_iou m;
            relation_iou := m_relation_iou m;
            predicted_sg := m_predicted_sg m;
            predicted_entities := m_predicted_entities m |} ];
     total_sg_iou := total_sg_iou s + m_sg_iou m;
     total_entity_iou := total_entity_iou s + m_entity_iou m;
     total_relation_iou := total_relation_iou s + m_relation_iou m;
     evaluated := S (evaluated s);
     skipped := skipped s |}.

(** ** The three projections as the specification words them *)

(** A triple of three strings. *)
Definition is_triple3 (v : pyval) : bool :=
  match v with
  | VList [VStr _; VStr _; VStr _] => true
  | _ => false
  end.

Definition is_graph (g : list pyval) : bool := forallb is_triple3 g.

(** The [i]-th component of a triple. *)
Definition component (i : nat) (t : pyval) : pyval :=
  match t with
  | VList l => nth i l VNone
  | _ => VNone
  end.

Definition subjects_of (g : list pyval) : list pyval := component 0 <$> g.
Definition predicates_of (g : list pyval) : list pyval := component 1 <$> g.
Definition objects_of (g : list pyval) : list pyval := component 2 <$> g.

(** ** Concrete inputs for the scenarios *)

(** The record the scenario line loads to. *)
Definition scenario_entry : metadata_entry :=
  {| file_name := VStr "a"; caption := VStr "c";
     scene_graph := [VList [VStr "cat"; VStr "on"; VStr "mat"]];
     objects := VList [VStr "cat"; VStr "mat"];
     relations := VList [VList [VInt 0; VStr "on"; VInt 1]] |}.

(** An oracle whose call always raises. *)
Definition failing_oracle (st : vocab) (image_path : string) : option string := None.

(** A reply with the right triple and an unrelated entity list:
    [{"scene_graph": [["cat","on","mat"]], "entities": ["dog"]}]. *)
Definition reply_cat_dog : string :=
  "{" +:+ quoted "scene_graph" +:+ ": [[" +:+ quoted "cat" +:+ "," +:+
  quoted "on" +:+ "," +:+ quoted "mat" +:+ "]], " +:+
  quoted "entities" +:+ ": [" +:+ quoted "dog" +:+ "]}".

(** A reply that is a JSON array of the two field names:
    [["scene_graph", "entities"]]. *)
Definition reply_array : string :=
  "[" +:+ quoted "scene_graph" +:+ ", " +:+ quoted "entities" +:+ "]".

(** An oracle that answers every image with the same text. *)
Definition constant_oracle (text : string) (st : vocab) (image_path : string)
  : option string := Some text.

(** ** The running totals of the image loop *)

(** Each total is the sum of its metric over the results so far. *)
Definition totals_match (s : loop_state) : Prop :=
  total_sg_iou s = py_sum sg_iou (results s) /\
  total_entity_iou s = py_sum entity_iou (results s) /\
  total_relation_iou s = py_sum relation_iou (results s).

(** ** Best-per-scene selection as the specification words it *)

(** [Path(name).stem] on a plain file name (no directory part): the name
    up to its last dot, unless that dot is the first or the last character
    or there is none. *)
Definition path_stem (name : string) : string :=
  let i := Py.rfind "." name in
  if (0 <? i)%Z && (i <? Z.of_nat (String.length name) - 1)%Z
  then Py.take (Z.to_nat i) name
  else name.

Section BestPerSceneSpec.
Variable stem : string -> string.

(** The key under which a record is grouped. *)
Definition scene_key (r : score_record) : string :=
  extract_scene_index stem (image r).

(** The records of one scene, in input order. *)
Definition scene_group (k : string) (rs : list score_record) : list score_record :=
  filter (fun r => scene_key r = k) rs.

(** [r] is the first record of [group] with the greatest value of the
    metric: everything before it is strictly smaller, nothing after it
    is greater. *)
Definition first_maximum (metric : metric_name) (group : list score_record)
    (r : score_record) : Prop :=
  exists before after,
    group = before ++ r :: after /\
    Forall (fun x => metric_value metric x < metric_value metric r) before /\
    Forall (fun x => metric_value metric x <= metric_value metric r) after.
End BestPerSceneSpec.

(** The records of a results file carry the scene index that
    [evaluate_method] read off their image name. *)
Definition consistent_record (r : score_record) : Prop :=
  scene_idx_of (image r) = Some (scene_index r).

(** Selection keeps one record per scene index. *)
Definition one_record_per_scene_index : Prop :=
  forall (metric : metric_name) (rs out : list score_record),
    Forall consistent_record rs ->
    select_best path_stem metric rs = Ok out ->
    NoDup (scene_index <$> out).

(** Two images of scene 0 whose names pad the index differently. *)
Definition record_of (name : string) (idx : Z) (score : Q) : score_record :=
  {| image := name; scene_index := idx; sr_caption := VStr "c";
     ground_truth_sg := [VList [VStr "cat"; VStr "on"; VStr "mat"]];
     sg_iou := score; entity_iou := score; relation_iou := score;
     predicted_sg := VList []; predicted_entities := VList [] |}.

Definition record_0 : score_record := record_of "0.png" 0 (2 # 5).
Definition record_000 : score_record := record_of "000.png" 0 (7 # 10).

(** [f] is injective on the elements of [l]. *)
Definition inj_on {A B : Type} (f : A -> B) (l : list A) : Prop :=
  forall x y, x ∈ l -> y ∈ l -> f x = f y -> x = y.

(** A parsed line as the specification expects it. *)
Definition spec_line (json_loads : string -> option pyval) (line : string)
  : option metadata_entry :=
  json_loads line ≫= spec_record.

(** What one run of the loop body on [line] can produce. *)
Definition loaded_from (json_loads : string -> option pyval) (line : string)
    (e : metadata_entry) : Prop :=
  exists data st st',
    json_loads line = Some data /\ load_entry data st = Ok (e, st').

(** ** Further notions used by the properties of the pipeline *)

(** Two sequences of one shape, as [compute_iou] is meant to receive them. *)
Definition same_shape (a b : list pyval) : bool :=
  (is_str_list a && is_str_list b) || (is_triple_list a && is_triple_list b).

(** The two sequences have the same elements, whatever their order and
    however often each is repeated. *)
Definition same_elements (a b : list pyval) : Prop :=
  forall x, x ∈ a <-> x ∈ b.

(** The two sequences have no element in common. *)
Definition no_common_element (a b : list pyval) : Prop :=
  forall x, x ∈ a -> x ∈ b -> False.


(** The objects of an entry, as [object_list.update] iterates them. *)
Definition entry_objects (e : metadata_entry) : list pyval :=
  match Py.iter (objects e) with
  | Ok items => items
  | Err _ => []
  end.

(** The predicates of the resolved triples of an entry. *)
Definition entry_predicates (e : metadata_entry) : list pyval :=
  component 1 <$> scene_graph e.

(** The four fields [load_metadata] reads from a line. *)
Definition required_fields : list string :=
  ["objects"; "relations"; "file_name"; "caption"].


(** A metadata line whose objects mix a string and an integer:
    [{"file_name":"a","caption":"c","objects":["cat",3],"relations":[]}]. *)
Definition mixed_objects_line : string :=
  "{" +:+ quoted "file_name" +:+ ":" +:+ quoted "a" +:+ "," +:+
  quoted "caption" +:+ ":" +:+ quoted "c" +:+ "," +:+
  quoted "objects" +:+ ":[" +:+ quoted "cat" +:+ ",3]," +:+
  quoted "relations" +:+ ":[]}".


(** The text holds no backtick. *)
Fixpoint no_backtick (s : string) : bool :=
  match s with
  | EmptyString => true
  | String c s' => negb (Ascii.eqb c "`") && no_backtick s'
  end.

(** The reply [body] inside a Markdown fence. *)
Definition fenced (body : string) : string := "```" +:+ body +:+ "```".


(** ** What [evaluate_method] keeps about its records *)

(** The image at [img_path] finds a metadata entry. *)
Definition resolvable (records : list metadata_entry) (img_path : string) : bool :=
  match matching_meta records (scene_idx_of (Py.basename img_path)) with
  | Some _ => true
  | None => false
  end.

(** The record carries the index read off its image name, and the ground
    truth and caption of the metadata entry at that index. *)
Definition joined (records : list metadata_entry) (r : score_record) : Prop :=
  scene_idx_of (image r) = Some (scene_index r) /\
  (0 <= scene_index r < Z.of_nat (length records))%Z /\
  exists meta,
    records !! Z.to_nat (scene_index r) = Some meta /\
    ground_truth_sg r = scene_graph meta /\
    sr_caption r = caption meta.

(** The three scores of the record lie in [0, 1]. *)
Definition unit_scores (r : score_record) : Prop :=
  0 <= sg_iou r <= 1 /\ 0 <= entity_iou r <= 1 /\ 0 <= relation_iou r <= 1.


(** The scene id of the line at position [i] of the file: the number of
    non-blank lines before it. *)
Definition scene_id_at (lines : list string) (i : nat) : nat :=
  length (filter (fun l => nonblank l = true) (take i lines)).

(** The number of blank lines before position [i]. *)
Definition blanks_before (lines : list string) (i : nat) : nat :=
  length (filter (fun l => nonblank l = false) (take i lines)).


(** ** Comparing methods: [SGAdapterEvaluator.compare_methods] *)

(** [d[k] = v] on a dict kept in insertion order: a key already there keeps
    its place and takes the new value. *)
Fixpoint assign {K V : Type} `{EqDecision K} (k : K) (v : V) (d : list (K * V))
  : list (K * V) :=
  match d with
  | [] => [(k, v)]
  | (k', v') :: d' =>
      if decide (k = k') then (k, v) :: d' else (k', v') :: assign k v d'
  end.

Section Comparison.
Variable json_loads : string -> option pyval.
Variable oracle : vocab -> string -> option string.

(** One turn of [for config in methods_config]: [config] is the method
    name and the sorted list of image paths found in its directory. *)
Definition compare_step (lines : list string)
    (acc : list (string * average_metrics) * vocab)
    (config : string * list string)
  : res (list (string * average_metrics) * vocab) :=
  let method_name := fst config in
  let* r := evaluate_method json_loads oracle (snd acc) lines (snd config) in
  Ok (assign method_name (out_average_metrics (fst r)) (fst acc), snd r).

(** [compare_methods]: the [comparison] dict, and the evaluator's
    vocabulary afterwards. *)
Definition compare_methods (st : vocab) (lines : list string)
    (methods_config : list (string * list string))
  : res (list (string * average_metrics) * vocab) :=
  foldM (compare_step lines) ([], st) methods_config.
End Comparison.

(** ** Scanning the metadata file: [run_evaluation.scan_metadata_file] *)

(** [predicates.update(rel[1] for rel in relations)]: the generator yields
    one [rel[1]] at a time and the set hashes it before the next is drawn. *)
Definition predicate_of (rel : pyval) : res pyval :=
  let* p := Py.getitem_int rel 1 in
  if Py.hashable p then Ok p else Err TypeError.

(** The variables of the scan: the [scenes] dict keyed by file name, and
    the two sets. *)
Record scan_state : Type := {
  scenes : list (pyval * pyval);
  scan_objects : list pyval;
  scan_predicates : list pyval
}.

Definition scan_init : scan_state :=
  {| scenes := []; scan_objects := []; scan_predicates := [] |}.

Section Scan.
Variable json_loads : string -> option pyval.

(** The body of [for line in f]. *)
Definition scan_line (s : scan_state) (line : string) : res scan_state :=
  if Py.truthy (VStr (Py.strip line)) then
    let* data := loads json_loads line in
    let* file_name := Py.getitem_str data "file_name" in
    if negb (Py.hashable file_name) then Err TypeError
    else
      let scenes' := assign file_name data (scenes s) in
      let* objs_v := Py.getitem_str data "objects" in
      let* objs := Py.iter objs_v in
      let* objects' := set_update (scan_objects s) objs in
      let* rels_v := Py.getitem_str data "relations" in
      let* rels := Py.iter rels_v in
      let* preds := mapM predicate_of rels in
      Ok {| scenes := scenes';
            scan_objects := objects';
            scan_predicates := remove_dups (scan_predicates s ++ preds) |}
  else Ok s.

(** What the report after the loop needs: [', '.join(sorted(predicates))]
    wants strings only, and the sample of the first five scenes reads the
    caption of each. *)
Definition scan_report (s : scan_state) : res unit :=
  if forallb is_str (scan_predicates s) then
    let* _ := mapM (fun kv => Py.getitem_str (snd kv) "caption")
                   (firstn 5 (scenes s)) in
    Ok tt
  else Err TypeError.

(** [scan_metadata_file]: [file] is the lines of the metadata file, or
    [None] when the path does not exist; the result is [None] or the
    [scenes] dict. *)
Definition scan_metadata_file (file : option (list string))
  : res (option (list (pyval * pyval))) :=
  match file with
  | None => Ok None
  | Some lines =>
      let* s := foldM scan_line scan_init lines in
      let* _ := scan_report s in
      Ok (Some (scenes s))
  end.
End Scan.


(** ** Mapping scene directories: [create_scene_mapping.auto_create_scene_mapping] *)

(** [x[:50]]: strings and lists can be sliced; None and integers raise
    [TypeError].  (So does a dict, with [TypeError] up to Python 3.11 and
    [KeyError] from 3.12 on; it is given [TypeError] here.) *)
Definition check_slice (v : pyval) : res unit :=
  match v with
  | VStr _ | VList _ | VTuple _ => Ok tt
  | VNone | VInt _ | VDict _ => Err TypeError
  end.

Section SceneMapping.
Variable json_loads : string -> option pyval.

(** The body of [for i, line in enumerate(f)]: the parsed line is stored
    under its line number. *)
Definition index_line (metadata : gmap nat pyval) (entry : nat * string)
  : res (gmap nat pyval) :=
  let '(i, line) := entry in
  if Py.truthy (VStr (Py.strip line)) then
    let* data := loads json_loads line in
    Ok (<[i := data]> metadata)
  else Ok metadata.

(** [enumerate(xs)] *)
Definition enumerate {A : Type} (xs : list A) : list (nat * A) :=
  imap (fun i x => (i, x)) xs.

Definition index_metadata (lines : list string) : res (gmap nat pyval) :=
  foldM index_line ∅ (enumerate lines).

(** [sorted(list(set(scene_dirs)))] *)
Definition distinct_sorted (scene_dirs : list string) : list string :=
  merge_sort String.le (remove_dups scene_dirs).

(** The body of [for i, scene_dir in enumerate(scene_dirs)]: the entry is
    written first, then the progress line reads the caption. *)
Definition map_scene (metadata : gmap nat pyval) (mapping : list (string * nat))
    (entry : nat * string) : res (list (string * nat)) :=
  let '(i, scene_dir) := entry in
  if (i <? size metadata)%nat then
    let mapping' := assign scene_dir i mapping in
    match metadata !! i with
    | None => Err KeyError
    | Some meta =>
        let* caption := Py.getitem_str meta "caption" in
        let* _ := check_slice caption in
        Ok mapping'
    end
  else Ok mapping.

(** [auto_create_scene_mapping], on the lines of the metadata file and the
    relative paths of the directories under [images_dir] that hold images,
    as the directory walk lists them. *)
Definition auto_create_scene_mapping (lines scene_dirs : list string)
  : res (list (string * nat)) :=
  let* metadata := index_metadata lines in
  foldM (map_scene metadata) [] (enumerate (distinct_sorted scene_dirs)).
End SceneMapping.


(** The entry holds the averages of a run of [evaluate_method] over the
    image files of a method of that name. *)
Definition entry_of_run (json_loads : string -> option pyval)
    (oracle : vocab -> string -> option string) (lines : list string)
    (methods_config : list (string * list string))
    (kv : string * average_metrics) : Prop :=
  exists image_files st out st',
    (fst kv, image_files) ∈ methods_config /\
    evaluate_method json_loads oracle st lines image_files = Ok (out, st') /\
    snd kv = out_average_metrics out.


(** The file name and parsed content of a line the scan takes in. *)
Definition scan_pair (json_loads : string -> option pyval) (line : string)
  : option (pyval * pyval) :=
  if nonblank line then
    match json_loads line with
    | Some data =>
        match Py.getitem_str data "file_name" with
        | Ok fn => Some (fn, data)
        | Err _ => None
        end
    | None => None
    end
  else None.

Definition scan_pairs (json_loads : string -> option pyval) (lines : list string)
  : list (pyval * pyval) :=
  omap (scan_pair json_loads) lines.

(** A run of dict assignments. *)
Definition assign_all {K V : Type} `{EqDecision K} (d : list (K * V))
    (ps : list (K * V)) : list (K * V) :=
  foldl (fun d kv => assign (fst kv) (snd kv) d) d ps.

(** Two methods for the comparison examples. *)
Definition two_methods : list (string * list string) :=
  [("gnn_run", ["gnn/000.png"]); ("repr_run", ["repr/000.png"; "repr/foo.png"])].


(** [enumerate(xs, k)]: the counter starts at [k]. *)
Definition enumerate_from {A : Type} (k : nat) (xs : list A) : list (nat * A) :=
  imap (fun i x => ((k + i)%nat, x)) xs.

(** The line parses to a value whose [caption] can be sliced. *)
Definition has_caption (json_loads : string -> option pyval) (line : string) : bool :=
  match json_loads line with
  | Some data =>
      match Py.getitem_str data "caption" with
      | Ok caption => is_ok (check_slice caption)
      | Err _ => false
      end
  | None => false
  end.

(** A metadata file with the record of one scene written twice around a
    blank line. *)
Definition repeated_lines : list string :=
  [scenario_line; EmptyString; scenario_line].

(** A metadata file whose second line is blank. *)
Definition gapped_lines : list string :=
  [scenario_line; EmptyString; scenario_line; scenario_line].


(** ** Comparing the filtered methods: [filter_best_images.compare_methods_best_only] *)

Section BestOnlyComparison.
Variable stem : string -> string.

(** The body of [for method_name, results_file in methods_results.items()],
    on the parsed content of the results file. *)
Definition compare_best_step (metric : metric_name)
    (comparison : list (string * average_metrics))
    (entry : string * results_data) : res (list (string * average_metrics)) :=
  let '(method_name, data) := entry in
  let* filtered := filter_best_per_scene stem data metric in
  Ok (assign method_name (fd_average_metrics filtered) comparison).

Definition compare_methods_best_only (methods_results : list (string * results_data))
    (metric : metric_name) : res (list (string * average_metrics)) :=
  foldM (compare_best_step metric) [] methods_results.
End BestOnlyComparison.

(** The results file of a method without evaluated images, as
    [evaluate_method] writes it. *)
Definition empty_results : results_data :=
  {| data_average_metrics :=
       {| avg_sg_iou := 0; avg_entity_iou := 0; avg_relation_iou := 0; n_images := 0 |};
     data_per_image_results := [] |}.

(** A results file with two images of scene 0. *)
Definition scene_0_results : results_data :=
  {| data_average_metrics :=
       {| avg_sg_iou := 11 # 20; avg_entity_iou := 11 # 20;
          avg_relation_iou := 11 # 20; n_images := 2 |};
     data_per_image_results := [record_of "000_1.png" 0 (2 # 5); record_000] |}.


(** ** File names with an extension *)

(** The character [c] does not occur in [s]. *)
Definition lacks (c : ascii) (s : string) : bool :=
  negb (existsb (Ascii.eqb c) (String.list_ascii_of_string s)).

(** Every character of [s] is a dot (so does the empty string). *)
Definition all_dots (s : string) : bool :=
  forallb (Ascii.eqb ".") (String.list_ascii_of_string s).


(** A record as [evaluate_method] writes it for an image found by [glob]:
    the name has no directory part, does not end in its last dot, and the
    scene index is the one read off the name. *)
Definition written_record (r : score_record) : Prop :=
  Py.rfind "/" (image r) = (-1)%Z /\
  (Py.rfind "." (image r) < Z.of_nat (String.length (image r)) - 1)%Z /\
  consistent_record r.

(* ================================================================= *)
(** * Properties *)

(** ** Sets as duplicate-free lists *)

Section list_sets.
Context {A : Type} `{EqDecision A}.

Lemma list_intersection_filter (l k : list A) :
  list_intersection l k = filter (fun x => x ∈ k) l.
Proof.
  induction l as [|x l IH]; simpl; [done|].
  rewrite filter_cons. destruct (decide_rel elem_of x k), (decide (x ∈ k)); simpl;
    try contradiction; by rewrite IH.
Qed.

Lemma length_intersection_le_union (l k : list A) :
  NoDup l -> (length (list_intersection l k) <= length (list_union l k))%nat.
Proof.
  intros Hl. unfold list_union. rewrite length_app.
  assert (length (list_intersection l k) <= length k)%nat; [|lia].
  apply submseteq_length, NoDup_submseteq.
  - by apply NoDup_list_intersection.
  - intros x Hx. apply list_elem_of_intersection in Hx. tauto.
Qed.

Lemma length_union_pos (l k : list A) :
  l <> [] -> (0 < length (list_union l k))%nat.
Proof.
  intros Hl. destruct l as [|x l]; [done|].
  assert (Hx : x ∈ list_union (x :: l) k).
  { apply list_elem_of_union. left. by left. }
  destruct (list_union (x :: l) k); [by apply elem_of_nil in Hx|simpl; lia].
Qed.

Lemma length_union_remove_dups (a b : list A) :
  length (list_union (remove_dups a) (remove_dups b)) = length (remove_dups (a ++ b)).
Proof.
  apply Permutation_length, NoDup_Permutation.
  - apply NoDup_list_union; apply NoDup_remove_dups.
  - apply NoDup_remove_dups.
  - intros x. rewrite list_elem_of_union, !elem_of_remove_dups, elem_of_app. tauto.
Qed.

Lemma length_intersection_remove_dups (a b : list A) :
  length (list_intersection (remove_dups a) (remove_dups b))
  = length (filter (fun x => x ∈ b) (remove_dups a)).
Proof.
  rewrite list_intersection_filter. f_equal.
  apply list_filter_iff. intros x. apply elem_of_remove_dups.
Qed.
End list_sets.

Section injective_image.
Context {A B : Type} `{EqDecision A} `{EqDecision B} (f : A -> B).

Lemma inj_on_weaken (l k : list A) : l ⊆ k -> inj_on f k -> inj_on f l.
Proof. intros Hs Hk x y Hx Hy. apply Hk; auto. Qed.

Lemma elem_of_fmap_inj_on (l : list A) (x : A) (k : list A) :
  inj_on f l -> x ∈ l -> k ⊆ l -> f x ∈ f <$> k <-> x ∈ k.
Proof.
  intros Hinj Hx Hk. split.
  - intros (y & Hfy & Hy)%list_elem_of_fmap.
    assert (x = y) as ->; [apply Hinj; auto|done].
  - apply list_elem_of_fmap_2.
Qed.

Lemma remove_dups_fmap_inj_on (l : list A) :
  inj_on f l -> remove_dups (f <$> l) = f <$> remove_dups l.
Proof.
  induction l as [|x l IH]; intros Hinj; [done|].
  assert (Htl : inj_on f l).
  { eapply inj_on_weaken; [|exact Hinj]. intros z Hz. by right. }
  rewrite fmap_cons. cbn [remove_dups]. rewrite (IH Htl).
  destruct (decide_rel elem_of (f x) (f <$> l)) as [Hin|Hnin],
           (decide_rel elem_of x l) as [Hin'|Hnin']; try done.
  - exfalso. apply Hnin'.
    apply (elem_of_fmap_inj_on (x :: l) x l Hinj); [by left| |done].
    intros z Hz. by right.
  - exfalso. apply Hnin. by apply list_elem_of_fmap_2.
Qed.

Lemma filter_fmap_inj_on (l k : list A) :
  inj_on f (l ++ k) ->
  filter (fun y => y ∈ f <$> k) (f <$> l) = f <$> filter (fun x => x ∈ k) l.
Proof.
  induction l as [|x l IH]; intros Hinj; [done|].
  assert (Htl : inj_on f (l ++ k)).
  { eapply inj_on_weaken; [|exact Hinj]. intros z Hz. by right. }
  rewrite fmap_cons, !filter_cons, (IH Htl).
  assert (Hiff : f x ∈ f <$> k <-> x ∈ k).
  { apply (elem_of_fmap_inj_on ((x :: l) ++ k)); [done|by left|].
    intros z Hz. apply elem_of_app. by right. }
  destruct (decide (f x ∈ f <$> k)), (decide (x ∈ k)); tauto || done.
Qed.
End injective_image.

(** ** [compute_iou] against the specification's [setIoU] *)

Lemma str_hashable (l : list pyval) :
  is_str_list l = true -> forallb Py.hashable l = true.
Proof.
  unfold is_str_list. rewrite !forallb_forall. intros H x Hx.
  specialize (H x Hx). by destruct x.
Qed.

Lemma plain_set_str (a : list pyval) :
  is_str_list a = true -> plain_set (VList a) = Ok (remove_dups a).
Proof.
  intros Ha. unfold plain_set, Py.set_of. simpl. by rewrite str_hashable.
Qed.

Lemma mapM_tuple_triples (a : list pyval) :
  is_triple_list a = true -> mapM Py.tuple a = Ok (as_tuple <$> a).
Proof.
  induction a as [|x a IH]; [done|].
  intros [Hx Ha]%andb_true_iff. cbn [mapM]. rewrite (IH Ha).
  destruct x; try discriminate. done.
Qed.

Lemma tuple_hashable (a : list pyval) :
  is_triple_list a = true -> forallb Py.hashable (as_tuple <$> a) = true.
Proof.
  induction a as [|x a IH]; [done|].
  intros [Hx Ha]%andb_true_iff. rewrite fmap_cons. cbn [forallb].
  rewrite (IH Ha), andb_true_r.
  destruct x; try discriminate. simpl in *. by apply str_hashable.
Qed.

Lemma tuple_set_triples (a : list pyval) :
  is_triple_list a = true -> tuple_set (VList a) = Ok (remove_dups (as_tuple <$> a)).
Proof.
  intros Ha. unfold tuple_set. cbn [Py.iter bind].
  rewrite (mapM_tuple_triples a Ha). cbn [bind].
  unfold Py.set_of. by rewrite tuple_hashable.
Qed.

Lemma as_tuple_inj_on (l : list pyval) :
  is_triple_list l = true -> inj_on as_tuple l.
Proof.
  unfold is_triple_list. rewrite forallb_forall. intros H x y Hx Hy.
  apply list_elem_of_In, H in Hx. apply list_elem_of_In, H in Hy.
  destruct x, y; try discriminate. simpl. congruence.
Qed.

Lemma is_triple_list_app (a b : list pyval) :
  is_triple_list a = true -> is_triple_list b = true -> is_triple_list (a ++ b) = true.
Proof. unfold is_triple_list. rewrite forallb_app. by intros -> ->. Qed.

Lemma iou_of_sets_remove_dups (a b : list pyval) :
  a <> [] ->
  iou_of_sets (remove_dups a) (remove_dups b)
  = inject_Z (Z.of_nat (card_inter a b)) / inject_Z (Z.of_nat (card_union a b)).
Proof.
  intros Ha. unfold iou_of_sets, card_inter, card_union.
  rewrite length_union_remove_dups, length_intersection_remove_dups.
  destruct (remove_dups (a ++ b)) eqn:E; [|done].
  destruct a as [|x a]; [done|].
  assert (Hx : x ∈ remove_dups ((x :: a) ++ b)).
  { apply elem_of_remove_dups. by left. }
  rewrite E in Hx. by apply elem_of_nil in Hx.
Qed.

Lemma card_inter_tuples (a b : list pyval) :
  is_triple_list a = true -> is_triple_list b = true ->
  card_inter (as_tuple <$> a) (as_tuple <$> b) = card_inter a b.
Proof.
  intros Ha Hb. unfold card_inter.
  pose proof (as_tuple_inj_on _ (is_triple_list_app a b Ha Hb)) as Hinj.
  rewrite remove_dups_fmap_inj_on.
  2:{ eapply inj_on_weaken; [|exact Hinj]. intros z Hz. apply elem_of_app. by left. }
  rewrite filter_fmap_inj_on.
  - by rewrite length_fmap.
  - eapply inj_on_weaken; [|exact Hinj].
    intros z Hz. rewrite elem_of_app, elem_of_remove_dups in Hz.
    by apply elem_of_app.
Qed.

Lemma card_union_tuples (a b : list pyval) :
  is_triple_list a = true -> is_triple_list b = true ->
  card_union (as_tuple <$> a) (as_tuple <$> b) = card_union a b.
Proof.
  intros Ha Hb. unfold card_union.
  rewrite <- fmap_app, remove_dups_fmap_inj_on, length_fmap; [done|].
  by apply as_tuple_inj_on, is_triple_list_app.
Qed.

Lemma card_inter_le_union (a b : list pyval) : (card_inter a b <= card_union a b)%nat.
Proof.
  unfold card_inter, card_union.
  apply submseteq_length, NoDup_submseteq.
  - apply NoDup_filter, NoDup_remove_dups.
  - intros x [Hx Hx']%list_elem_of_filter.
    apply elem_of_remove_dups, elem_of_app. by right.
Qed.

Lemma ratio_unit_interval (i u : nat) :
  (i <= u)%nat -> (0 < u)%nat ->
  0 <= inject_Z (Z.of_nat i) / inject_Z (Z.of_nat u) <= 1.
Proof.
  intros Hiu Hu.
  assert (Hpos : 0 < inject_Z (Z.of_nat u)).
  { change 0 with (inject_Z 0). rewrite <- Zlt_Qlt. lia. }
  split.
  - apply Qle_shift_div_l; [done|]. rewrite Qmult_0_l.
    change 0 with (inject_Z 0). rewrite <- Zle_Qle. lia.
  - apply Qle_shift_div_r; [done|]. rewrite Qmult_1_l.
    rewrite <- Zle_Qle. lia.
Qed.

Lemma iou_of_sets_unit_interval (s1 s2 : list pyval) :
  NoDup s1 -> 0 <= iou_of_sets s1 s2 <= 1.
Proof.
  intros Hs1. unfold iou_of_sets.
  destruct (0 <? length (list_union s1 s2))%nat eqn:E.
  - apply Nat.ltb_lt in E. apply ratio_unit_interval; [|done].
    by apply length_intersection_le_union.
  - split; [apply Qle_refl|discriminate].
Qed.

Lemma set_of_NoDup (l s : list pyval) : Py.set_of l = Ok s -> NoDup s.
Proof.
  unfold Py.set_of. destruct (forallb Py.hashable l); [|discriminate].
  intros [= <-]. apply NoDup_remove_dups.
Qed.

Lemma tuple_set_NoDup (v : pyval) (s : list pyval) : tuple_set v = Ok s -> NoDup s.
Proof.
  unfold tuple_set. destruct (Py.iter v); simpl; [|discriminate].
  destruct (mapM Py.tuple a); simpl; [|discriminate]. apply set_of_NoDup.
Qed.

Lemma plain_set_NoDup (v : pyval) (s : list pyval) : plain_set v = Ok s -> NoDup s.
Proof.
  unfold plain_set. destruct (Py.iter v); simpl; [|discriminate]. apply set_of_NoDup.
Qed.

(** Whatever the arguments, a score that is returned lies in [0, 1]. *)
Lemma compute_iou_unit_interval (list1 list2 : pyval) (q : Q) :
  compute_iou list1 list2 = Ok q -> 0 <= q <= 1.
Proof.
  unfold compute_iou.
  destruct (negb (Py.truthy list1) && negb (Py.truthy list2)).
  { intros [= <-]. split; [discriminate|apply Qle_refl]. }
  destruct (negb (Py.truthy list1) || negb (Py.truthy list2)).
  { intros [= <-]. split; [apply Qle_refl|discriminate]. }
  destruct (Py.getitem_int list1 0) as [first|]; simpl; [|discriminate].
  destruct (Py.is_list first).
  - destruct (tuple_set list1) as [s1|] eqn:E1; simpl; [|discriminate].
    destruct (tuple_set list2) as [s2|]; simpl; [|discriminate].
    intros [= <-]. eapply iou_of_sets_unit_interval, tuple_set_NoDup, E1.
  - destruct (plain_set list1) as [s1|] eqn:E1; simpl; [|discriminate].
    destruct (plain_set list2) as [s2|]; simpl; [|discriminate].
    intros [= <-]. eapply iou_of_sets_unit_interval, plain_set_NoDup, E1.
Qed.

Lemma compute_iou_strings (a b : list pyval) :
  is_str_list a = true -> is_str_list b = true ->
  compute_iou (VList a) (VList b) = Ok (setIoU_spec a b).
Proof.
  intros Ha Hb. unfold compute_iou.
  destruct a as [|x a], b as [|y b]; try done.
  cbn [Py.truthy negb andb orb Py.getitem_int Py.seq_get bind].
  change (Py.seq_get (x :: a) 0) with (Ok (A:=pyval) x). cbn [bind].
  assert (Py.is_list x = false) as ->.
  { simpl in Ha. apply andb_true_iff in Ha as [Hx _]. by destruct x. }
  rewrite (plain_set_str _ Ha), (plain_set_str _ Hb). cbn [bind].
  by rewrite iou_of_sets_remove_dups.
Qed.

Lemma compute_iou_triples (a b : list pyval) :
  is_triple_list a = true -> is_triple_list b = true ->
  compute_iou (VList a) (VList b) = Ok (setIoU_spec a b).
Proof.
  intros Ha Hb. unfold compute_iou.
  destruct a as [|x a], b as [|y b]; try done.
  cbn [Py.truthy negb andb orb Py.getitem_int Py.seq_get bind].
  change (Py.seq_get (x :: a) 0) with (Ok (A:=pyval) x). cbn [bind].
  assert (Py.is_list x = true) as ->.
  { simpl in Ha. apply andb_true_iff in Ha as [Hx _]. by destruct x. }
  rewrite (tuple_set_triples _ Ha), (tuple_set_triples _ Hb). cbn [bind].
  rewrite iou_of_sets_remove_dups; [|done].
  rewrite card_inter_tuples, card_union_tuples; done.
Qed.

(** C1.  On two sequences [compute_iou] returns 1 when both are empty and 0
    when exactly one is empty.  When both are non-empty and of the same
    shape (both of strings, or both of list-triples of strings) it returns
    the number of common elements divided by the number of distinct elements
    of both, elements being compared structurally; that is the
    specification's [setIoU].  Every score it returns lies in [0, 1]. *)
Theorem compute_iou_is_setIoU (a b : list pyval) :
  (a = [] -> b = [] -> compute_iou (VList a) (VList b) = Ok 1) /\
  (a = [] -> b <> [] -> compute_iou (VList a) (VList b) = Ok 0) /\
  (a <> [] -> b = [] -> compute_iou (VList a) (VList b) = Ok 0) /\
  ((is_str_list a && is_str_list b) || (is_triple_list a && is_triple_list b) = true ->
     compute_iou (VList a) (VList b) = Ok (setIoU_spec a b) /\
     (a <> [] -> b <> [] ->
        (0 < card_union a b)%nat /\
        compute_iou (VList a) (VList b)
        = Ok (inject_Z (Z.of_nat (card_inter a b))
              / inject_Z (Z.of_nat (card_union a b))))) /\
  (forall q, compute_iou (VList a) (VList b) = Ok q -> 0 <= q <= 1).
Proof.
  split; [by intros -> ->|]. split; [intros -> Hb; by destruct b|].
  split; [intros Ha ->; by destruct a|]. split.
  - intros Hshape.
    assert (Hrun : compute_iou (VList a) (VList b) = Ok (setIoU_spec a b)).
    { apply orb_true_iff in Hshape as [[Ha Hb]%andb_true_iff|[Ha Hb]%andb_true_iff].
      - by apply compute_iou_strings.
      - by apply compute_iou_triples. }
    split; [exact Hrun|]. intros Ha Hb. split.
    + unfold card_union. destruct a as [|x a]; [done|].
      destruct (remove_dups ((x :: a) ++ b)) eqn:E; [|simpl; lia].
      assert (Hx : x ∈ remove_dups ((x :: a) ++ b)).
      { apply elem_of_remove_dups. by left. }
      rewrite E in Hx. by apply elem_of_nil in Hx.
    + rewrite Hrun. by destruct a, b.
  - intros q. apply compute_iou_unit_interval.
Qed.

Lemma compute_iou_is_setIoU_witness :
  compute_iou (VList []) (VList []) = Ok 1 /\
  compute_iou (VList []) (VList [VStr "cat"]) = Ok 0 /\
  compute_iou (VList [VStr "cat"]) (VList []) = Ok 0 /\
  exists q : Q,
    compute_iou (VList [VStr "cat"; VStr "mat"; VStr "cat"]) (VList [VStr "cat"]) = Ok q /\
    q == 1 # 2 /\ 0 <= q <= 1.
Proof.
  pose proof (compute_iou_is_setIoU [] []) as (H1 & _).
  pose proof (compute_iou_is_setIoU [] [VStr "cat"]) as (_ & H2 & _).
  pose proof (compute_iou_is_setIoU [VStr "cat"] []) as (_ & _ & H3 & _).
  pose proof (compute_iou_is_setIoU [VStr "cat"; VStr "mat"; VStr "cat"] [VStr "cat"])
    as (_ & _ & _ & H4 & H5).
  split; [by apply H1|]. split; [by apply H2|]. split; [by apply H3|].
  destruct (H4 eq_refl) as [_ Hq]. destruct Hq as [_ Hq]; [done..|].
  eexists. split; [exact Hq|]. split; [reflexivity|]. by apply H5.
Defined.

(** ** [compute_iou] on sequences of different shapes *)

Lemma chars_hashable (s : string) : forallb Py.hashable (Py.chars s) = true.
Proof.
  unfold Py.chars. induction (String.list_ascii_of_string s) as [|c l IH]; [done|].
  simpl. exact IH.
Qed.

Lemma mapM_tuple_strings (b : list pyval) :
  is_str_list b = true -> mapM Py.tuple b = Ok (as_tuple <$> b).
Proof.
  induction b as [|x b IH]; [done|].
  intros [Hx Hb]%andb_true_iff. cbn [mapM]. rewrite (IH Hb).
  by destruct x.
Qed.

Lemma tuple_set_strings (b : list pyval) :
  is_str_list b = true -> tuple_set (VList b) = Ok (remove_dups (as_tuple <$> b)).
Proof.
  intros Hb. unfold tuple_set. cbn [Py.iter bind].
  rewrite (mapM_tuple_strings b Hb). cbn [bind]. unfold Py.set_of.
  assert (forallb Py.hashable (as_tuple <$> b) = true) as ->; [|done].
  induction b as [|x b IH]; [done|].
  apply andb_true_iff in Hb as [Hx Hb]. rewrite fmap_cons. cbn [forallb].
  rewrite (IH Hb), andb_true_r. destruct x; try discriminate.
  cbn [as_tuple Py.hashable]. apply chars_hashable.
Qed.

Lemma plain_set_triples_fails (b : list pyval) :
  b <> [] -> is_triple_list b = true -> plain_set (VList b) = Err TypeError.
Proof.
  intros Hne Hb. destruct b as [|y b]; [done|].
  apply andb_true_iff in Hb as [Hy _]. destruct y; try discriminate.
  reflexivity.
Qed.

(** C10.  Which conversion [compute_iou] applies depends on nothing but
    whether the first element of its first argument is a list.  On two
    non-empty sequences of different shapes it therefore either raises
    [TypeError] on an unhashable list (strings first, list-triples second)
    or returns the overlap of the triples with the tuples of characters of
    the strings (list-triples first, strings second). *)
Theorem compute_iou_mixed_shapes (a b : list pyval) :
  a <> [] -> b <> [] ->
  (forall first : pyval,
     Py.getitem_int (VList a) 0 = Ok first ->
     compute_iou (VList a) (VList b)
     = if Py.is_list first
       then (let* set1 := tuple_set (VList a) in
             let* set2 := tuple_set (VList b) in Ok (iou_of_sets set1 set2))
       else (let* set1 := plain_set (VList a) in
             let* set2 := plain_set (VList b) in Ok (iou_of_sets set1 set2))) /\
  (is_str_list a = true -> is_triple_list b = true ->
     compute_iou (VList a) (VList b) = Err TypeError) /\
  (is_triple_list a = true -> is_str_list b = true ->
     compute_iou (VList a) (VList b)
     = Ok (setIoU_spec (as_tuple <$> a) (as_tuple <$> b))).
Proof.
  intros Ha Hb. destruct a as [|x a]; [done|]. destruct b as [|y b]; [done|].
  assert (Hhead : Py.getitem_int (VList (x :: a)) 0 = Ok x) by reflexivity.
  assert (Hsel : forall first : pyval,
     Py.getitem_int (VList (x :: a)) 0 = Ok first ->
     compute_iou (VList (x :: a)) (VList (y :: b))
     = if Py.is_list first
       then (let* set1 := tuple_set (VList (x :: a)) in
             let* set2 := tuple_set (VList (y :: b)) in Ok (iou_of_sets set1 set2))
       else (let* set1 := plain_set (VList (x :: a)) in
             let* set2 := plain_set (VList (y :: b)) in Ok (iou_of_sets set1 set2))).
  { intros first Hfirst. unfold compute_iou.
    cbn [Py.truthy negb andb orb]. rewrite Hfirst. cbn [bind].
    by destruct (Py.is_list first). }
  split; [exact Hsel|]. split.
  - intros Hsa Htb. rewrite (Hsel x Hhead).
    assert (Py.is_list x = false) as ->.
    { apply andb_true_iff in Hsa as [Hx _]. by destruct x. }
    rewrite (plain_set_str _ Hsa). cbn [bind].
    by rewrite plain_set_triples_fails.
  - intros Hta Hsb. rewrite (Hsel x Hhead).
    assert (Py.is_list x = true) as ->.
    { apply andb_true_iff in Hta as [Hx _]. by destruct x. }
    rewrite (tuple_set_triples _ Hta), (tuple_set_strings _ Hsb). cbn [bind].
    by rewrite iou_of_sets_remove_dups.
Qed.

(** The triple [["a","b","c"]] and the string ["abc"] are taken for the
    same element, while swapping the arguments raises. *)
Lemma compute_iou_mixed_shapes_witness :
  compute_iou (VList [VStr "abc"]) (VList [VList [VStr "a"; VStr "b"; VStr "c"]])
    = Err TypeError /\
  exists q : Q,
    compute_iou (VList [VList [VStr "a"; VStr "b"; VStr "c"]]) (VList [VStr "abc"])
      = Ok q /\ q == 1.
Proof.
  split.
  - apply (compute_iou_mixed_shapes
             [VStr "abc"] [VList [VStr "a"; VStr "b"; VStr "c"]]);
      [discriminate|discriminate|reflexivity|reflexivity].
  - eexists. split.
    + apply (compute_iou_mixed_shapes
               [VList [VStr "a"; VStr "b"; VStr "c"]] [VStr "abc"]);
        [discriminate|discriminate|reflexivity|reflexivity].
    + reflexivity.
Defined.

(** ** The error monad *)

Lemma mapM_Forall2 {A B : Type} (f : A -> res B) (xs : list A) (ys : list B) :
  mapM f xs = Ok ys <-> Forall2 (fun x y => f x = Ok y) xs ys.
Proof.
  revert ys. induction xs as [|x xs IH]; intros ys; simpl.
  - split; [intros [= <-]; constructor|by inversion 1].
  - destruct (f x) as [y|e] eqn:Ex; simpl.
    + destruct (mapM f xs) as [ys'|e] eqn:Em; simpl.
      * split.
        -- intros [= <-]. constructor; [done|]. by apply IH.
        -- inversion 1 as [|? y' ? ys'' Hy Hys]; subst.
           apply IH in Hys. congruence.
      * split; [discriminate|].
        inversion 1 as [|? y' ? ys'' Hy Hys]; subst. apply IH in Hys. discriminate.
    + split; [discriminate|]. inversion 1; congruence.
Qed.

Lemma mapM_fails {A B : Type} (f : A -> res B) (xs : list A) (x : A) :
  x ∈ xs -> is_ok (f x) = false -> is_ok (mapM f xs) = false.
Proof.
  intros Hx Hf. destruct (mapM f xs) as [ys|e] eqn:E; [|done].
  apply mapM_Forall2 in E.
  apply list_elem_of_lookup in Hx as [i Hi].
  destruct (Forall2_lookup_l _ _ _ i x E Hi) as (y & _ & Hy).
  rewrite Hy in Hf. discriminate.
Qed.

Lemma foldM_fails {A S : Type} (f : S -> A -> res S) (xs : list A) (x : A) :
  x ∈ xs -> (forall s, is_ok (f s x) = false) ->
  forall s, is_ok (foldM f s xs) = false.
Proof.
  intros Hx Hf. induction xs as [|y xs IH]; intros s; [by apply elem_of_nil in Hx|].
  simpl. apply elem_of_cons in Hx as [<-|Hx].
  - specialize (Hf s). by destruct (f s x).
  - destruct (f s y) as [s'|e]; simpl; [by apply IH|done].
Qed.

(** ** Subscripts *)

Lemma seq_get_position {A : Type} (l : list A) (i : Z) (x : A) :
  (0 <= i)%Z -> l !! Z.to_nat i = Some x -> Py.seq_get l i = Ok x.
Proof.
  intros Hi Hx. unfold Py.seq_get.
  destruct (Z.ltb_spec i 0) as [?|_]; [lia|].
  destruct (Z.ltb_spec i 0) as [?|_]; [lia|]. by rewrite Hx.
Qed.

Lemma seq_get_from_end {A : Type} (l : list A) (i : Z) (x : A) :
  (i < 0)%Z -> (0 <= i + Z.of_nat (length l))%Z ->
  l !! Z.to_nat (i + Z.of_nat (length l)) = Some x -> Py.seq_get l i = Ok x.
Proof.
  intros Hi Hj Hx. unfold Py.seq_get.
  destruct (Z.ltb_spec i 0) as [_|?]; [|lia].
  destruct (Z.ltb_spec (i + Z.of_nat (length l)) 0) as [?|_]; [lia|]. by rewrite Hx.
Qed.

Lemma seq_get_out_of_range {A : Type} (l : list A) (i : Z) :
  ~ (- Z.of_nat (length l) <= i < Z.of_nat (length l))%Z ->
  Py.seq_get l i = Err IndexError.
Proof.
  intros Hi. unfold Py.seq_get.
  destruct (Z.ltb_spec i 0) as [Hneg|Hpos].
  - destruct (Z.ltb_spec (i + Z.of_nat (length l)) 0) as [_|?]; [done|lia].
  - destruct (Z.ltb_spec i 0) as [?|_]; [lia|].
    rewrite lookup_ge_None_2; [done|lia].
Qed.

Lemma seq_get_in_range {A : Type} (l : list A) (i : Z) :
  (- Z.of_nat (length l) <= i < Z.of_nat (length l))%Z ->
  exists x, Py.seq_get l i = Ok x /\ x ∈ l.
Proof.
  intros Hi. destruct (Z.ltb_spec i 0) as [Hneg|Hpos].
  - destruct (lookup_lt_is_Some_2 l (Z.to_nat (i + Z.of_nat (length l)))) as [x Hx];
      [lia|].
    exists x. split; [apply seq_get_from_end; (done || lia)|].
    by eapply list_elem_of_lookup_2.
  - destruct (lookup_lt_is_Some_2 l (Z.to_nat i)) as [x Hx]; [lia|].
    exists x. split; [by apply seq_get_position|].
    by eapply list_elem_of_lookup_2.
Qed.

(** ** The loader resolves relations as the specification says *)

Lemma position_getitem (objs : list pyval) (v x : pyval) :
  position objs v = Some x ->
  exists i, Py.int v = Ok i /\ Py.getitem_int (VList objs) i = Ok x.
Proof.
  unfold position. destruct (Py.int v) as [i|]; [|discriminate].
  destruct (Z.leb_spec 0 i) as [Hi|]; [|discriminate].
  intros Hx. exists i. split; [done|]. by apply seq_get_position.
Qed.

Lemma spec_triple_inv (objs : list pyval) (rel t : pyval) :
  spec_triple objs rel = Some t ->
  exists a p b subj obj,
    rel = VList [a; VStr p; b] /\ position objs a = Some subj /\
    position objs b = Some obj /\ t = VList [subj; VStr p; obj].
Proof.
  unfold spec_triple. intros H.
  repeat case_match; simplify_eq. eauto 10.
Qed.

Lemma resolve_relation_spec (objs : list pyval) (rel t : pyval) :
  spec_triple objs rel = Some t -> resolve_relation (VList objs) rel = Ok t.
Proof.
  intros (a & p & b & subj & obj & -> & Ea & Eb & ->)%spec_triple_inv.
  apply position_getitem in Ea as (i & Hi & Hs).
  apply position_getitem in Eb as (j & Hj & Ho).
  unfold resolve_relation.
  change (Py.getitem_int (VList [a; VStr p; b]) 0) with (Ok (A:=pyval) a).
  change (Py.getitem_int (VList [a; VStr p; b]) 1) with (Ok (A:=pyval) (VStr p)).
  change (Py.getitem_int (VList [a; VStr p; b]) 2) with (Ok (A:=pyval) b).
  cbn [bind]. rewrite Hi. cbn [bind]. rewrite Hj. cbn [bind].
  rewrite Hs. cbn [bind]. rewrite Ho. done.
Qed.

Lemma spec_scene_graph_resolved (objs rels sg : list pyval) :
  spec_scene_graph objs rels = Some sg ->
  mapM (resolve_relation (VList objs)) rels = Ok sg.
Proof.
  revert sg. induction rels as [|rel rels IH]; intros sg; simpl.
  - by intros [= <-].
  - destruct (spec_triple objs rel) as [t|] eqn:Et,
             (spec_scene_graph objs rels) as [ts|]; try discriminate.
    intros [= <-]. rewrite (resolve_relation_spec _ _ _ Et). simpl.
    by rewrite (IH ts).
Qed.

Lemma spec_scene_graph_predicates (objs rels sg : list pyval) :
  spec_scene_graph objs rels = Some sg ->
  exists preds, mapM (fun rel => Py.getitem_int rel 1) rels = Ok preds /\
                forallb Py.hashable preds = true.
Proof.
  revert sg. induction rels as [|rel rels IH]; intros sg; simpl.
  - intros _. by exists [].
  - destruct (spec_triple objs rel) as [t|] eqn:Et,
             (spec_scene_graph objs rels) as [ts|]; try discriminate.
    intros _. destruct (IH ts eq_refl) as (preds & -> & Hh).
    apply spec_triple_inv in Et as (a & p & b & subj & obj & -> & _ & _ & _).
    exists (VStr p :: preds). split; [done|]. simpl. exact Hh.
Qed.

Lemma load_entry_spec (data : pyval) (e : metadata_entry) (st : vocab) :
  spec_record data = Some e -> exists st', load_entry data st = Ok (e, st').
Proof.
  unfold spec_record. destruct data as [| | | | |d]; try discriminate.
  destruct (Py.assoc "file_name" d) as [fn|] eqn:Efn; [|discriminate].
  destruct (Py.assoc "caption" d) as [cap|] eqn:Ecap; [|discriminate].
  destruct (Py.assoc "objects" d) as [[| | |objs| |]|] eqn:Eobj; try discriminate.
  destruct (Py.assoc "relations" d) as [[| | |rels| |]|] eqn:Erel; try discriminate.
  destruct (is_str_list objs) eqn:Estr; [|discriminate].
  destruct (spec_scene_graph objs rels) as [sg|] eqn:Esg; [|discriminate].
  intros [= <-].
  destruct (spec_scene_graph_predicates _ _ _ Esg) as (preds & Hp & Hh).
  unfold load_entry, Py.getitem_str. rewrite Eobj, Erel, Efn, Ecap. cbn [bind Py.iter].
  rewrite (spec_scene_graph_resolved _ _ _ Esg). cbn [bind].
  unfold set_update. rewrite (str_hashable _ Estr). cbn [bind].
  rewrite Hp. cbn [bind]. rewrite Hh. cbn [bind]. eauto.
Qed.

Section LoaderProperties.
Variable json_loads : string -> option pyval.

Lemma load_line_blank (acc : list metadata_entry * vocab) (line : string) :
  nonblank line = false -> load_line json_loads acc line = Ok acc.
Proof. unfold load_line, nonblank. by intros ->. Qed.

Lemma load_lines_sound (lines : list string) :
  forall acc st out st',
    foldM (load_line json_loads) (acc, st) lines = Ok (out, st') ->
    exists recs, out = acc ++ recs /\
      Forall2 (loaded_from json_loads) (filter (fun l => nonblank l = true) lines) recs.
Proof.
  induction lines as [|line lines IH]; intros acc st out st'; simpl.
  - intros [= <- <-]. exists []. split; [by rewrite app_nil_r|constructor].
  - rewrite filter_cons. destruct (nonblank line) eqn:Enb.
    + unfold load_line at 1. unfold nonblank in Enb. rewrite Enb.
      unfold loads. destruct (json_loads line) as [data|] eqn:Ed; [|discriminate].
      cbn [bind fst snd].
      destruct (load_entry data st) as [[e st1]|] eqn:Ee; [|discriminate].
      cbn [bind fst snd]. intros Hrest.
      destruct (IH _ _ _ _ Hrest) as (recs & -> & Hrecs).
      exists (e :: recs). split; [by rewrite <- app_assoc|].
      rewrite decide_True by done. constructor; [|done].
      by exists data, st, st1.
    + rewrite load_line_blank by done. cbn [bind]. intros Hrest.
      destruct (IH _ _ _ _ Hrest) as (recs & -> & Hrecs).
      exists recs. split; [done|]. by rewrite decide_False by done.
Qed.

Lemma load_lines_complete (lines : list string) :
  Forall (fun line => nonblank line = true -> is_Some (spec_line json_loads line)) lines ->
  forall acc st,
    exists recs st',
      foldM (load_line json_loads) (acc, st) lines = Ok (acc ++ recs, st') /\
      Forall2 (fun line e => spec_line json_loads line = Some e)
              (filter (fun l => nonblank l = true) lines) recs.
Proof.
  induction 1 as [|line lines Hline _ IH]; intros acc st; simpl.
  - exists [], st. split; [by rewrite app_nil_r|constructor].
  - rewrite filter_cons. destruct (nonblank line) eqn:Enb.
    + destruct (Hline eq_refl) as [e He].
      unfold spec_line in He.
      destruct (json_loads line) as [data|] eqn:Ed; [|discriminate].
      simpl in He. destruct (load_entry_spec data e st He) as [st1 Hst1].
      unfold load_line at 1. unfold nonblank in Enb. rewrite Enb.
      unfold loads. rewrite Ed. cbn [bind fst snd]. rewrite Hst1. cbn [bind fst snd].
      destruct (IH (acc ++ [e]) st1) as (recs & st' & Hrun & Hrecs).
      exists (e :: recs), st'. split.
      * rewrite Hrun. by rewrite <- app_assoc.
      * rewrite decide_True by done. constructor; [|done].
        unfold spec_line. by rewrite Ed.
    + rewrite load_line_blank by done. cbn [bind].
      destruct (IH acc st) as (recs & st' & Hrun & Hrecs).
      exists recs, st'. split; [done|]. by rewrite decide_False by done.
Qed.
End LoaderProperties.

Lemma resolve_relation_names (objects rel t : pyval) :
  resolve_relation objects rel = Ok t -> names_relation objects rel t.
Proof.
  unfold resolve_relation, names_relation.
  destruct (Py.getitem_int rel 0) as [a|] eqn:E0; [|discriminate]. cbn [bind].
  destruct (Py.int a) as [i|] eqn:Ei; [|discriminate]. cbn [bind].
  destruct (Py.getitem_int rel 1) as [pred|] eqn:E1; [|discriminate]. cbn [bind].
  destruct (Py.getitem_int rel 2) as [b|] eqn:E2; [|discriminate]. cbn [bind].
  destruct (Py.int b) as [j|] eqn:Ej; [|discriminate]. cbn [bind].
  destruct (Py.getitem_int objects i) as [subj|] eqn:Es; [|discriminate]. cbn [bind].
  destruct (Py.getitem_int objects j) as [obj|] eqn:Eo; [|discriminate]. cbn [bind].
  intros [= <-]. exists a, b, i, j, subj, pred, obj. by repeat split.
Qed.

Lemma load_entry_resolved (data : pyval) (st st' : vocab) (e : metadata_entry) :
  load_entry data st = Ok (e, st') -> resolved_entry e.
Proof.
  unfold load_entry.
  destruct (Py.getitem_str data "objects") as [objs|]; [|discriminate]. cbn [bind].
  destruct (Py.getitem_str data "relations") as [rels_v|]; [|discriminate]. cbn [bind].
  destruct (Py.iter rels_v) as [rels|] eqn:Ei; [|discriminate]. cbn [bind].
  destruct (mapM (resolve_relation objs) rels) as [sg|] eqn:Em; [|discriminate].
  cbn [bind].
  destruct (Py.getitem_str data "file_name") as [fn|]; [|discriminate]. cbn [bind].
  destruct (Py.getitem_str data "caption") as [cap|]; [|discriminate]. cbn [bind].
  destruct (Py.iter objs) as [os|]; [|discriminate]. cbn [bind].
  destruct (set_update (object_list st) os) as [ol|]; [|discriminate]. cbn [bind].
  destruct (mapM (fun rel => Py.getitem_int rel 1) rels) as [ps|]; [|discriminate].
  cbn [bind].
  destruct (set_update (predicate_list st) ps) as [pl|]; [|discriminate]. cbn [bind].
  intros [= <- <-]. exists rels. split; [exact Ei|]. cbn.
  apply mapM_Forall2 in Em. eapply Forall2_impl; [exact Em|].
  intros rel t. apply resolve_relation_names.
Qed.

(** C8.  A load that returns gives one record per non-blank line, in line
    order, and the scene graph of each record names the relations of its
    line; on lines that follow the metadata schema the load does return, with
    the records the specification describes.  The scenario line loads to the
    scene graph [("cat","on","mat")], found under scene id 0. *)
Theorem load_metadata_records (json_loads : string -> option pyval)
    (lines : list string) (st : vocab) :
  (forall records st',
     load_metadata json_loads lines st = Ok (records, st') ->
     Forall2 (loaded_from json_loads)
             (filter (fun l => nonblank l = true) lines) records /\
     Forall resolved_entry records) /\
  (Forall (fun line => nonblank line = true -> is_Some (spec_line json_loads line))
          lines ->
   exists records st',
     load_metadata json_loads lines st = Ok (records, st') /\
     Forall2 (fun line e => spec_line json_loads line = Some e)
             (filter (fun l => nonblank l = true) lines) records) /\
  (exists e st',
     load_metadata MiniJson.loads [scenario_line] empty_vocab = Ok ([e], st') /\
     scene_graph e = [VList [VStr "cat"; VStr "on"; VStr "mat"]] /\
     matching_meta [e] (Some 0%Z) = Some (0%Z, e)).
Proof.
  split; [|split].
  - intros records st' Hrun. unfold load_metadata in Hrun.
    destruct (load_lines_sound json_loads lines [] st records st' Hrun)
      as (recs & -> & Hrecs).
    split; [exact Hrecs|].
    clear Hrun. induction Hrecs as [|line e ls es (data & s1 & s2 & _ & He) _ IH];
      constructor; [|exact IH].
    by eapply load_entry_resolved.
  - intros Hwf.
    destruct (load_lines_complete json_loads lines Hwf [] st)
      as (recs & st' & Hrun & Hrecs).
    exists recs, st'. split; [exact Hrun|exact Hrecs].
  - eexists. eexists. split; [vm_compute; reflexivity|]. split; reflexivity.
Qed.

Lemma load_metadata_records_witness :
  exists records st',
    load_metadata MiniJson.loads [scenario_line; " "; scenario_line] empty_vocab
      = Ok (records, st') /\
    Forall2 (fun line e => spec_line MiniJson.loads line = Some e)
            [scenario_line; scenario_line] records.
Proof.
  apply (proj1 (proj2 (load_metadata_records MiniJson.loads
                         [scenario_line; " "; scenario_line] empty_vocab))).
  repeat (apply Forall_cons_2 || apply Forall_nil_2); intros Hline.
  - vm_compute. eexists. reflexivity.
  - vm_compute in Hline. discriminate Hline.
  - vm_compute. eexists. reflexivity.
Defined.

(** ** Relation indices outside the objects *)

Lemma resolve_relation_fails (objs : list pyval) (rel : pyval) (i : Z) :
  relation_index rel i -> ~ python_index objs i ->
  is_ok (resolve_relation (VList objs) rel) = false.
Proof.
  intros Hidx Hout. unfold resolve_relation.
  destruct (Py.getitem_int rel 0) as [a|] eqn:E0; [|done]. cbn [bind].
  destruct (Py.int a) as [si|] eqn:Ei; [|done]. cbn [bind].
  destruct (Py.getitem_int rel 1) as [pred|] eqn:E1; [|done]. cbn [bind].
  destruct (Py.getitem_int rel 2) as [b|] eqn:E2; [|done]. cbn [bind].
  destruct (Py.int b) as [oi|] eqn:Ej; [|done]. cbn [bind].
  cbn [Py.getitem_int].
  destruct Hidx as [(v & Hv & Hi)|(v & Hv & Hi)].
  - assert (si = i) as -> by congruence.
    by rewrite (seq_get_out_of_range objs i Hout).
  - assert (oi = i) as -> by congruence.
    destruct (Py.seq_get objs si); [|done]. cbn [bind].
    by rewrite (seq_get_out_of_range objs i Hout).
Qed.

Lemma load_line_fails (json_loads : string -> option pyval)
    (line : string) (objs : list pyval) (i : Z) :
  line_has_index json_loads line objs i -> ~ python_index objs i ->
  forall acc, is_ok (load_line json_loads acc line) = false.
Proof.
  intros (Hnb & data & rels_v & rels & rel & Hd & Ho & Hr & Hi & Hin & Hidx) Hout acc.
  unfold load_line. unfold nonblank in Hnb. rewrite Hnb.
  unfold loads. rewrite Hd. cbn [bind].
  unfold load_entry. rewrite Ho. cbn [bind]. rewrite Hr. cbn [bind].
  rewrite Hi. cbn [bind].
  pose proof (mapM_fails (resolve_relation (VList objs)) rels rel Hin
                (resolve_relation_fails objs rel i Hidx Hout)) as Hfail.
  by destruct (mapM (resolve_relation (VList objs)) rels).
Qed.

(** C3, as the code has it.  A file with a relation whose subject or
    object index lies outside [-len(objects), len(objects)) does not load:
    the subscript raises.  An index inside that range is accepted; when it
    is negative it selects an element counted from the end of [objects]. *)
Theorem load_metadata_rejects_out_of_range
    (json_loads : string -> option pyval) (lines : list string) (st : vocab)
    (line : string) (objs : list pyval) (i : Z) :
  line ∈ lines ->
  line_has_index json_loads line objs i ->
  (~ python_index objs i ->
     exists e, load_metadata json_loads lines st = Err e) /\
  (python_index objs i ->
     exists x, Py.getitem_int (VList objs) i = Ok x /\ x ∈ objs /\
       ((i < 0)%Z -> objs !! Z.to_nat (i + Z.of_nat (length objs)) = Some x)).
Proof.
  intros Hin Hline. split.
  - intros Hout.
    pose proof (foldM_fails (load_line json_loads) lines line Hin
                  (load_line_fails json_loads line objs i Hline Hout) ([], st)) as H.
    unfold load_metadata. destruct (foldM _ _ lines) as [?|e]; [discriminate|].
    by exists e.
  - intros Hrange. destruct (seq_get_in_range objs i Hrange) as (x & Hx & Hmem).
    exists x. split; [exact Hx|]. split; [exact Hmem|].
    intros Hneg.
    destruct (lookup_lt_is_Some_2 objs (Z.to_nat (i + Z.of_nat (length objs))))
      as [y Hy]; [unfold python_index in Hrange; lia|].
    rewrite Hy. f_equal.
    assert (Hy' : Py.seq_get objs i = Ok y).
    { apply seq_get_from_end; [done| |done]. unfold python_index in Hrange. lia. }
    cbn [Py.getitem_int] in Hx. congruence.
Qed.

Lemma large_index_line_has_index :
  line_has_index MiniJson.loads large_index_line [VStr "cat"; VStr "mat"] 2.
Proof.
  split; [reflexivity|].
  exists (VDict [("file_name", VStr "a"); ("caption", VStr "c");
                 ("objects", VList [VStr "cat"; VStr "mat"]);
                 ("relations", VList [VList [VInt 0; VStr "on"; VInt 2]])]),
         (VList [VList [VInt 0; VStr "on"; VInt 2]]),
         [VList [VInt 0; VStr "on"; VInt 2]],
         (VList [VInt 0; VStr "on"; VInt 2]).
  split; [reflexivity|]. split; [reflexivity|]. split; [reflexivity|].
  split; [reflexivity|]. split; [apply list_elem_of_here|].
  right. exists (VInt 2). split; reflexivity.
Defined.

Lemma load_metadata_rejects_out_of_range_witness :
  exists e,
    load_metadata MiniJson.loads [scenario_line; large_index_line] empty_vocab = Err e.
Proof.
  apply (load_metadata_rejects_out_of_range MiniJson.loads
           [scenario_line; large_index_line] empty_vocab
           large_index_line [VStr "cat"; VStr "mat"] 2).
  - apply list_elem_of_further, list_elem_of_here.
  - exact large_index_line_has_index.
  - unfold python_index. simpl. lia.
Defined.

Lemma negative_index_line_has_index :
  line_has_index MiniJson.loads negative_index_line [VStr "cat"; VStr "mat"] (-1).
Proof.
  split; [reflexivity|].
  exists (VDict [("file_name", VStr "a"); ("caption", VStr "c");
                 ("objects", VList [VStr "cat"; VStr "mat"]);
                 ("relations", VList [VList [VInt (-1); VStr "on"; VInt 0]])]),
         (VList [VList [VInt (-1); VStr "on"; VInt 0]]),
         [VList [VInt (-1); VStr "on"; VInt 0]],
         (VList [VInt (-1); VStr "on"; VInt 0]).
  split; [reflexivity|]. split; [reflexivity|]. split; [reflexivity|].
  split; [reflexivity|]. split; [apply list_elem_of_here|].
  left. exists (VInt (-1)). split; reflexivity.
Defined.

(** The line with subject index [-1] is not rejected: it loads, and its
    scene graph is [("mat","on","cat")]. *)
Lemma negative_index_loads :
  exists e st',
    load_metadata MiniJson.loads [negative_index_line] empty_vocab = Ok ([e], st') /\
    scene_graph e = [VList [VStr "mat"; VStr "on"; VStr "cat"]].
Proof. eexists. eexists. split; [vm_compute; reflexivity|reflexivity]. Qed.

Lemma rejects_invalid_indices_fails : ~ rejects_invalid_indices.
Proof.
  intros Hclaim.
  specialize (Hclaim MiniJson.loads [negative_index_line] empty_vocab
                negative_index_line [VStr "cat"; VStr "mat"] (-1)%Z
                (list_elem_of_here _ _) negative_index_line_has_index).
  destruct negative_index_loads as (e & st' & Hrun & _).
  rewrite Hrun in Hclaim. simpl in Hclaim.
  assert (Hinv : ~ valid_index [VStr "cat"; VStr "mat"] (-1)).
  { unfold valid_index. lia. }
  specialize (Hclaim Hinv). discriminate Hclaim.
Qed.

(** ** Strings *)

Lemma append_nil_r (s : string) : s +:+ EmptyString = s.
Proof. induction s as [|c s IH]; [done|]. change (String c (s +:+ EmptyString) = String c s). by rewrite IH. Qed.

Lemma rev_app_append (s t u : string) :
  String.rev_app s t +:+ u = String.rev_app s (t +:+ u).
Proof. revert t. induction s as [|c s IH]; intros t; [done|]. simpl. by rewrite IH. Qed.

Lemma rev_app_rev_app (s t u : string) :
  String.rev_app (String.rev_app s t) u = String.rev_app t (s +:+ u).
Proof.
  revert t. induction s as [|c s IH]; intros t; [done|].
  simpl. by rewrite IH.
Qed.

Lemma rev_involutive (s : string) : String.rev (String.rev s) = s.
Proof. unfold String.rev. rewrite rev_app_rev_app. simpl. apply append_nil_r. Qed.

Lemma all_digits_rev_app (s t : string) :
  Py.all_digits (String.rev_app s t) = Py.all_digits s && Py.all_digits t.
Proof.
  revert t. induction s as [|c s IH]; intros t; [done|].
  simpl. rewrite IH. simpl. by destruct (Py.is_digit c), (Py.all_digits s).
Qed.

Lemma digit_not_space (c : ascii) : Py.is_digit c = true -> Py.is_int_space c = false.
Proof. destruct c as [[] [] [] [] [] [] [] []]; done. Qed.

Lemma int_lskip_digits (s : string) : Py.all_digits s = true -> Py.int_lskip s = s.
Proof.
  destruct s as [|c s]; [done|]. simpl. intros [Hc _]%andb_true_iff.
  by rewrite (digit_not_space c Hc).
Qed.

Lemma int_skip_digits (s : string) : Py.all_digits s = true -> Py.int_skip s = s.
Proof.
  intros Hs. unfold Py.int_skip. rewrite (int_lskip_digits s Hs).
  rewrite int_lskip_digits; [apply rev_involutive|].
  unfold String.rev. rewrite all_digits_rev_app. by rewrite Hs.
Qed.

Lemma int_digits_all (s : string) (acc : Z) (prev : bool) :
  Py.all_digits s = true -> s <> EmptyString \/ prev = true ->
  Py.int_digits acc prev s = Some (decimal_from acc s).
Proof.
  revert acc prev. induction s as [|c s IH]; intros acc prev Hs Hne.
  - destruct Hne as [Hne| ->]; done.
  - simpl in *. apply andb_true_iff in Hs as [Hc Hs]. rewrite Hc.
    apply IH; [done|by right].
Qed.

Lemma count_digits_all (s : string) :
  Py.all_digits s = true -> Py.count_digits s = Z.of_nat (String.length s).
Proof.
  induction s as [|c s IH]; [done|]. cbn [Py.all_digits Py.count_digits String.length].
  intros [Hc Hs]%andb_true_iff. rewrite Hc, (IH Hs). lia.
Qed.

Lemma int_of_str_digits (s : string) :
  Py.isdigit s = true ->
  Py.int_of_str s
  = if within_digit_limit s then Ok (decimal s) else Err ValueError.
Proof.
  intros Hs. destruct s as [|c s]; [done|]. cbn [Py.isdigit] in Hs.
  unfold Py.int_of_str, within_digit_limit. rewrite int_skip_digits by done.
  assert (Hrun : Py.int_digits 0 false (String c s) = Some (decimal (String c s))).
  { apply int_digits_all; [done|by left]. }
  rewrite <- (count_digits_all _ Hs).
  cbn [Py.all_digits] in Hs. apply andb_true_iff in Hs as [Hc _].
  destruct c as [[] [] [] [] [] [] [] []]; try discriminate Hc; by rewrite Hrun.
Qed.

(** [str.strip] removes a file separator (character 28) that [int] does
    not skip: the string made of that character and a digit is not blank,
    strips to the digit, and is refused by [int]. *)
Lemma int_of_str_separator :
  Py.strip (String "028" "0") = "0" /\
  Py.int_of_str (String "028" "0") = Err ValueError /\
  Py.int_of_str (String " " "0") = Ok 0%Z.
Proof. repeat split. Qed.

Lemma decimal_from_nonneg (s : string) (acc : Z) :
  Py.all_digits s = true -> (0 <= acc)%Z -> (0 <= decimal_from acc s)%Z.
Proof.
  revert acc. induction s as [|c s IH]; intros acc Hs Hacc; [done|].
  simpl in *. apply andb_true_iff in Hs as [Hc Hs]. apply IH; [done|].
  assert (0 <= Py.digit_val c)%Z; [|lia].
  destruct c as [[] [] [] [] [] [] [] []]; try discriminate Hc; by vm_compute.
Qed.

Lemma split_underscore_head (s cur : string) :
  exists rest,
    Py.split_go "_" 0 cur s = (String.rev cur +:+ before_underscore s) :: rest.
Proof.
  revert cur. induction s as [|c s IH]; intros cur.
  - exists []. simpl. by rewrite append_nil_r.
  - cbn [Py.split_go before_underscore String.prefix].
    destruct (Ascii.eqb_spec c "_") as [->|Hc].
    + destruct (ascii_dec "_" "_") as [_|?]; [|done].
      assert (String.prefix EmptyString s = true) as -> by (by destruct s).
      eexists. by rewrite append_nil_r.
    + destruct (ascii_dec "_" c) as [<-|_]; [done|].
      destruct (IH (String c cur)) as [rest ->]. exists rest. f_equal.
      unfold String.rev. simpl. by rewrite !rev_app_append.
Qed.

Lemma scene_idx_of_spec (base_name : string) :
  scene_idx_of base_name
  = let segment := before_underscore (Py.splitext_root base_name) in
    if Py.isdigit segment && within_digit_limit segment
    then Some (decimal segment) else None.
Proof.
  unfold scene_idx_of, Py.split.
  destruct (split_underscore_head (Py.splitext_root base_name) EmptyString)
    as [rest ->].
  change (String.rev EmptyString +:+ ?x) with x. cbn zeta.
  destruct (Py.isdigit _) eqn:Ed; [|done]. rewrite int_of_str_digits by done.
  by destruct (within_digit_limit _).
Qed.

Lemma scene_idx_of_digits (base_name : string) (i : Z) :
  scene_idx_of base_name = Some i ->
  let segment := before_underscore (Py.splitext_root base_name) in
  Py.isdigit segment = true /\ within_digit_limit segment = true /\
  i = decimal segment.
Proof.
  rewrite scene_idx_of_spec. cbn zeta.
  destruct (Py.isdigit _); [|discriminate].
  destruct (within_digit_limit _); [|discriminate]. by intros [= <-].
Qed.

Lemma scene_idx_of_nonneg (base_name : string) (i : Z) :
  scene_idx_of base_name = Some i -> (0 <= i)%Z.
Proof.
  intros (Ed & _ & ->)%scene_idx_of_digits.
  apply decimal_from_nonneg; [|done].
  destruct (before_underscore _); [discriminate|exact Ed].
Qed.

(** ** Matching an image to its metadata entry *)

Section EvaluationProperties.
Variable json_loads : string -> option pyval.
Variable oracle : vocab -> string -> option string.

Lemma matching_meta_in_range (metadata_list : list metadata_entry) (i : Z) :
  (0 <= i < Z.of_nat (length metadata_list))%Z ->
  exists meta, metadata_list !! Z.to_nat i = Some meta /\
               matching_meta metadata_list (Some i) = Some (i, meta).
Proof.
  intros Hi. destruct (lookup_lt_is_Some_2 metadata_list (Z.to_nat i)) as [meta Hm];
    [lia|].
  exists meta. split; [done|]. unfold matching_meta.
  destruct (Z.ltb_spec i (Z.of_nat (length metadata_list))); [|lia].
  by rewrite (seq_get_position metadata_list i meta) by (done || lia).
Qed.

Lemma matching_meta_out_of_range (metadata_list : list metadata_entry) (i : Z) :
  (Z.of_nat (length metadata_list) <= i)%Z ->
  matching_meta metadata_list (Some i) = None.
Proof.
  intros Hi. unfold matching_meta.
  destruct (Z.ltb_spec i (Z.of_nat (length metadata_list))); [lia|done].
Qed.

(** *** The extension of a file name *)

Lemma lacks_cons (c a : ascii) (s : string) :
  lacks c (String a s) = negb (Ascii.eqb c a) && lacks c s.
Proof. unfold lacks. cbn. by rewrite negb_orb. Qed.

Lemma rfind_go_lacks (c : ascii) (s : string) (i last : Z) :
  lacks c s = true -> Py.rfind_go c s i last = last.
Proof.
  revert i last. induction s as [|a s IH]; intros i last; [done|].
  rewrite lacks_cons. intros [Ha Hs]%andb_true_iff. cbn [Py.rfind_go].
  rewrite Ascii.eqb_sym. apply negb_true_iff in Ha. rewrite Ha. by apply IH.
Qed.

Lemma rfind_go_append (c : ascii) (s t : string) (i last : Z) :
  Py.rfind_go c (s +:+ t) i last
  = Py.rfind_go c t (i + Z.of_nat (String.length s)) (Py.rfind_go c s i last).
Proof.
  revert i last. induction s as [|a s IH]; intros i last.
  - cbn. by rewrite Z.add_0_r.
  - change (String a s +:+ t) with (String a (s +:+ t)).
    cbn [Py.rfind_go String.length]. rewrite IH. f_equal. lia.
Qed.

Lemma take_append (s t : string) : Py.take (String.length s) (s +:+ t) = s.
Proof.
  induction s as [|a s IH]; [by destruct t|].
  change (String a s +:+ t) with (String a (s +:+ t)).
  cbn [String.length Py.take]. by rewrite IH.
Qed.

Lemma length_take_le (n : nat) (s : string) :
  (String.length (Py.take n s) <= String.length s)%nat.
Proof.
  revert s. induction n as [|n IH]; intros [|a s]; cbn; try lia.
  specialize (IH s). lia.
Qed.

Lemma length_before_underscore_le (s : string) :
  (String.length (before_underscore s) <= String.length s)%nat.
Proof.
  induction s as [|a s IH]; [done|]. cbn.
  destruct (Ascii.eqb a "_"); cbn; lia.
Qed.

Lemma length_splitext_root_le (p : string) :
  (String.length (Py.splitext_root p) <= String.length p)%nat.
Proof.
  unfold Py.splitext_root. destruct (Z.ltb _ _); [|done].
  destruct (forallb _ _); [done|]. apply length_take_le.
Qed.

(** [os.path.splitext] on a name with an extension: what precedes the last
    dot is kept, whatever follows it is dropped. *)
Lemma splitext_root_extension (stem ext : string) :
  lacks "/" stem = true -> all_dots stem = false ->
  lacks "." ext = true -> lacks "/" ext = true ->
  Py.splitext_root (stem +:+ String "." ext) = stem.
Proof.
  intros Hsep Hdots Hext Hsep'. unfold Py.splitext_root, Py.rfind.
  rewrite !rfind_go_append. cbn [Py.rfind_go].
  rewrite (rfind_go_lacks "/" stem), (rfind_go_lacks "/" ext) by done.
  rewrite (rfind_go_lacks "." ext) by done.
  change (Ascii.eqb "." "/") with false. change (Ascii.eqb "." ".") with true.
  cbn match. rewrite Z.add_0_l.
  destruct (Z.ltb_spec (-1) (Z.of_nat (String.length stem))) as [_|?]; [|lia].
  change (-1 + 1)%Z with 0%Z. change (Z.to_nat 0) with 0%nat.
  change (Py.drop 0 ?x) with x. rewrite Z.sub_0_r, Nat2Z.id, take_append.
  unfold all_dots in Hdots. by rewrite Hdots.
Qed.

(** C4.  The scene id of an image is read off its base name.  The
    extension is dropped: what follows the last dot of the name goes, what
    precedes it stays.  The segment left of the first underscore is taken,
    and when that segment is a non-empty run of decimal digits its value is
    the scene id; otherwise there is none.  (A run of more than 4300 digits,
    longer than any file name, is refused by [int] and gives none either.)
    Without a scene id, or with one that is not below the number of
    records, the image is skipped: the skip counter goes up and nothing is
    scored.  Otherwise the image is scored against the record at that
    position.  ["000_002.png"] has scene id 0, ["014.png"] has 14 and
    ["foo.png"] has none. *)
Theorem image_scene_resolution (st : vocab) (metadata_list : list metadata_entry)
    (s : loop_state) (img_path : string) :
  let base_name := Py.basename img_path in
  let segment := before_underscore (Py.splitext_root base_name) in
  let numRecords := Z.of_nat (length metadata_list) in
  let is_id := Py.isdigit segment && within_digit_limit segment in
  (forall stem ext,
     lacks "/" stem = true -> all_dots stem = false ->
     lacks "." ext = true -> lacks "/" ext = true ->
     Py.splitext_root (stem +:+ String "." ext) = stem /\
     (Py.isdigit stem = true -> within_digit_limit stem = true ->
      scene_idx_of (stem +:+ String "." ext) = Some (decimal stem))) /\
  ((String.length base_name <= 4300)%nat -> is_id = Py.isdigit segment) /\
  scene_idx_of base_name = (if is_id then Some (decimal segment) else None) /\
  (is_id = false \/ ~ (0 <= decimal segment < numRecords)%Z ->
     evaluate_step json_loads oracle st metadata_list s img_path
       = Ok (skip_image s) /\
     results (skip_image s) = results s /\
     skipped (skip_image s) = S (skipped s) /\
     evaluated (skip_image s) = evaluated s) /\
  (is_id = true -> (0 <= decimal segment < numRecords)%Z ->
     exists meta,
       metadata_list !! Z.to_nat (decimal segment) = Some meta /\
       evaluate_step json_loads oracle st metadata_list s img_path
         = (let* m := evaluate_image json_loads oracle st img_path (scene_graph meta) in
            Ok (record_image s base_name (decimal segment) meta m))) /\
  scene_idx_of "000_002.png" = Some 0%Z /\
  scene_idx_of "014.png" = Some 14%Z /\
  scene_idx_of "foo.png" = None.
Proof.
  intros base_name segment numRecords is_id.
  pose proof (scene_idx_of_spec base_name) as Hidx. cbn zeta in Hidx.
  fold segment in Hidx. fold is_id in Hidx.
  split; [|split; [|split; [exact Hidx|split; [|split; [|repeat split]]]]].
  - intros stem ext Hsep Hdots Hext Hsep'.
    pose proof (splitext_root_extension stem ext Hsep Hdots Hext Hsep') as Hroot.
    split; [exact Hroot|]. intros Hd Hlim.
    rewrite scene_idx_of_spec. cbn zeta. rewrite Hroot.
    assert (Hseg : before_underscore stem = stem).
    { destruct stem as [|c stem]; [done|]. cbn [Py.isdigit] in Hd. clear -Hd.
      revert Hd. generalize (String c stem). intros t.
      induction t as [|a t IH]; [done|]. cbn [Py.all_digits before_underscore].
      intros [Ha Ht]%andb_true_iff. rewrite (IH Ht).
      by destruct a as [[] [] [] [] [] [] [] []]; try discriminate Ha. }
    by rewrite Hseg, Hd, Hlim.
  - intros Hlen. unfold is_id, within_digit_limit.
    pose proof (length_before_underscore_le (Py.splitext_root base_name)) as H1.
    pose proof (length_splitext_root_le base_name) as H2. fold segment in H1.
    destruct (Z.leb_spec (Z.of_nat (String.length segment)) Py.max_str_digits) as [_|Hgt].
    + apply andb_true_r.
    + unfold Py.max_str_digits in Hgt. lia.
  - intros Hskip. split; [|done].
    unfold evaluate_step. fold base_name. rewrite Hidx.
    destruct is_id eqn:Ed; [|done].
    destruct Hskip as [?|Hout]; [done|].
    rewrite matching_meta_out_of_range; [done|].
    assert (0 <= decimal segment)%Z; [|unfold numRecords in Hout; lia].
    apply (scene_idx_of_nonneg base_name). by rewrite Hidx.
  - intros Hd Hin.
    destruct (matching_meta_in_range metadata_list (decimal segment) Hin)
      as (meta & Hmeta & Hmatch).
    exists meta. split; [exact Hmeta|].
    unfold evaluate_step. fold base_name. rewrite Hidx, Hd, Hmatch.
    reflexivity.
Qed.
End EvaluationProperties.

Lemma image_scene_resolution_witness :
  Py.splitext_root "000.png" = "000" /\
  scene_idx_of "000.png" = Some 0%Z /\
  evaluate_step MiniJson.loads failing_oracle empty_vocab [scenario_entry]
      loop_init "out/foo.png"
    = Ok (skip_image loop_init) /\
  evaluate_step MiniJson.loads failing_oracle empty_vocab [scenario_entry]
      loop_init "out/007.png"
    = Ok (skip_image loop_init) /\
  exists meta,
    [scenario_entry] !! 0%nat = Some meta /\
    evaluate_step MiniJson.loads failing_oracle empty_vocab [scenario_entry]
        loop_init "out/000.png"
      = (let* m := evaluate_image MiniJson.loads failing_oracle empty_vocab
                     "out/000.png" (scene_graph meta) in
         Ok (record_image loop_init "000.png" 0 meta m)).
Proof.
  destruct (image_scene_resolution MiniJson.loads failing_oracle empty_vocab
              [scenario_entry] loop_init "out/000.png")
    as (Hext & _ & _ & _ & Hscore & _).
  destruct (Hext "000" "png") as [Hroot Hid]; try reflexivity.
  split; [exact Hroot|]. split; [apply Hid; reflexivity|].
  split; [|split].
  - apply (image_scene_resolution MiniJson.loads failing_oracle empty_vocab
             [scenario_entry] loop_init "out/foo.png").
    left. reflexivity.
  - apply (image_scene_resolution MiniJson.loads failing_oracle empty_vocab
             [scenario_entry] loop_init "out/007.png").
    right. vm_compute. intros [_ H]. discriminate H.
  - apply Hscore.
    + reflexivity.
    + vm_compute. split; [discriminate|reflexivity].
Defined.

(** ** The three scores of an image *)

Lemma remove_dups_NoDup_id {A : Type} `{EqDecision A} (l : list A) :
  NoDup l -> remove_dups l = l.
Proof.
  induction 1 as [|x l Hx _ IH]; [done|].
  simpl. rewrite IH. by destruct (decide_rel elem_of x l).
Qed.

Lemma setIoU_spec_remove_dups (a b : list pyval) :
  setIoU_spec (remove_dups a) b = setIoU_spec a b.
Proof.
  assert (Hi : card_inter (remove_dups a) b = card_inter a b).
  { unfold card_inter. by rewrite (remove_dups_NoDup_id (remove_dups a))
      by apply NoDup_remove_dups. }
  assert (Hu : card_union (remove_dups a) b = card_union a b).
  { unfold card_union. apply Permutation_length, NoDup_Permutation;
      try apply NoDup_remove_dups.
    intros x. rewrite !elem_of_remove_dups, !elem_of_app, elem_of_remove_dups. tauto. }
  destruct a as [|x a]; [done|].
  destruct (remove_dups (x :: a)) as [|y r] eqn:E.
  { assert (Hx : x ∈ remove_dups (x :: a)) by (apply elem_of_remove_dups; by left).
    rewrite E in Hx. by apply elem_of_nil in Hx. }
  destruct b as [|z b]; [done|]. unfold setIoU_spec. by rewrite Hi, Hu.
Qed.

Lemma column_graph (i : nat) (g : list pyval) :
  is_graph g = true -> (i < 3)%nat ->
  column (Z.of_nat i) g = Ok (component i <$> g) /\
  is_str_list (component i <$> g) = true.
Proof.
  intros Hg Hi. unfold column. induction g as [|t g IH]; [done|].
  apply andb_true_iff in Hg as [Ht Hg]. destruct (IH Hg) as [IH1 IH2].
  cbn [mapM]. rewrite IH1. rewrite fmap_cons. cbn [is_str_list forallb].
  fold (is_str_list (component i <$> g)). rewrite IH2.
  destruct t as [| | |[|[| |s1| | |] [|[| |s2| | |] [|[| |s3| | |] [|? ?]]]]| |];
    try discriminate Ht.
  destruct i as [|[|[|i]]]; [done..|lia].
Qed.

Lemma graph_is_triple_list (g : list pyval) :
  is_graph g = true -> is_triple_list g = true.
Proof.
  unfold is_graph, is_triple_list. rewrite !forallb_forall. intros H t Ht.
  specialize (H t Ht).
  destruct t as [| | |[|[| |s1| | |] [|[| |s2| | |] [|[| |s3| | |] [|? ?]]]]| |];
    done.
Qed.

Lemma is_str_list_app (a b : list pyval) :
  is_str_list a = true -> is_str_list b = true -> is_str_list (a ++ b) = true.
Proof. unfold is_str_list. rewrite forallb_app. by intros -> ->. Qed.

Lemma is_str_list_remove_dups (a : list pyval) :
  is_str_list a = true -> is_str_list (remove_dups a) = true.
Proof.
  unfold is_str_list. rewrite !forallb_forall. intros H x Hx.
  apply H. apply list_elem_of_In. apply list_elem_of_In in Hx.
  by apply elem_of_remove_dups.
Qed.

Lemma score_prediction_graph (gt psg ents : list pyval) (d : list (string * pyval)) :
  is_graph gt = true -> is_graph psg = true -> is_str_list ents = true ->
  Py.assoc "scene_graph" d = Some (VList psg) ->
  Py.assoc "entities" d = Some (VList ents) ->
  score_prediction gt (VDict d)
  = Ok {| m_sg_iou := setIoU_spec gt psg;
          m_entity_iou := setIoU_spec (subjects_of gt ++ objects_of gt) ents;
          m_relation_iou := setIoU_spec (predicates_of gt) (predicates_of psg);
          m_predicted_sg := VList psg;
          m_predicted_entities := VList ents |}.
Proof.
  intros Hgt Hpsg Hents Hsg Hen.
  destruct (column_graph 0 gt Hgt) as [H0 S0]; [lia|].
  destruct (column_graph 1 gt Hgt) as [H1 S1]; [lia|].
  destruct (column_graph 2 gt Hgt) as [H2 S2]; [lia|].
  destruct (column_graph 1 psg Hpsg) as [P1 T1]; [lia|].
  change (Z.of_nat 0) with 0%Z in H0. change (Z.of_nat 1) with 1%Z in H1, P1.
  change (Z.of_nat 2) with 2%Z in H2.
  unfold score_prediction, Py.getitem_str. rewrite Hsg, Hen. cbn [bind].
  rewrite H0. cbn [bind]. rewrite H2. cbn [bind].
  pose proof (is_str_list_app _ _ S0 S2) as Sent.
  unfold Py.set_of. rewrite (str_hashable _ Sent). cbn [bind].
  rewrite H1. cbn [bind].
  assert (Hrel : (if Py.truthy (VList psg)
                  then let* items := Py.iter (VList psg) in column 1 items
                  else Ok []) = Ok (component 1 <$> psg)).
  { destruct psg as [|t psg']; [done|]. cbn [Py.truthy Py.iter bind]. exact P1. }
  rewrite Hrel. cbn [bind].
  rewrite (compute_iou_triples gt psg) by by apply graph_is_triple_list.
  cbn [bind].
  rewrite (compute_iou_strings _ ents (is_str_list_remove_dups _ Sent) Hents).
  cbn [bind]. rewrite (compute_iou_strings _ _ S1 T1). cbn [bind].
  rewrite setIoU_spec_remove_dups. reflexivity.
Qed.

(** [list(set(...))] may yield the ground-truth entities in any order; the
    score does not depend on it. *)
Lemma setIoU_spec_Permutation (a a' b : list pyval) :
  a ≡ₚ a' -> setIoU_spec a b = setIoU_spec a' b.
Proof.
  intros Hperm.
  assert (Hrd : remove_dups a ≡ₚ remove_dups a').
  { apply NoDup_Permutation; try apply NoDup_remove_dups.
    intros x. rewrite !elem_of_remove_dups. by rewrite Hperm. }
  assert (Hi : card_inter a b = card_inter a' b).
  { unfold card_inter. by rewrite Hrd. }
  assert (Hu : card_union a b = card_union a' b).
  { unfold card_union. apply Permutation_length, NoDup_Permutation;
      try apply NoDup_remove_dups.
    intros x. rewrite !elem_of_remove_dups, !elem_of_app. by rewrite Hperm. }
  destruct a as [|x a], a' as [|x' a'].
  - done.
  - by apply Permutation_nil_cons in Hperm.
  - symmetry in Hperm. by apply Permutation_nil_cons in Hperm.
  - destruct b; [done|]. unfold setIoU_spec. by rewrite Hi, Hu.
Qed.

Lemma entity_order_irrelevant (entities entities' predicted : list pyval) :
  is_str_list entities = true -> is_str_list predicted = true ->
  entities ≡ₚ entities' ->
  compute_iou (VList entities') (VList predicted)
  = compute_iou (VList entities) (VList predicted).
Proof.
  intros He Hp Hperm.
  assert (He' : is_str_list entities' = true).
  { unfold is_str_list in *. rewrite forallb_forall in *. intros x Hx.
    apply He. apply list_elem_of_In. rewrite Hperm. by apply list_elem_of_In. }
  rewrite !compute_iou_strings by done. f_equal.
  symmetry. by apply setIoU_spec_Permutation.
Qed.

(** C5.  When the prediction carries a graph of triples and a list of
    entity names, [evaluate_image] scores [entity_iou] between the subjects
    and objects of the ground-truth triples, taken together as a set, and the
    [entities] field as it stands, and [relation_iou] between the predicates
    of the ground-truth triples and the predicates of the predicted triples. *)
Theorem evaluate_image_projections
    (json_loads : string -> option pyval) (oracle : vocab -> string -> option string)
    (st : vocab) (image_path : string)
    (gt psg ents : list pyval) (d : list (string * pyval)) :
  is_graph gt = true -> is_graph psg = true -> is_str_list ents = true ->
  extract_scene_graph_from_image json_loads oracle st image_path = Ok (VDict d) ->
  Py.assoc "scene_graph" d = Some (VList psg) ->
  Py.assoc "entities" d = Some (VList ents) ->
  exists m,
    evaluate_image json_loads oracle st image_path gt = Ok m /\
    compute_iou (VList (remove_dups (subjects_of gt ++ objects_of gt))) (VList ents)
      = Ok (m_entity_iou m) /\
    m_entity_iou m = setIoU_spec (subjects_of gt ++ objects_of gt) ents /\
    compute_iou (VList (predicates_of gt)) (VList (predicates_of psg))
      = Ok (m_relation_iou m) /\
    m_relation_iou m = setIoU_spec (predicates_of gt) (predicates_of psg) /\
    m_sg_iou m = setIoU_spec gt psg.
Proof.
  intros Hgt Hpsg Hents Hext Hsg Hen.
  eexists. split.
  - unfold evaluate_image. rewrite Hext. cbn [bind].
    by apply (score_prediction_graph gt psg ents d).
  - cbn [m_entity_iou m_relation_iou m_sg_iou].
    destruct (column_graph 0 gt Hgt) as [_ S0]; [lia|].
    destruct (column_graph 1 gt Hgt) as [_ S1]; [lia|].
    destruct (column_graph 2 gt Hgt) as [_ S2]; [lia|].
    destruct (column_graph 1 psg Hpsg) as [_ T1]; [lia|].
    split; [|split; [done|split; [|done]]].
    + rewrite compute_iou_strings, setIoU_spec_remove_dups; [done| |done].
      by apply is_str_list_remove_dups, is_str_list_app.
    + by rewrite compute_iou_strings.
Qed.

(** The triples of the reply match the ground truth, its entity list does
    not: [sg_iou] and [relation_iou] are 1 and [entity_iou] is 0. *)
Lemma evaluate_image_projections_witness :
  exists m,
    evaluate_image MiniJson.loads (constant_oracle reply_cat_dog) empty_vocab
      "out/000.png" (scene_graph scenario_entry) = Ok m /\
    m_entity_iou m == 0 /\ m_relation_iou m == 1 /\ m_sg_iou m == 1.
Proof.
  destruct (evaluate_image_projections MiniJson.loads (constant_oracle reply_cat_dog)
              empty_vocab "out/000.png"
              (scene_graph scenario_entry)
              [VList [VStr "cat"; VStr "on"; VStr "mat"]] [VStr "dog"]
              [("scene_graph", VList [VList [VStr "cat"; VStr "on"; VStr "mat"]]);
               ("entities", VList [VStr "dog"])])
    as (m & Hm & _ & He & _ & Hr & Hs); try reflexivity.
  exists m. split; [exact Hm|]. rewrite He, Hr, Hs. by vm_compute.
Defined.

(** ** Averages *)

Lemma py_sum_snoc (f : score_record -> Q) (rs : list score_record) (r : score_record) :
  py_sum f (rs ++ [r]) = py_sum f rs + f r.
Proof. unfold py_sum. by rewrite foldl_app. Qed.

Section AverageProperties.
Variable json_loads : string -> option pyval.
Variable oracle : vocab -> string -> option string.

Lemma evaluate_step_totals (st : vocab) (metadata_list : list metadata_entry)
    (s s' : loop_state) (img_path : string) :
  evaluate_step json_loads oracle st metadata_list s img_path = Ok s' ->
  totals_match s -> totals_match s'.
Proof.
  unfold evaluate_step.
  destruct (matching_meta _ _) as [[i meta]|].
  - destruct (evaluate_image _ _ _ _ _) as [m|]; [|discriminate]. cbn [bind].
    intros [= <-] (H1 & H2 & H3). unfold totals_match.
    cbn [results total_sg_iou total_entity_iou total_relation_iou].
    rewrite !py_sum_snoc, H1, H2, H3.
    cbn [sg_iou entity_iou relation_iou]. done.
  - intros [= <-] H. exact H.
Qed.

Lemma evaluate_loop_totals (st : vocab) (metadata_list : list metadata_entry)
    (image_files : list string) :
  forall s s',
    foldM (evaluate_step json_loads oracle st metadata_list) s image_files = Ok s' ->
    totals_match s -> totals_match s'.
Proof.
  induction image_files as [|img imgs IH]; intros s s'; simpl.
  - by intros [= <-].
  - destruct (evaluate_step _ _ _ _ s img) as [s1|] eqn:E; [|discriminate].
    cbn [bind]. intros Hrest Hs. eapply IH; [exact Hrest|].
    by eapply evaluate_step_totals.
Qed.

Lemma evaluate_method_averages (st st' : vocab) (lines image_files : list string)
    (out : method_output) :
  evaluate_method json_loads oracle st lines image_files = Ok (out, st') ->
  let rs := per_image_results out in
  let a := out_average_metrics out in
  n_images a = length rs /\
  avg_sg_iou a = guarded_mean (py_sum sg_iou rs) (length rs) /\
  avg_entity_iou a = guarded_mean (py_sum entity_iou rs) (length rs) /\
  avg_relation_iou a = guarded_mean (py_sum relation_iou rs) (length rs).
Proof.
  unfold evaluate_method.
  destruct (load_metadata json_loads lines st) as [[metadata_list st1]|];
    [|discriminate]. cbn [bind fst snd].
  destruct (foldM _ loop_init image_files) as [s|] eqn:Eloop; [|discriminate].
  cbn [bind]. intros [= <- <-]. cbn.
  destruct (evaluate_loop_totals _ _ _ _ _ Eloop) as (H1 & H2 & H3); [done|].
  by rewrite H1, H2, H3.
Qed.
End AverageProperties.

Lemma select_best_nil (stem : string -> string) (metric : metric_name) :
  select_best stem metric [] = Ok [].
Proof. reflexivity. Qed.

(** C6, at the empty result set.  [evaluate_method] reports the mean of each
    metric over its records, and zero when there are none.
    [filter_best_per_scene] reports the mean over the selected records when
    it returns, but on a file without records its unguarded division raises
    [ZeroDivisionError]. *)
Theorem empty_result_set_averages
    (json_loads : string -> option pyval) (oracle : vocab -> string -> option string)
    (stem : string -> string) (metric : metric_name) :
  (forall st lines image_files out st',
     evaluate_method json_loads oracle st lines image_files = Ok (out, st') ->
     let rs := per_image_results out in
     let a := out_average_metrics out in
     n_images a = length rs /\
     avg_sg_iou a = guarded_mean (py_sum sg_iou rs) (length rs) /\
     avg_entity_iou a = guarded_mean (py_sum entity_iou rs) (length rs) /\
     avg_relation_iou a = guarded_mean (py_sum relation_iou rs) (length rs) /\
     (rs = [] -> avg_sg_iou a = 0 /\ avg_entity_iou a = 0 /\ avg_relation_iou a = 0)) /\
  (forall data out,
     filter_best_per_scene stem data metric = Ok out ->
     let rs := fd_per_image_results out in
     let a := fd_average_metrics out in
     let n := inject_Z (Z.of_nat (length rs)) in
     rs <> [] /\ n_images a = length rs /\
     avg_sg_iou a = py_sum sg_iou rs / n /\
     avg_entity_iou a = py_sum entity_iou rs / n /\
     avg_relation_iou a = py_sum relation_iou rs / n) /\
  (forall data,
     data_per_image_results data = [] ->
     filter_best_per_scene stem data metric = Err ZeroDivisionError).
Proof.
  split; [|split].
  - intros st lines image_files out st' Hrun.
    destruct (evaluate_method_averages json_loads oracle _ _ _ _ _ Hrun)
      as (Hn & H1 & H2 & H3).
    cbn zeta. repeat (split; [assumption|]).
    intros Hnil. rewrite H1, H2, H3, Hnil. done.
  - intros data out. unfold filter_best_per_scene.
    destruct (select_best stem metric _) as [best|]; [|discriminate]. cbn [bind].
    destruct best as [|r best]; [discriminate|].
    cbn [py_div length bind]. intros [= <-]. cbn. done.
  - intros data Hnil. unfold filter_best_per_scene. rewrite Hnil.
    rewrite select_best_nil. reflexivity.
Qed.

Lemma empty_result_set_averages_witness :
  (exists out st',
     evaluate_method MiniJson.loads failing_oracle empty_vocab
       [scenario_line] ["out/foo.png"] = Ok (out, st') /\
     per_image_results out = [] /\
     avg_sg_iou (out_average_metrics out) = 0) /\
  filter_best_per_scene (fun s => s)
    {| data_average_metrics :=
         {| avg_sg_iou := 0; avg_entity_iou := 0; avg_relation_iou := 0;
            n_images := 0 |};
       data_per_image_results := [] |} SgIou
  = Err ZeroDivisionError.
Proof.
  pose proof (empty_result_set_averages MiniJson.loads failing_oracle
                (fun s => s) SgIou) as (Heval & _ & Hfilter).
  split.
  - destruct (evaluate_method MiniJson.loads failing_oracle empty_vocab
                [scenario_line] ["out/foo.png"]) as [[out st']|] eqn:Erun;
      [|vm_compute in Erun; discriminate Erun].
    exists out, st'. split; [reflexivity|].
    assert (Hnil : per_image_results out = []).
    { vm_compute in Erun. by injection Erun as <- _. }
    split; [exact Hnil|].
    by apply (Heval _ _ _ _ _ Erun).
  - by apply Hfilter.
Defined.

(** ** Replies of the oracle *)

Lemma contains_list_member (k : string) (l : list pyval) :
  VStr k ∈ l -> Py.contains k (VList l) = Ok true.
Proof.
  intros Hk. cbn [Py.contains]. f_equal. apply existsb_exists.
  exists (VStr k). split; [by apply list_elem_of_In|by apply pyval_eqb_spec].
Qed.

Section OracleProperties.
Variable json_loads : string -> option pyval.
Variable oracle : vocab -> string -> option string.

(** A reply that does not parse, or parses to an object without one of
    the two fields, is refused by the check. *)
Lemma parse_reply_refuses (text t : string) :
  unfence text = Ok t ->
  json_loads t = None \/
  (exists d, json_loads t = Some (VDict d) /\
     (Py.assoc "scene_graph" d = None \/ Py.assoc "entities" d = None)) ->
  is_ok (parse_reply json_loads text) = false.
Proof.
  intros Ht Hbad. unfold parse_reply, loads. rewrite Ht. cbn [bind].
  destruct Hbad as [->|(d & -> & Hmiss)]; [done|]. cbn [bind Py.contains].
  destruct Hmiss as [Hm|Hm]; rewrite Hm; [done|].
  by destruct (Py.assoc "scene_graph" d).
Qed.

(** An oracle that raises, or whose reply is refused, leaves the empty
    prediction. *)
Lemma extract_recovers (st : vocab) (image_path : string) :
  sorted_ok (object_list st) && sorted_ok (predicate_list st) = true ->
  oracle st image_path = None \/
  (exists text, oracle st image_path = Some text /\
                is_ok (parse_reply json_loads text) = false) ->
  extract_scene_graph_from_image json_loads oracle st image_path
    = Ok empty_prediction.
Proof.
  intros Hs Hfail. unfold extract_scene_graph_from_image. rewrite Hs.
  destruct Hfail as [->|(text & -> & Hp)]; [done|].
  by destruct (parse_reply json_loads text).
Qed.

(** The empty prediction is scored by the ordinary rule, and the loop goes
    on with one more record. *)
Lemma empty_prediction_scored (st : vocab) (image_path : string)
    (gt : list pyval) :
  is_graph gt = true ->
  extract_scene_graph_from_image json_loads oracle st image_path
    = Ok empty_prediction ->
  evaluate_image json_loads oracle st image_path gt
  = Ok {| m_sg_iou := setIoU_spec gt [];
          m_entity_iou := setIoU_spec (subjects_of gt ++ objects_of gt) [];
          m_relation_iou := setIoU_spec (predicates_of gt) [];
          m_predicted_sg := VList [];
          m_predicted_entities := VList [] |}.
Proof.
  intros Hgt Hext. unfold evaluate_image. rewrite Hext. cbn [bind].
  by apply (score_prediction_graph gt [] []).
Qed.

Lemma array_reply_returned (st : vocab) (image_path text t : string)
    (l : list pyval) :
  sorted_ok (object_list st) && sorted_ok (predicate_list st) = true ->
  oracle st image_path = Some text ->
  unfence text = Ok t ->
  json_loads t = Some (VList l) ->
  VStr "scene_graph" ∈ l -> VStr "entities" ∈ l ->
  extract_scene_graph_from_image json_loads oracle st image_path = Ok (VList l).
Proof.
  intros Hs Ho Ht Hj H1 H2. unfold extract_scene_graph_from_image.
  rewrite Hs, Ho. unfold parse_reply, loads. rewrite Ht. cbn [bind].
  rewrite Hj. cbn [bind].
  rewrite (contains_list_member _ _ H1). cbn [bind negb].
  rewrite (contains_list_member _ _ H2). done.
Qed.

(** C7, where the code departs from it.  A reply that is a JSON array
    holding the two field names passes the membership check, is returned
    as the prediction, and the first subscript of [evaluate_image] raises
    [TypeError]; the exception leaves [evaluate_method], so the batch is
    aborted instead of the image being scored as an empty prediction. *)
Theorem array_reply_aborts_batch (st0 st : vocab)
    (lines image_files : list string) (records : list metadata_entry)
    (image_path text t : string) (l : list pyval) :
  load_metadata json_loads lines st0 = Ok (records, st) ->
  sorted_ok (object_list st) && sorted_ok (predicate_list st) = true ->
  image_path ∈ image_files ->
  is_Some (matching_meta records (scene_idx_of (Py.basename image_path))) ->
  oracle st image_path = Some text ->
  unfence text = Ok t ->
  json_loads t = Some (VList l) ->
  VStr "scene_graph" ∈ l -> VStr "entities" ∈ l ->
  extract_scene_graph_from_image json_loads oracle st image_path = Ok (VList l) /\
  (forall gt, evaluate_image json_loads oracle st image_path gt = Err TypeError) /\
  exists e, evaluate_method json_loads oracle st0 lines image_files = Err e.
Proof.
  intros Hload Hs Hin [[i meta] Hmeta] Ho Ht Hj H1 H2.
  pose proof (array_reply_returned st image_path text t l Hs Ho Ht Hj H1 H2) as Hext.
  assert (Himg : forall gt,
            evaluate_image json_loads oracle st image_path gt = Err TypeError).
  { intros gt. unfold evaluate_image. by rewrite Hext. }
  split; [exact Hext|]. split; [exact Himg|].
  unfold evaluate_method. rewrite Hload. cbn [bind fst snd].
  pose proof (foldM_fails (evaluate_step json_loads oracle st records)
                image_files image_path Hin) as Hfail.
  destruct (foldM _ loop_init image_files) as [s|e] eqn:E; [|by exists e].
  specialize (Hfail (fun s => ltac:(unfold evaluate_step; rewrite Hmeta, Himg; done))
                loop_init).
  rewrite E in Hfail. discriminate Hfail.
Qed.
End OracleProperties.

Lemma array_reply_aborts_batch_witness :
  evaluate_method MiniJson.loads (constant_oracle reply_array) empty_vocab
    [scenario_line] ["out/000.png"] = Err TypeError.
Proof.
  destruct (array_reply_aborts_batch MiniJson.loads (constant_oracle reply_array)
              empty_vocab
              {| object_list := [VStr "cat"; VStr "mat"];
                 predicate_list := [VStr "on"] |}
              [scenario_line] ["out/000.png"] [scenario_entry]
              "out/000.png" reply_array reply_array
              [VStr "scene_graph"; VStr "entities"])
    as (_ & Himage & _); [reflexivity|reflexivity|apply list_elem_of_here|
                          eexists; reflexivity|reflexivity|reflexivity|reflexivity|
                          apply list_elem_of_here|
                          apply list_elem_of_further, list_elem_of_here|].
  pose proof (Himage (scene_graph scenario_entry)) as Hraise.
  unfold evaluate_method.
  change (load_metadata MiniJson.loads [scenario_line] empty_vocab)
    with (Ok ([scenario_entry],
              {| object_list := [VStr "cat"; VStr "mat"];
                 predicate_list := [VStr "on"] |})).
  cbn [bind fst snd foldM]. unfold evaluate_step at 1.
  change (matching_meta [scenario_entry] (scene_idx_of (Py.basename "out/000.png")))
    with (Some (0%Z, scenario_entry)).
  cbn iota beta. rewrite Hraise. reflexivity.
Defined.

(** ** [max] keeps the first greatest element *)

Lemma max_from_first_maximum (metric : metric_name)
    (items pre : list score_record) (best : score_record) :
  first_maximum metric pre best ->
  first_maximum metric (pre ++ items) (max_from (metric_value metric) best items).
Proof.
  revert pre best. induction items as [|x items IH]; intros pre best Hbest.
  - simpl. by rewrite app_nil_r.
  - cbn [max_from]. replace (pre ++ x :: items) with ((pre ++ [x]) ++ items)
      by (by rewrite <- app_assoc).
    apply IH. destruct Hbest as (before & after & -> & Hb & Ha).
    destruct (metric_value metric best ?= metric_value metric x) eqn:Ecmp.
    + exists before, (after ++ [x]). split; [by rewrite <- app_assoc|].
      split; [done|]. apply Forall_app. split; [done|].
      apply Forall_singleton. apply Qeq_alt in Ecmp. rewrite Ecmp. apply Qle_refl.
    + apply Qlt_alt in Ecmp. exists (before ++ best :: after), [].
      split; [done|]. split; [|constructor].
      apply Forall_app. split; [|constructor].
      * eapply Forall_impl; [exact Hb|]. intros y Hy. simpl in Hy.
        eapply Qlt_trans; [exact Hy|exact Ecmp].
      * exact Ecmp.
      * eapply Forall_impl; [exact Ha|]. intros y Hy. simpl in Hy.
        eapply Qle_lt_trans; [exact Hy|exact Ecmp].
    + apply Qgt_alt in Ecmp. exists before, (after ++ [x]).
      split; [by rewrite <- app_assoc|].
      split; [done|]. apply Forall_app. split; [done|].
      apply Forall_singleton. by apply Qlt_le_weak.
Qed.

Lemma py_max_first_maximum (metric : metric_name)
    (group : list score_record) (r : score_record) :
  py_max (metric_value metric) group = Ok r -> first_maximum metric group r.
Proof.
  destruct group as [|x group]; [discriminate|]. intros [= <-].
  apply (max_from_first_maximum metric group [x] x).
  exists [], []. split; [done|]. split; constructor.
Qed.

Lemma first_maximum_elem (metric : metric_name)
    (group : list score_record) (r : score_record) :
  first_maximum metric group r -> r ∈ group.
Proof.
  intros (before & after & -> & _). apply elem_of_app. right. by left.
Qed.

Lemma first_maximum_greatest (metric : metric_name)
    (group : list score_record) (r x : score_record) :
  first_maximum metric group r -> x ∈ group ->
  metric_value metric x <= metric_value metric r.
Proof.
  intros (before & after & -> & Hb & Ha) Hx.
  apply elem_of_app in Hx as [Hx|Hx].
  - apply Qlt_le_weak. by eapply Forall_forall in Hb.
  - apply elem_of_cons in Hx as [->|Hx]; [apply Qle_refl|].
    by eapply Forall_forall in Ha.
Qed.

(** ** Grouping by scene *)

Section SelectionProperties.
Variable stem : string -> string.

Lemma group_fold_lookup (rs : list score_record)
    (scenes : gmap string (list score_record)) (k : string) :
  foldl (add_result stem) scenes rs !! k
  = match scene_group stem k rs with
    | [] => scenes !! k
    | group => Some (default [] (scenes !! k) ++ group)
    end.
Proof.
  revert scenes. induction rs as [|r rs IH]; intros scenes; [done|].
  cbn [foldl]. rewrite IH. unfold scene_group. rewrite filter_cons.
  unfold add_result. fold (scene_key stem r).
  destruct (decide (scene_key stem r = k)) as [<-|Hne].
  - rewrite lookup_insert_eq. cbn [default].
    destruct (filter _ rs) as [|x group]; [done|].
    unfold id. by rewrite <- app_assoc.
  - by rewrite lookup_insert_ne.
Qed.

Lemma group_by_scene_lookup (rs : list score_record) (k : string) :
  group_by_scene stem rs !! k
  = match scene_group stem k rs with
    | [] => None
    | group => Some group
    end.
Proof.
  unfold group_by_scene. rewrite group_fold_lookup, lookup_empty.
  by destruct (scene_group stem k rs).
Qed.

Lemma scene_group_nonempty (rs : list score_record) (k : string) :
  scene_group stem k rs <> [] <-> k ∈ scene_key stem <$> rs.
Proof.
  unfold scene_group. split.
  - intros Hne. destruct (filter _ rs) as [|r group] eqn:E; [done|].
    assert (Hr : r ∈ filter (fun r => scene_key stem r = k) rs)
      by (rewrite E; by left).
    apply list_elem_of_filter in Hr as [<- Hr]. by apply list_elem_of_fmap_2.
  - intros (r & -> & Hr)%list_elem_of_fmap Hnil.
    assert (Hin : r ∈ filter (fun r' => scene_key stem r' = scene_key stem r) rs)
      by (by apply list_elem_of_filter).
    rewrite Hnil in Hin. by apply elem_of_nil in Hin.
Qed.

Lemma elem_of_sorted_keys (rs : list score_record) (k : string) :
  k ∈ sorted_keys (group_by_scene stem rs) <-> k ∈ scene_key stem <$> rs.
Proof.
  unfold sorted_keys. rewrite merge_sort_Permutation, elem_of_elements, elem_of_dom.
  rewrite group_by_scene_lookup, <- scene_group_nonempty.
  destruct (scene_group stem k rs); split; (done || by intros [? ?] || eauto).
Qed.

Lemma NoDup_sorted_keys (scenes : gmap string (list score_record)) :
  NoDup (sorted_keys scenes).
Proof. unfold sorted_keys. rewrite merge_sort_Permutation. apply NoDup_elements. Qed.

Lemma Sorted_sorted_keys (scenes : gmap string (list score_record)) :
  Sorted String.le (sorted_keys scenes).
Proof. apply Sorted_merge_sort. apply _. Qed.
End SelectionProperties.

Lemma mapM_total {A B : Type} (f : A -> res B) (P : A -> B -> Prop) (xs : list A) :
  Forall (fun x => exists y, f x = Ok y /\ P x y) xs ->
  exists ys, mapM f xs = Ok ys /\ Forall2 P xs ys.
Proof.
  induction 1 as [|x xs (y & Hy & HP) _ (ys & Hys & HPs)].
  - exists []. split; [done|constructor].
  - exists (y :: ys). split; [|by constructor]. simpl. by rewrite Hy, Hys.
Qed.

Section SelectionTheorems.
Variable stem : string -> string.

Lemma filter_key_unique (out : list score_record) (r : score_record) :
  NoDup (scene_key stem <$> out) -> r ∈ out ->
  scene_group stem (scene_key stem r) out = [r].
Proof.
  unfold scene_group. induction out as [|x out IH]; intros Hnd Hr.
  - by apply elem_of_nil in Hr.
  - rewrite fmap_cons in Hnd. apply NoDup_cons in Hnd as [Hx Hnd].
    rewrite filter_cons. apply elem_of_cons in Hr as [->|Hr].
    + rewrite decide_True by done. f_equal.
      destruct (filter _ out) as [|y ys] eqn:E; [done|]. exfalso. apply Hx.
      assert (Hy : y ∈ filter (fun r => scene_key stem r = scene_key stem x) out)
        by (rewrite E; by left).
      apply list_elem_of_filter in Hy as [<- Hy]. by apply list_elem_of_fmap_2.
    + rewrite decide_False; [by apply IH|].
      intros Heq. apply Hx. rewrite Heq. by apply list_elem_of_fmap_2.
Qed.

(** What the selection loop returns: for each key, in sorted order, the
    first maximum of its group. *)
Lemma select_best_selects (metric : metric_name) (rs : list score_record) :
  exists out,
    select_best stem metric rs = Ok out /\
    Forall2 (fun k r => first_maximum metric (scene_group stem k rs) r)
            (sorted_keys (group_by_scene stem rs)) out.
Proof.
  unfold select_best. apply mapM_total. apply Forall_forall. intros k Hk.
  apply elem_of_sorted_keys, scene_group_nonempty in Hk.
  rewrite group_by_scene_lookup.
  destruct (scene_group stem k rs) as [|x group] eqn:E; [done|]. cbn [default].
  eexists. split; [reflexivity|]. by apply py_max_first_maximum.
Qed.

Lemma selected_keys (metric : metric_name) (rs out : list score_record)
    (keys : list string) :
  Forall2 (fun k r => first_maximum metric (scene_group stem k rs) r) keys out ->
  scene_key stem <$> out = keys /\ Forall (fun r => r ∈ rs) out.
Proof.
  induction 1 as [|k r keys out Hr _ [IH1 IH2]]; [by split|].
  apply first_maximum_elem, list_elem_of_filter in Hr as [Hk Hr].
  split; [by rewrite fmap_cons, IH1, Hk|by constructor].
Qed.

Lemma sorted_keys_same (rs rs' : list score_record) :
  (forall k, k ∈ scene_key stem <$> rs <-> k ∈ scene_key stem <$> rs') ->
  sorted_keys (group_by_scene stem rs) = sorted_keys (group_by_scene stem rs').
Proof.
  intros Hsame. unfold sorted_keys. f_equal. f_equal.
  apply set_eq. intros k. rewrite !elem_of_dom, !group_by_scene_lookup.
  specialize (Hsame k). rewrite <- !scene_group_nonempty in Hsame.
  destruct (scene_group stem k rs), (scene_group stem k rs');
    split; intros [x Hx]; try done; try (by eexists).
  - by destruct (proj2 Hsame).
  - by destruct (proj1 Hsame).
Qed.
End SelectionTheorems.

Section SelectionClaims.
Variable stem : string -> string.

Lemma selected_records (metric : metric_name) (rs out : list score_record)
    (keys : list string) :
  Forall2 (fun k r => first_maximum metric (scene_group stem k rs) r) keys out ->
  Forall (fun r => first_maximum metric (scene_group stem (scene_key stem r) rs) r) out.
Proof.
  induction 1 as [|k r keys out Hr _ IH]; constructor; [|exact IH].
  pose proof (first_maximum_elem _ _ _ Hr) as Hin.
  apply list_elem_of_filter in Hin as [-> _]. exact Hr.
Qed.

(** What the selection keeps.  It never raises.  It groups the records
    by their scene key, the text of the image name's stem before the first
    underscore, and returns exactly one record per key present in the
    input: the first record of the group among those with the greatest
    value of the metric.  So there are as many records as distinct keys,
    and never more than in the input. *)
Theorem select_best_one_per_scene_key (metric : metric_name)
    (rs : list score_record) :
  exists out,
    select_best stem metric rs = Ok out /\
    NoDup (scene_key stem <$> out) /\
    (forall k, k ∈ scene_key stem <$> out <-> k ∈ scene_key stem <$> rs) /\
    Forall (fun r =>
              first_maximum metric (scene_group stem (scene_key stem r) rs) r) out /\
    length out = length (remove_dups (scene_key stem <$> rs)) /\
    (length out <= length rs)%nat.
Proof.
  destruct (select_best_selects stem metric rs) as (out & Hrun & Hsel).
  destruct (selected_keys stem metric rs out _ Hsel) as [Hkeys _].
  pose proof (NoDup_sorted_keys (group_by_scene stem rs)) as Hnd.
  assert (Hmem : forall k, k ∈ scene_key stem <$> out <-> k ∈ scene_key stem <$> rs).
  { intros k. rewrite Hkeys. apply elem_of_sorted_keys. }
  assert (Hlen : length out = length (remove_dups (scene_key stem <$> rs))).
  { rewrite <- (length_fmap (scene_key stem) out).
    apply Permutation_length, NoDup_Permutation.
    - by rewrite Hkeys.
    - apply NoDup_remove_dups.
    - intros k. rewrite elem_of_remove_dups. apply Hmem. }
  exists out. split; [exact Hrun|]. split; [by rewrite Hkeys|].
  split; [exact Hmem|]. split; [by eapply selected_records|].
  split; [exact Hlen|].
  rewrite Hlen, <- (length_fmap (scene_key stem) rs).
  apply submseteq_length, NoDup_submseteq; [apply NoDup_remove_dups|].
  intros k. by rewrite elem_of_remove_dups.
Qed.

Lemma reselect (metric : metric_name) (selected : list score_record) :
  NoDup (scene_key stem <$> selected) ->
  forall out out2 keys,
    Forall (fun r => r ∈ selected) out ->
    scene_key stem <$> out = keys ->
    Forall2 (fun k r2 => first_maximum metric (scene_group stem k selected) r2)
            keys out2 ->
    out2 = out.
Proof.
  intros Hnd. induction out as [|r out IH]; intros out2 keys Hin <- Hsel.
  - by apply Forall2_nil_inv_l in Hsel.
  - rewrite fmap_cons in Hsel.
    apply Forall2_cons_inv_l in Hsel as (r2 & out2' & Hr2 & Hrest & ->).
    apply Forall_cons in Hin as [Hr Hin].
    rewrite (filter_key_unique stem selected r Hnd Hr) in Hr2.
    apply first_maximum_elem, list_elem_of_singleton in Hr2 as ->.
    f_equal. by eapply IH.
Qed.

Lemma select_best_again (metric : metric_name) (rs out : list score_record) :
  select_best stem metric rs = Ok out -> select_best stem metric out = Ok out.
Proof.
  intros Hrun.
  destruct (select_best_selects stem metric rs) as (out' & Hrun' & Hsel).
  assert (out' = out) as -> by congruence.
  destruct (selected_keys stem metric rs out _ Hsel) as [Hkeys _].
  destruct (select_best_selects stem metric out) as (out2 & Hrun2 & Hsel2).
  rewrite Hrun2. f_equal.
  apply (reselect metric out) with (keys := sorted_keys (group_by_scene stem out)).
  - rewrite Hkeys. apply NoDup_sorted_keys.
  - by apply Forall_forall.
  - rewrite Hkeys. apply sorted_keys_same. intros k.
    by rewrite <- elem_of_sorted_keys, <- Hkeys.
  - exact Hsel2.
Qed.

(** C9.  The selection of a selection is the same list of records, and a
    second pass of [filter_best_per_scene] over the output of a first pass
    that returned gives the same records and the same averages. *)
Theorem select_best_idempotent (metric : metric_name) (rs : list score_record) :
  exists out,
    select_best stem metric rs = Ok out /\
    select_best stem metric out = Ok out /\
    forall data fd,
      data_per_image_results data = rs ->
      filter_best_per_scene stem data metric = Ok fd ->
      exists fd',
        filter_best_per_scene stem
          {| data_average_metrics := fd_average_metrics fd;
             data_per_image_results := fd_per_image_results fd |} metric = Ok fd' /\
        fd_per_image_results fd' = fd_per_image_results fd /\
        fd_average_metrics fd' = fd_average_metrics fd.
Proof.
  destruct (select_best_selects stem metric rs) as (out & Hrun & _).
  exists out. split; [exact Hrun|].
  pose proof (select_best_again metric rs out Hrun) as Hagain.
  split; [exact Hagain|].
  intros data fd Hdata. unfold filter_best_per_scene.
  rewrite Hdata, Hrun. cbn [bind].
  destruct (py_div (py_sum sg_iou out) (length out)) as [a1|] eqn:E1;
    [|discriminate]. cbn [bind].
  destruct (py_div (py_sum entity_iou out) (length out)) as [a2|] eqn:E2;
    [|discriminate]. cbn [bind].
  destruct (py_div (py_sum relation_iou out) (length out)) as [a3|] eqn:E3;
    [|discriminate]. cbn [bind].
  intros [= <-]. cbn [fd_per_image_results fd_average_metrics data_per_image_results
                      data_average_metrics].
  rewrite Hagain. cbn [bind]. rewrite E1, E2, E3. cbn [bind].
  eexists. split; [reflexivity|]. split; reflexivity.
Qed.
End SelectionClaims.

Lemma select_best_idempotent_witness :
  select_best path_stem SgIou [record_000] = Ok [record_000] /\
  exists fd',
    filter_best_per_scene path_stem
      {| data_average_metrics :=
           {| avg_sg_iou := (7 # 10) / inject_Z 1; avg_entity_iou := (7 # 10) / inject_Z 1;
              avg_relation_iou := (7 # 10) / inject_Z 1; n_images := 1 |};
         data_per_image_results := [record_000] |} SgIou = Ok fd' /\
    fd_per_image_results fd' = [record_000].
Proof.
  destruct (select_best_idempotent path_stem SgIou
              [record_of "000_1.png" 0 (2 # 5); record_000])
    as (out & Hrun & Hagain & Hfilter).
  assert (out = [record_000]) as ->.
  { vm_compute in Hrun. by injection Hrun as <-. }
  split; [exact Hagain|].
  destruct (Hfilter
              {| data_average_metrics :=
                   {| avg_sg_iou := 0; avg_entity_iou := 0;
                      avg_relation_iou := 0; n_images := 0 |};
                 data_per_image_results :=
                   [record_of "000_1.png" 0 (2 # 5); record_000] |}
              {| selection_method := SgIou;
                 fd_average_metrics :=
                   {| avg_sg_iou := (7 # 10) / inject_Z 1;
                      avg_entity_iou := (7 # 10) / inject_Z 1;
                      avg_relation_iou := (7 # 10) / inject_Z 1; n_images := 1 |};
                 fd_per_image_results := [record_000];
                 original_metrics :=
                   {| avg_sg_iou := 0; avg_entity_iou := 0;
                      avg_relation_iou := 0; n_images := 0 |} |}
              eq_refl)
    as (fd' & Hfd' & Hrecs & _).
  - vm_compute. reflexivity.
  - exists fd'. split; [exact Hfd'|exact Hrecs].
Defined.

(** Both records have scene index 0, and both are kept. *)
Lemma one_record_per_scene_index_fails : ~ one_record_per_scene_index.
Proof.
  intros Hclaim.
  specialize (Hclaim SgIou [record_0; record_000] [record_0; record_000]).
  assert (Hdup : NoDup (scene_index <$> [record_0; record_000])).
  { apply Hclaim.
    - repeat constructor.
    - vm_compute. reflexivity. }
  apply NoDup_cons in Hdup as [Hnotin _]. apply Hnotin. by left.
Qed.

(* ================================================================= *)
(** * Further properties of the pipeline *)

(** ** [compute_iou] as a function of two sets *)

Lemma card_inter_sym (a b : list pyval) : card_inter a b = card_inter b a.
Proof.
  unfold card_inter. apply Permutation_length, NoDup_Permutation.
  - apply NoDup_filter, NoDup_remove_dups.
  - apply NoDup_filter, NoDup_remove_dups.
  - intros x. rewrite !list_elem_of_filter, !elem_of_remove_dups. tauto.
Qed.

Lemma card_union_sym (a b : list pyval) : card_union a b = card_union b a.
Proof.
  unfold card_union. apply Permutation_length, NoDup_Permutation;
    try apply NoDup_remove_dups.
  intros x. rewrite !elem_of_remove_dups, !elem_of_app. tauto.
Qed.

Lemma setIoU_spec_sym (a b : list pyval) : setIoU_spec a b = setIoU_spec b a.
Proof.
  destruct a as [|x a], b as [|y b]; try done.
  unfold setIoU_spec. by rewrite card_inter_sym, card_union_sym.
Qed.

Lemma same_shape_run (a b : list pyval) :
  same_shape a b = true -> compute_iou (VList a) (VList b) = Ok (setIoU_spec a b).
Proof.
  intros [[Ha Hb]%andb_true_iff|[Ha Hb]%andb_true_iff]%orb_true_iff.
  - by apply compute_iou_strings.
  - by apply compute_iou_triples.
Qed.

Lemma same_shape_sym (a b : list pyval) : same_shape a b = same_shape b a.
Proof.
  unfold same_shape.
  by rewrite (andb_comm (is_str_list a)), (andb_comm (is_triple_list a)).
Qed.

(** X1.  On two sequences of one shape the score does not depend on which
    of them is passed first. *)
Theorem compute_iou_symmetric (a b : list pyval) :
  same_shape a b = true ->
  compute_iou (VList a) (VList b) = compute_iou (VList b) (VList a).
Proof.
  intros Hs. rewrite (same_shape_run a b Hs).
  rewrite same_shape_sym in Hs. rewrite (same_shape_run b a Hs).
  by rewrite setIoU_spec_sym.
Qed.

Lemma compute_iou_symmetric_witness :
  compute_iou (VList [VStr "cat"; VStr "mat"]) (VList [VStr "mat"; VStr "dog"; VStr "sun"])
  = compute_iou (VList [VStr "mat"; VStr "dog"; VStr "sun"]) (VList [VStr "cat"; VStr "mat"]).
Proof.
  apply (compute_iou_symmetric [VStr "cat"; VStr "mat"]
           [VStr "mat"; VStr "dog"; VStr "sun"]).
  reflexivity.
Defined.

Lemma same_elements_shape (P : pyval -> bool) (a a' : list pyval) :
  same_elements a a' -> forallb P a = true -> forallb P a' = true.
Proof.
  intros He Ha. rewrite forallb_forall in *. intros x Hx.
  apply Ha. apply list_elem_of_In, He. by apply list_elem_of_In.
Qed.

Lemma setIoU_spec_same_elements (a a' b b' : list pyval) :
  same_elements a a' -> same_elements b b' -> setIoU_spec a b = setIoU_spec a' b'.
Proof.
  intros Ha Hb.
  assert (Hi : card_inter a b = card_inter a' b').
  { unfold card_inter. apply Permutation_length, NoDup_Permutation.
    - apply NoDup_filter, NoDup_remove_dups.
    - apply NoDup_filter, NoDup_remove_dups.
    - intros x. rewrite !list_elem_of_filter, !elem_of_remove_dups.
      by rewrite (Ha x), (Hb x). }
  assert (Hu : card_union a b = card_union a' b').
  { unfold card_union. apply Permutation_length, NoDup_Permutation;
      try apply NoDup_remove_dups.
    intros x. rewrite !elem_of_remove_dups, !elem_of_app. by rewrite (Ha x), (Hb x). }
  destruct a as [|x a], a' as [|x' a'];
    try (exfalso; eapply elem_of_nil; first [apply (proj1 (Ha _))|apply (proj2 (Ha _))];
         by left);
    destruct b as [|y b], b' as [|y' b'];
    try (exfalso; eapply elem_of_nil; first [apply (proj1 (Hb _))|apply (proj2 (Hb _))];
         by left);
    try done.
  unfold setIoU_spec. by rewrite Hi, Hu.
Qed.

(** X2.  On sequences of one shape the score depends on the elements
    alone: repeating elements or reordering either sequence does not
    change it. *)
Theorem compute_iou_same_elements (a a' b b' : list pyval) :
  same_shape a b = true ->
  same_elements a a' -> same_elements b b' ->
  compute_iou (VList a') (VList b') = compute_iou (VList a) (VList b).
Proof.
  intros Hs Ha Hb.
  assert (Hs' : same_shape a' b' = true).
  { unfold same_shape in *.
    apply orb_true_iff in Hs as [[H1 H2]%andb_true_iff|[H1 H2]%andb_true_iff].
    - unfold is_str_list in *.
      by rewrite (same_elements_shape _ _ _ Ha H1), (same_elements_shape _ _ _ Hb H2).
    - unfold is_triple_list in *.
      rewrite (same_elements_shape _ _ _ Ha H1), (same_elements_shape _ _ _ Hb H2).
      by rewrite orb_true_r. }
  rewrite (same_shape_run _ _ Hs), (same_shape_run _ _ Hs'). f_equal.
  symmetry. by apply setIoU_spec_same_elements.
Qed.

Lemma compute_iou_same_elements_witness :
  compute_iou (VList [VStr "mat"; VStr "cat"; VStr "mat"]) (VList [VStr "cat"; VStr "cat"])
  = compute_iou (VList [VStr "cat"; VStr "mat"]) (VList [VStr "cat"]).
Proof.
  apply (compute_iou_same_elements [VStr "cat"; VStr "mat"]
           [VStr "mat"; VStr "cat"; VStr "mat"] [VStr "cat"] [VStr "cat"; VStr "cat"]).
  - reflexivity.
  - intros x. rewrite !elem_of_cons, !elem_of_nil. tauto.
  - intros x. rewrite !elem_of_cons, !elem_of_nil. tauto.
Defined.

Lemma ratio_eq_one (i u : nat) :
  (0 < u)%nat ->
  inject_Z (Z.of_nat i) / inject_Z (Z.of_nat u) == 1 <-> i = u.
Proof.
  intros Hu.
  assert (Hnz : ~ inject_Z (Z.of_nat u) == 0).
  { change 0 with (inject_Z 0). rewrite inject_Z_injective. lia. }
  split.
  - intros Hq.
    assert (Heq : inject_Z (Z.of_nat i) == inject_Z (Z.of_nat u)).
    { rewrite <- (Qmult_div_r (inject_Z (Z.of_nat i)) (inject_Z (Z.of_nat u))) by done.
      rewrite Hq. apply Qmult_1_r. }
    apply (proj1 (inject_Z_injective _ _)) in Heq. lia.
  - intros ->. by apply Qmult_inv_r.
Qed.

Lemma ratio_eq_zero (i u : nat) :
  (0 < u)%nat ->
  inject_Z (Z.of_nat i) / inject_Z (Z.of_nat u) == 0 <-> i = 0%nat.
Proof.
  intros Hu.
  assert (Hnz : ~ inject_Z (Z.of_nat u) == 0).
  { change 0 with (inject_Z 0). rewrite inject_Z_injective. lia. }
  split.
  - intros Hq.
    assert (Heq : inject_Z (Z.of_nat i) == inject_Z 0).
    { rewrite <- (Qmult_div_r (inject_Z (Z.of_nat i)) (inject_Z (Z.of_nat u))) by done.
      rewrite Hq. apply Qmult_0_r. }
    apply (proj1 (inject_Z_injective _ _)) in Heq. lia.
  - intros ->. unfold Qdiv. apply Qmult_0_l.
Qed.

Lemma card_inter_le_union_elems (a b : list pyval) :
  filter (fun x => x ∈ b) (remove_dups a) ⊆+ remove_dups (a ++ b).
Proof.
  apply NoDup_submseteq; [apply NoDup_filter, NoDup_remove_dups|].
  intros x [Hb Ha]%list_elem_of_filter. rewrite elem_of_remove_dups in Ha.
  rewrite elem_of_remove_dups, elem_of_app. by left.
Qed.

Lemma card_inter_eq_union (a b : list pyval) :
  card_inter a b = card_union a b <-> same_elements a b.
Proof.
  unfold card_inter, card_union. split.
  - intros Hlen.
    assert (Hperm : filter (fun x => x ∈ b) (remove_dups a) ≡ₚ remove_dups (a ++ b)).
    { apply submseteq_length_Permutation; [apply card_inter_le_union_elems|lia]. }
    assert (Hall : forall x, x ∈ a \/ x ∈ b -> x ∈ a /\ x ∈ b).
    { intros x Hx.
      assert (Hin : x ∈ filter (fun x => x ∈ b) (remove_dups a)).
      { rewrite Hperm. by rewrite elem_of_remove_dups, elem_of_app. }
      apply list_elem_of_filter in Hin as [Hb Ha].
      by rewrite elem_of_remove_dups in Ha. }
    intros x. split; intros Hx; apply Hall; auto.
  - intros Hsame. apply Permutation_length, NoDup_Permutation.
    + apply NoDup_filter, NoDup_remove_dups.
    + apply NoDup_remove_dups.
    + intros x. rewrite list_elem_of_filter, !elem_of_remove_dups, elem_of_app.
      specialize (Hsame x). tauto.
Qed.

Lemma card_inter_zero (a b : list pyval) :
  card_inter a b = 0%nat <-> no_common_element a b.
Proof.
  unfold card_inter, no_common_element. split.
  - intros Hlen x Ha Hb.
    assert (Hin : x ∈ filter (fun x => x ∈ b) (remove_dups a)).
    { apply list_elem_of_filter. split; [done|]. by rewrite elem_of_remove_dups. }
    destruct (filter _ (remove_dups a)); [by apply elem_of_nil in Hin|discriminate].
  - intros Hdis.
    destruct (filter _ (remove_dups a)) as [|x l] eqn:E; [done|].
    assert (Hin : x ∈ filter (fun x => x ∈ b) (remove_dups a)) by (rewrite E; by left).
    apply list_elem_of_filter in Hin as [Hb Ha]. rewrite elem_of_remove_dups in Ha.
    by destruct (Hdis x).
Qed.

Lemma card_union_pos (a b : list pyval) : a <> [] -> (0 < card_union a b)%nat.
Proof.
  intros Ha. unfold card_union. destruct a as [|x a]; [done|].
  destruct (remove_dups ((x :: a) ++ b)) eqn:E; [|simpl; lia].
  assert (Hx : x ∈ remove_dups ((x :: a) ++ b)).
  { apply elem_of_remove_dups. by left. }
  rewrite E in Hx. by apply elem_of_nil in Hx.
Qed.

(** X3.  On two sequences of one shape the score is 1 exactly when both
    hold the same elements (two empty sequences included), and it is 0
    exactly when they share no element and are not both empty. *)
Theorem compute_iou_extremes (a b : list pyval) :
  same_shape a b = true ->
  exists q,
    compute_iou (VList a) (VList b) = Ok q /\
    (q == 1 <-> same_elements a b) /\
    (q == 0 <-> no_common_element a b /\ ~ (a = [] /\ b = [])).
Proof.
  intros Hs. exists (setIoU_spec a b). split; [by apply same_shape_run|].
  destruct a as [|x a], b as [|y b].
  - split; [split; [by intros _ z|done]|].
    split; [done|intros [_ H]; by destruct H].
  - split.
    + split; [done|]. intros H. exfalso. eapply elem_of_nil. apply H. by left.
    + split; [|done]. intros _. split; [|by intros [_ ?]].
      intros z Hz. by apply elem_of_nil in Hz.
  - split.
    + split; [done|]. intros H. exfalso. eapply elem_of_nil. apply H. by left.
    + split; [|done]. intros _. split; [|by intros [? _]].
      intros z _ Hz. by apply elem_of_nil in Hz.
  - unfold setIoU_spec.
    pose proof (card_union_pos (x :: a) (y :: b)) as Hpos.
    rewrite ratio_eq_one, ratio_eq_zero by (by apply Hpos).
    rewrite card_inter_eq_union, card_inter_zero.
    split; [done|]. split; [intros H; split; [done|by intros [? _]]|by intros [? _]].
Qed.

Lemma compute_iou_extremes_witness :
  exists q,
    compute_iou (VList [VStr "cat"; VStr "mat"]) (VList [VStr "mat"; VStr "cat"; VStr "cat"])
      = Ok q /\ q == 1.
Proof.
  destruct (compute_iou_extremes [VStr "cat"; VStr "mat"]
              [VStr "mat"; VStr "cat"; VStr "cat"]) as (q & Hq & H1 & _);
    [reflexivity|].
  exists q. split; [exact Hq|]. apply H1.
  intros x. rewrite !elem_of_cons, !elem_of_nil. tauto.
Defined.

(** ** [load_metadata]: malformed lines *)

Lemma load_entry_fields (data : pyval) (st : vocab) (r : metadata_entry * vocab) :
  load_entry data st = Ok r ->
  exists d, data = VDict d /\
    Forall (fun k => is_Some (Py.assoc k d)) required_fields.
Proof.
  unfold load_entry, Py.getitem_str. destruct data as [| | | | |d]; try discriminate.
  destruct (Py.assoc "objects" d) as [objs|] eqn:E1; [|discriminate]. cbn [bind].
  destruct (Py.assoc "relations" d) as [rels_v|] eqn:E2; [|discriminate]. cbn [bind].
  destruct (Py.iter rels_v) as [rels|]; [|discriminate]. cbn [bind].
  destruct (mapM (resolve_relation objs) rels) as [sg|]; [|discriminate]. cbn [bind].
  destruct (Py.assoc "file_name" d) as [fn|] eqn:E3; [|discriminate]. cbn [bind].
  destruct (Py.assoc "caption" d) as [cap|] eqn:E4; [|discriminate].
  intros _. exists d. split; [done|].
  unfold required_fields. repeat constructor; by eexists.
Qed.

(** X4.  A non-blank line that is not valid JSON, or is valid JSON but not
    an object, or is an object without one of the fields [objects],
    [relations], [file_name], [caption], makes the whole load fail. *)
Theorem load_metadata_rejects_malformed
    (json_loads : string -> option pyval) (lines : list string) (st : vocab)
    (line : string) :
  line ∈ lines -> nonblank line = true ->
  json_loads line = None \/
  (exists data, json_loads line = Some data /\ forall d, data <> VDict d) \/
  (exists d k, json_loads line = Some (VDict d) /\
               k ∈ required_fields /\ Py.assoc k d = None) ->
  exists e, load_metadata json_loads lines st = Err e.
Proof.
  intros Hin Hnb Hbad.
  assert (Hline : forall acc, is_ok (load_line json_loads acc line) = false).
  { intros acc. unfold load_line. unfold nonblank in Hnb. rewrite Hnb. unfold loads.
    destruct (json_loads line) as [data|] eqn:Ed; [|done]. cbn [bind].
    destruct (load_entry data (snd acc)) as [r|] eqn:Er; [|done]. exfalso.
    destruct (load_entry_fields _ _ _ Er) as (d & -> & Hall).
    destruct Hbad as [?|[(data & Hd & Hno)|(d' & k & Hd & Hk & Hnone)]].
    - done.
    - injection Hd as <-. by apply (Hno d).
    - injection Hd as <-. rewrite Forall_forall in Hall.
      destruct (Hall k Hk) as [v Hv]. congruence. }
  pose proof (foldM_fails (load_line json_loads) lines line Hin Hline ([], st)) as H.
  unfold load_metadata. destruct (foldM _ _ lines) as [?|e]; [discriminate|].
  by exists e.
Qed.

Lemma load_metadata_rejects_malformed_witness :
  exists e,
    load_metadata MiniJson.loads
      [scenario_line;
       "{" +:+ quoted "file_name" +:+ ":" +:+ quoted "a" +:+ "," +:+
       quoted "objects" +:+ ":[]," +:+ quoted "relations" +:+ ":[]}"]
      empty_vocab = Err e.
Proof.
  apply (load_metadata_rejects_malformed MiniJson.loads _ empty_vocab
           ("{" +:+ quoted "file_name" +:+ ":" +:+ quoted "a" +:+ "," +:+
            quoted "objects" +:+ ":[]," +:+ quoted "relations" +:+ ":[]}")).
  - apply list_elem_of_further, list_elem_of_here.
  - reflexivity.
  - right. right.
    exists [("file_name", VStr "a"); ("objects", VList []); ("relations", VList [])],
           "caption".
    split; [reflexivity|]. split; [|reflexivity].
    unfold required_fields. rewrite !elem_of_cons. tauto.
Defined.

(** ** [load_metadata]: the vocabulary *)

Lemma resolved_predicates (objs : pyval) (rels sg ps : list pyval) :
  mapM (resolve_relation objs) rels = Ok sg ->
  mapM (fun rel => Py.getitem_int rel 1) rels = Ok ps ->
  ps = component 1 <$> sg.
Proof.
  revert sg ps. induction rels as [|rel rels IH]; intros sg ps; simpl.
  - by intros [= <-] [= <-].
  - destruct (resolve_relation objs rel) as [t|] eqn:Et; [|discriminate]. cbn [bind].
    destruct (mapM (resolve_relation objs) rels) as [ts|]; [|discriminate]. cbn [bind].
    intros [= <-].
    destruct (Py.getitem_int rel 1) as [p|] eqn:Ep; [|discriminate]. cbn [bind].
    destruct (mapM _ rels) as [ps'|]; [|discriminate]. cbn [bind].
    intros [= <-]. rewrite fmap_cons. f_equal; [|by apply IH].
    apply resolve_relation_names in Et
      as (a & b & i & j & subj & pred & obj & _ & _ & Hp & _ & _ & _ & _ & ->).
    cbn. congruence.
Qed.

Lemma load_entry_vocab (data : pyval) (st st' : vocab) (e : metadata_entry) :
  load_entry data st = Ok (e, st') ->
  object_list st' = remove_dups (object_list st ++ entry_objects e) /\
  predicate_list st' = remove_dups (predicate_list st ++ entry_predicates e).
Proof.
  unfold load_entry.
  destruct (Py.getitem_str data "objects") as [objs|]; [|discriminate]. cbn [bind].
  destruct (Py.getitem_str data "relations") as [rels_v|]; [|discriminate]. cbn [bind].
  destruct (Py.iter rels_v) as [rels|]; [|discriminate]. cbn [bind].
  destruct (mapM (resolve_relation objs) rels) as [sg|] eqn:Esg; [|discriminate].
  cbn [bind].
  destruct (Py.getitem_str data "file_name") as [fn|]; [|discriminate]. cbn [bind].
  destruct (Py.getitem_str data "caption") as [cap|]; [|discriminate]. cbn [bind].
  destruct (Py.iter objs) as [os|] eqn:Eos; [|discriminate]. cbn [bind].
  unfold set_update.
  destruct (forallb Py.hashable os); [|discriminate]. cbn [bind].
  destruct (mapM (fun rel => Py.getitem_int rel 1) rels) as [ps|] eqn:Eps; [|discriminate].
  cbn [bind].
  destruct (forallb Py.hashable ps); [|discriminate]. cbn [bind].
  intros [= <- <-]. unfold entry_objects, entry_predicates. cbn. rewrite Eos.
  by rewrite (resolved_predicates _ _ _ _ Esg Eps).
Qed.

Lemma load_lines_vocab (json_loads : string -> option pyval) (lines : list string) :
  forall acc st out st',
    foldM (load_line json_loads) (acc, st) lines = Ok (out, st') ->
    exists recs, out = acc ++ recs /\
      same_elements (object_list st')
                    (object_list st ++ concat (entry_objects <$> recs)) /\
      same_elements (predicate_list st')
                    (predicate_list st ++ concat (entry_predicates <$> recs)) /\
      (NoDup (object_list st) -> NoDup (object_list st')) /\
      (NoDup (predicate_list st) -> NoDup (predicate_list st')).
Proof.
  induction lines as [|line lines IH]; intros acc st out st'; simpl.
  - intros [= <- <-]. exists []. split; [by rewrite app_nil_r|].
    cbn. rewrite !app_nil_r. by repeat split.
  - unfold load_line at 1. destruct (Py.truthy _).
    + unfold loads. destruct (json_loads line) as [data|]; [|discriminate].
      cbn [bind fst snd].
      destruct (load_entry data st) as [[e st1]|] eqn:Ee; [|discriminate].
      cbn [bind fst snd]. intros Hrest.
      destruct (IH _ _ _ _ Hrest) as (recs & -> & Ho & Hp & Hno & Hnp).
      destruct (load_entry_vocab _ _ _ _ Ee) as [Eo Ep].
      exists (e :: recs). split; [by rewrite <- app_assoc|].
      rewrite !fmap_cons. cbn [concat].
      split; [|split; [|split]].
      * intros x. rewrite (Ho x), Eo, !elem_of_app, elem_of_remove_dups, !elem_of_app.
        split; [intros [[Hx|Hx]|Hx]|intros [Hx|[Hx|Hx]]]; auto.
      * intros x. rewrite (Hp x), Ep, !elem_of_app, elem_of_remove_dups, !elem_of_app.
        split; [intros [[Hx|Hx]|Hx]|intros [Hx|[Hx|Hx]]]; auto.
      * intros _. apply Hno. rewrite Eo. apply NoDup_remove_dups.
      * intros _. apply Hnp. rewrite Ep. apply NoDup_remove_dups.
    + cbn [bind]. apply IH.
Qed.

(** X5.  After a load that returns, the object vocabulary holds exactly
    what it held before together with the objects of every record, and the
    predicate vocabulary exactly what it held before together with the
    predicates of every resolved triple; neither gains a duplicate. *)
Theorem load_metadata_vocabulary
    (json_loads : string -> option pyval) (lines : list string) (st st' : vocab)
    (records : list metadata_entry) :
  load_metadata json_loads lines st = Ok (records, st') ->
  same_elements (object_list st')
                (object_list st ++ concat (entry_objects <$> records)) /\
  same_elements (predicate_list st')
                (predicate_list st ++ concat (entry_predicates <$> records)) /\
  (NoDup (object_list st) -> NoDup (object_list st')) /\
  (NoDup (predicate_list st) -> NoDup (predicate_list st')).
Proof.
  intros Hrun. unfold load_metadata in Hrun.
  destruct (load_lines_vocab json_loads lines _ _ _ _ Hrun) as (recs & -> & H).
  exact H.
Qed.

Lemma load_metadata_vocabulary_witness :
  same_elements [VStr "cat"; VStr "mat"]
                ([] ++ concat (entry_objects <$> [scenario_entry; scenario_entry])) /\
  same_elements [VStr "on"]
                ([] ++ concat (entry_predicates <$> [scenario_entry; scenario_entry])).
Proof.
  destruct (load_metadata_vocabulary MiniJson.loads [scenario_line; scenario_line]
              empty_vocab
              {| object_list := [VStr "cat"; VStr "mat"]; predicate_list := [VStr "on"] |}
              [scenario_entry; scenario_entry])
    as (Ho & Hp & _); [vm_compute; reflexivity|].
  split; [exact Ho|exact Hp].
Defined.

(** ** [load_metadata]: the records do not depend on the vocabulary *)

Lemma load_entry_any_vocab (data : pyval) (st st2 s1 : vocab) (e : metadata_entry) :
  load_entry data st = Ok (e, s1) -> exists s2, load_entry data st2 = Ok (e, s2).
Proof.
  unfold load_entry.
  destruct (Py.getitem_str data "objects") as [objs|]; [|discriminate]. cbn [bind].
  destruct (Py.getitem_str data "relations") as [rels_v|]; [|discriminate]. cbn [bind].
  destruct (Py.iter rels_v) as [rels|]; [|discriminate]. cbn [bind].
  destruct (mapM (resolve_relation objs) rels) as [sg|]; [|discriminate]. cbn [bind].
  destruct (Py.getitem_str data "file_name") as [fn|]; [|discriminate]. cbn [bind].
  destruct (Py.getitem_str data "caption") as [cap|]; [|discriminate]. cbn [bind].
  destruct (Py.iter objs) as [os|]; [|discriminate]. cbn [bind].
  unfold set_update.
  destruct (forallb Py.hashable os); [|discriminate]. cbn [bind].
  destruct (mapM (fun rel => Py.getitem_int rel 1) rels) as [ps|]; [|discriminate].
  cbn [bind].
  destruct (forallb Py.hashable ps); [|discriminate]. cbn [bind].
  intros [= <- <-]. eauto.
Qed.

Lemma load_lines_any_vocab (json_loads : string -> option pyval) (lines : list string) :
  forall acc st out st' st2,
    foldM (load_line json_loads) (acc, st) lines = Ok (out, st') ->
    exists st2', foldM (load_line json_loads) (acc, st2) lines = Ok (out, st2').
Proof.
  induction lines as [|line lines IH]; intros acc st out st' st2; simpl.
  - intros [= <- <-]. eauto.
  - unfold load_line at 1 3. destruct (Py.truthy _).
    + unfold loads. destruct (json_loads line) as [data|]; [|discriminate].
      cbn [bind fst snd].
      destruct (load_entry data st) as [[e s1]|] eqn:Ee; [|discriminate].
      destruct (load_entry_any_vocab data st st2 s1 e Ee) as [s2 ->].
      cbn [bind fst snd]. apply IH.
    + cbn [bind]. apply IH.
Qed.

(** X6.  The records a load returns do not depend on the vocabulary the
    evaluator holds when it starts: with any other vocabulary the load
    returns the same records.  Loading the same lines again, as each further
    method of a comparison does, returns the same records and leaves both
    vocabularies with the same elements. *)
Theorem load_metadata_reload
    (json_loads : string -> option pyval) (lines : list string) (st st1 : vocab)
    (records : list metadata_entry) :
  load_metadata json_loads lines st = Ok (records, st1) ->
  (forall st2, exists st2', load_metadata json_loads lines st2 = Ok (records, st2')) /\
  exists st3,
    load_metadata json_loads lines st1 = Ok (records, st3) /\
    same_elements (object_list st3) (object_list st1) /\
    same_elements (predicate_list st3) (predicate_list st1).
Proof.
  intros Hrun.
  assert (Hany : forall st2,
            exists st2', load_metadata json_loads lines st2 = Ok (records, st2')).
  { intros st2. by eapply load_lines_any_vocab. }
  split; [exact Hany|].
  destruct (Hany st1) as [st3 Hagain]. exists st3. split; [exact Hagain|].
  unfold load_metadata in Hrun, Hagain.
  destruct (load_lines_vocab _ _ _ _ _ _ Hrun) as (recs & Hr & Ho & Hp & _).
  destruct (load_lines_vocab _ _ _ _ _ _ Hagain) as (recs' & Hr' & Ho' & Hp' & _).
  cbn [app] in Hr, Hr'. subst recs recs'.
  split; intros x.
  - rewrite (Ho' x), elem_of_app, (Ho x), elem_of_app. tauto.
  - rewrite (Hp' x), elem_of_app, (Hp x), elem_of_app. tauto.
Qed.

Lemma load_metadata_reload_witness :
  exists st3,
    load_metadata MiniJson.loads [scenario_line]
      {| object_list := [VStr "cat"; VStr "mat"]; predicate_list := [VStr "on"] |}
      = Ok ([scenario_entry], st3) /\
    same_elements (object_list st3) [VStr "cat"; VStr "mat"].
Proof.
  destruct (load_metadata_reload MiniJson.loads [scenario_line] empty_vocab
              {| object_list := [VStr "cat"; VStr "mat"]; predicate_list := [VStr "on"] |}
              [scenario_entry])
    as (_ & st3 & Hrun & Ho & _); [vm_compute; reflexivity|].
  exists st3. split; [exact Hrun|exact Ho].
Defined.

(** ** [load_metadata]: indices written as strings *)

(** X7.  A relation whose indices are written as strings of digits, each
    of at most 4300 digits, resolves exactly like the relation with the
    integers they denote; when one of the two strings has more digits,
    [int] refuses it and the relation raises [ValueError]. *)
Theorem resolve_relation_string_indices (objs pred : pyval) (s t : string)
    (rest : list pyval) :
  Py.isdigit s = true -> Py.isdigit t = true ->
  resolve_relation objs (VList (VStr s :: pred :: VStr t :: rest))
  = if within_digit_limit s && within_digit_limit t
    then resolve_relation objs
           (VList (VInt (decimal s) :: pred :: VInt (decimal t) :: rest))
    else Err ValueError.
Proof.
  intros Hs Ht. unfold resolve_relation.
  change (Py.getitem_int (VList (VStr s :: pred :: VStr t :: rest)) 0)
    with (Ok (A:=pyval) (VStr s)).
  change (Py.getitem_int (VList (VStr s :: pred :: VStr t :: rest)) 1)
    with (Ok (A:=pyval) pred).
  change (Py.getitem_int (VList (VStr s :: pred :: VStr t :: rest)) 2)
    with (Ok (A:=pyval) (VStr t)).
  change (Py.getitem_int (VList (VInt (decimal s) :: pred :: VInt (decimal t) :: rest)) 0)
    with (Ok (A:=pyval) (VInt (decimal s))).
  change (Py.getitem_int (VList (VInt (decimal s) :: pred :: VInt (decimal t) :: rest)) 1)
    with (Ok (A:=pyval) pred).
  change (Py.getitem_int (VList (VInt (decimal s) :: pred :: VInt (decimal t) :: rest)) 2)
    with (Ok (A:=pyval) (VInt (decimal t))).
  cbn [bind Py.int]. rewrite (int_of_str_digits s Hs), (int_of_str_digits t Ht).
  destruct (within_digit_limit s); [|reflexivity]. cbn [bind andb].
  destruct (within_digit_limit t); reflexivity.
Qed.

Lemma resolve_relation_string_indices_witness :
  resolve_relation (VList [VStr "cat"; VStr "mat"])
                   (VList [VStr "01"; VStr "on"; VStr "0"])
  = Ok (VList [VStr "mat"; VStr "on"; VStr "cat"]).
Proof.
  rewrite (resolve_relation_string_indices (VList [VStr "cat"; VStr "mat"])
             (VStr "on") "01" "0" []); reflexivity.
Defined.

(** ** [extract_scene_graph_from_image]: what it returns *)

Lemma parse_reply_checked (json_loads : string -> option pyval) (text : string)
    (v : pyval) :
  parse_reply json_loads text = Ok v ->
  Py.contains "scene_graph" v = Ok true /\ Py.contains "entities" v = Ok true.
Proof.
  unfold parse_reply.
  destruct (unfence text) as [t|]; [|discriminate]. cbn [bind].
  destruct (loads json_loads t) as [result|]; [|discriminate]. cbn [bind].
  destruct (Py.contains "scene_graph" result) as [[|]|] eqn:E1; try discriminate.
  cbn [bind negb].
  destruct (Py.contains "entities" result) as [[|]|] eqn:E2; try discriminate.
  cbn [bind negb]. by intros [= <-].
Qed.

(** X8.  With a vocabulary that can be sorted, the extraction never raises,
    whatever the oracle does: it returns either the empty prediction or the
    parsed reply, and in both cases a value for which the two membership
    tests ["scene_graph" in v] and ["entities" in v] hold. *)
Theorem extract_never_raises
    (json_loads : string -> option pyval) (oracle : vocab -> string -> option string)
    (st : vocab) (image_path : string) :
  sorted_ok (object_list st) && sorted_ok (predicate_list st) = true ->
  exists v,
    extract_scene_graph_from_image json_loads oracle st image_path = Ok v /\
    Py.contains "scene_graph" v = Ok true /\
    Py.contains "entities" v = Ok true /\
    (v = empty_prediction \/
     exists text, oracle st image_path = Some text /\
                  parse_reply json_loads text = Ok v).
Proof.
  intros Hs. unfold extract_scene_graph_from_image. rewrite Hs.
  destruct (oracle st image_path) as [text|].
  - destruct (parse_reply json_loads text) as [v|e] eqn:Ep.
    + destruct (parse_reply_checked _ _ _ Ep) as [H1 H2].
      exists v. repeat split; try done. right. by exists text.
    + exists empty_prediction. repeat split; try done. by left.
  - exists empty_prediction. repeat split; try done. by left.
Qed.

Lemma extract_never_raises_witness :
  exists v,
    extract_scene_graph_from_image MiniJson.loads (constant_oracle "no json here")
      {| object_list := [VStr "cat"; VStr "mat"]; predicate_list := [VStr "on"] |}
      "out/000.png" = Ok v /\
    Py.contains "scene_graph" v = Ok true.
Proof.
  destruct (extract_never_raises MiniJson.loads (constant_oracle "no json here")
              {| object_list := [VStr "cat"; VStr "mat"]; predicate_list := [VStr "on"] |}
              "out/000.png") as (v & Hv & H1 & _); [reflexivity|].
  exists v. split; [exact Hv|exact H1].
Defined.

Lemma sorted_ok_mixed (s : list pyval) (x y : pyval) :
  x ∈ s -> y ∈ s -> is_str x = true -> is_str y = false -> sorted_ok s = false.
Proof.
  intros Hx Hy Sx Sy. unfold sorted_ok.
  assert (Hlen : (length s <=? 1)%nat = false).
  { apply Nat.leb_gt. destruct s as [|a [|b s]]; [by apply elem_of_nil in Hx| |simpl; lia].
    apply list_elem_of_singleton in Hx, Hy. congruence. }
  assert (Hstr : forallb is_str s = false).
  { destruct (forallb is_str s) eqn:E; [|done]. rewrite forallb_forall in E.
    rewrite (E y) in Sy; [done|by apply list_elem_of_In]. }
  assert (Hint : forallb is_int s = false).
  { destruct (forallb is_int s) eqn:E; [|done]. rewrite forallb_forall in E.
    assert (Hi : is_int x = true) by (apply E; by apply list_elem_of_In).
    by destruct x. }
  by rewrite Hlen, Hstr, Hint.
Qed.

(** X9.  When the object vocabulary holds a string together with a value
    that is not a string (an integer or null taken from some [objects]
    list), sorting it for the prompt raises [TypeError] outside the [try]:
    every extraction raises, and an evaluation aborts at the first image
    that matches a record. *)
Theorem mixed_vocabulary_aborts
    (json_loads : string -> option pyval) (oracle : vocab -> string -> option string)
    (st0 st : vocab) (lines image_files : list string)
    (records : list metadata_entry) (image_path : string) (x y : pyval) :
  load_metadata json_loads lines st0 = Ok (records, st) ->
  x ∈ object_list st -> y ∈ object_list st ->
  is_str x = true -> is_str y = false ->
  image_path ∈ image_files ->
  is_Some (matching_meta records (scene_idx_of (Py.basename image_path))) ->
  (forall path, extract_scene_graph_from_image json_loads oracle st path
                = Err TypeError) /\
  exists e, evaluate_method json_loads oracle st0 lines image_files = Err e.
Proof.
  intros Hload Hx Hy Sx Sy Hin [[i meta] Hmeta].
  assert (Hext : forall path,
            extract_scene_graph_from_image json_loads oracle st path = Err TypeError).
  { intros path. unfold extract_scene_graph_from_image.
    by rewrite (sorted_ok_mixed _ x y Hx Hy Sx Sy). }
  split; [exact Hext|].
  unfold evaluate_method. rewrite Hload. cbn [bind fst snd].
  pose proof (foldM_fails (evaluate_step json_loads oracle st records)
                image_files image_path Hin) as Hfail.
  destruct (foldM _ loop_init image_files) as [s|e] eqn:E; [|by exists e].
  specialize (Hfail (fun s => ltac:(unfold evaluate_step, evaluate_image;
                                    rewrite Hmeta, Hext; done)) loop_init).
  rewrite E in Hfail. discriminate Hfail.
Qed.

Lemma mixed_vocabulary_aborts_witness :
  exists e,
    evaluate_method MiniJson.loads failing_oracle empty_vocab
      [mixed_objects_line] ["out/000.png"] = Err e.
Proof.
  eapply (mixed_vocabulary_aborts MiniJson.loads failing_oracle empty_vocab
            {| object_list := [VStr "cat"; VInt 3]; predicate_list := [] |}
            [mixed_objects_line] ["out/000.png"] _ "out/000.png"
            (VStr "cat") (VInt 3)).
  - vm_compute. reflexivity.
  - apply list_elem_of_here.
  - apply list_elem_of_further, list_elem_of_here.
  - reflexivity.
  - reflexivity.
  - apply list_elem_of_here.
  - eexists. reflexivity.
Defined.

(** ** [extract_scene_graph_from_image]: fenced replies *)

Lemma rev_app_of_append (s t u : string) :
  String.rev_app (s +:+ t) u = String.rev_app t (String.rev_app s u).
Proof.
  revert u. induction s as [|c s IH]; intros u; [done|].
  change (String c s +:+ t) with (String c (s +:+ t)). simpl. by rewrite IH.
Qed.

Lemma strip_fenced (body : string) : Py.strip (fenced body) = fenced body.
Proof.
  unfold Py.strip, Py.rstrip, fenced.
  change (Py.lstrip ("```" +:+ body +:+ "```")) with ("```" +:+ body +:+ "```").
  assert (Hrev : exists r, String.rev ("```" +:+ body +:+ "```") = String "`" r).
  { unfold String.rev.
    change ("```" +:+ body +:+ "```") with (String "`" (String "`" (String "`" (body +:+ "```")))).
    cbn [String.rev_app]. rewrite rev_app_of_append. cbn [String.rev_app]. eauto. }
  destruct Hrev as [r Hr]. rewrite Hr.
  change (Py.lstrip (String "`" r)) with (String "`" r).
  rewrite <- Hr. apply rev_involutive.
Qed.

Lemma split_fence_tail (body cur : string) :
  no_backtick body = true ->
  Py.split_go "```" 0 cur (body +:+ "```") = [String.rev cur +:+ body; EmptyString].
Proof.
  revert cur. induction body as [|c body IH]; intros cur Hb.
  - change (EmptyString +:+ "```") with "```". cbn. by rewrite append_nil_r.
  - change (String c body +:+ "```") with (String c (body +:+ "```")).
    cbn [no_backtick] in Hb. apply andb_true_iff in Hb as [Hc Hb].
    cbn [Py.split_go String.prefix].
    destruct (ascii_dec "`" c) as [<-|_]; [done|].
    rewrite (IH (String c cur) Hb). unfold String.rev. simpl.
    by rewrite !rev_app_append.
Qed.

Lemma prefix_fenced (body : string) : String.prefix "```" (fenced body) = true.
Proof.
  unfold fenced.
  change ("```" +:+ body +:+ "```")
    with (String "`" (String "`" (String "`" (body +:+ "```")))).
  cbn [String.prefix]. destruct (ascii_dec "`" "`") as [_|?]; [|done].
  by destruct (body +:+ "```").
Qed.

Lemma split_go_at_separator (sep cur s : string) (c : ascii) :
  String.prefix sep (String c s) = true ->
  Py.split_go sep 0 cur (String c s)
  = String.rev cur :: Py.split_go sep (String.length sep - 1) EmptyString s.
Proof. intros H. cbn [Py.split_go]. by rewrite H. Qed.

(** X10.  A reply wrapped in a Markdown fence, with or without the [json]
    tag and with no backtick inside, is reduced to its stripped content
    before it is parsed. *)
Theorem unfence_fenced (body : string) :
  no_backtick body = true ->
  unfence (fenced body)
  = Ok (Py.strip (if Py.startswith "json" body then Py.drop 4 body else body)).
Proof.
  intros Hb. unfold unfence. rewrite strip_fenced.
  assert (Hsplit : Py.split "```" (fenced body) = [EmptyString; body; EmptyString]).
  { unfold Py.split. pose proof (prefix_fenced body) as Hpre. unfold fenced in *.
    change ("```" +:+ body +:+ "```")
      with (String "`" (String "`" (String "`" (body +:+ "```")))) in *.
    rewrite (split_go_at_separator _ _ _ _ Hpre).
    change (String.length "```" - 1)%nat with 2%nat.
    cbn [Py.split_go]. by rewrite (split_fence_tail body EmptyString Hb). }
  unfold Py.startswith at 1. rewrite prefix_fenced, Hsplit.
  reflexivity.
Qed.

Lemma unfence_fenced_witness :
  unfence (fenced ("json" +:+ String "010" reply_cat_dog +:+ String "010" EmptyString))
  = Ok reply_cat_dog.
Proof.
  rewrite (unfence_fenced ("json" +:+ String "010" reply_cat_dog +:+ String "010" EmptyString));
    reflexivity.
Defined.

(** ** [evaluate_image]: the two ends of the scale *)

(** X11.  When the oracle raises or its reply is refused, the image is
    scored as an empty prediction: all three scores are 0 when the ground
    truth has triples, and all three are 1 when the ground truth is empty
    too. *)
Theorem oracle_failure_scores
    (json_loads : string -> option pyval) (oracle : vocab -> string -> option string)
    (st : vocab) (image_path : string) (gt : list pyval) :
  is_graph gt = true ->
  sorted_ok (object_list st) && sorted_ok (predicate_list st) = true ->
  oracle st image_path = None \/
  (exists text, oracle st image_path = Some text /\
                is_ok (parse_reply json_loads text) = false) ->
  exists m,
    evaluate_image json_loads oracle st image_path gt = Ok m /\
    m_predicted_sg m = VList [] /\ m_predicted_entities m = VList [] /\
    (gt = [] -> m_sg_iou m = 1 /\ m_entity_iou m = 1 /\ m_relation_iou m = 1) /\
    (gt <> [] -> m_sg_iou m = 0 /\ m_entity_iou m = 0 /\ m_relation_iou m = 0).
Proof.
  intros Hgt Hs Hfail.
  pose proof (extract_recovers json_loads oracle st image_path Hs Hfail) as Hext.
  eexists. split; [by apply empty_prediction_scored|].
  cbn [m_predicted_sg m_predicted_entities m_sg_iou m_entity_iou m_relation_iou].
  split; [done|]. split; [done|]. split.
  - by intros ->.
  - intros Hne. destruct gt as [|t gt]; [done|]. done.
Qed.

Lemma oracle_failure_scores_witness :
  exists m,
    evaluate_image MiniJson.loads failing_oracle empty_vocab "out/000.png"
      (scene_graph scenario_entry) = Ok m /\
    m_sg_iou m = 0 /\ m_entity_iou m = 0 /\ m_relation_iou m = 0.
Proof.
  destruct (oracle_failure_scores MiniJson.loads failing_oracle empty_vocab
              "out/000.png" (scene_graph scenario_entry))
    as (m & Hm & _ & _ & _ & Hzero); [reflexivity|reflexivity|by left|].
  exists m. split; [exact Hm|]. by apply Hzero.
Defined.

Lemma setIoU_spec_one_iff (a b : list pyval) :
  setIoU_spec a b == 1 <-> same_elements a b.
Proof.
  destruct a as [|x a], b as [|y b].
  - split; [by intros _ z|done].
  - split; [done|]. intros H. exfalso. eapply elem_of_nil. apply H. by left.
  - split; [done|]. intros H. exfalso. eapply elem_of_nil. apply H. by left.
  - unfold setIoU_spec. rewrite ratio_eq_one by (by apply card_union_pos).
    apply card_inter_eq_union.
Qed.

Lemma same_elements_fmap (f : pyval -> pyval) (a b : list pyval) :
  same_elements a b -> same_elements (f <$> a) (f <$> b).
Proof.
  intros H x. rewrite !list_elem_of_fmap. split; intros (y & -> & Hy); exists y;
    (split; [done|]); by apply H.
Qed.

(** X12.  For a prediction made of string triples and an entity list of
    strings, [sg_iou] is 1 exactly when prediction and ground truth hold the
    same triples, [entity_iou] is 1 exactly when the entity list names
    exactly the subjects and objects of the ground truth, and a prediction
    with the same triples also has [relation_iou] 1. *)
Theorem perfect_prediction
    (json_loads : string -> option pyval) (oracle : vocab -> string -> option string)
    (st : vocab) (image_path : string)
    (gt psg ents : list pyval) (d : list (string * pyval)) :
  is_graph gt = true -> is_graph psg = true -> is_str_list ents = true ->
  extract_scene_graph_from_image json_loads oracle st image_path = Ok (VDict d) ->
  Py.assoc "scene_graph" d = Some (VList psg) ->
  Py.assoc "entities" d = Some (VList ents) ->
  exists m,
    evaluate_image json_loads oracle st image_path gt = Ok m /\
    (m_sg_iou m == 1 <-> same_elements gt psg) /\
    (m_entity_iou m == 1 <-> same_elements (subjects_of gt ++ objects_of gt) ents) /\
    (same_elements gt psg -> m_relation_iou m == 1).
Proof.
  intros Hgt Hpsg Hents Hext Hsg Hen.
  eexists. split.
  - unfold evaluate_image. rewrite Hext. cbn [bind].
    by apply (score_prediction_graph gt psg ents d).
  - cbn [m_sg_iou m_entity_iou m_relation_iou].
    split; [apply setIoU_spec_one_iff|]. split; [apply setIoU_spec_one_iff|].
    intros Hsame. apply setIoU_spec_one_iff. by apply same_elements_fmap.
Qed.

Lemma perfect_prediction_witness :
  exists m,
    evaluate_image MiniJson.loads (constant_oracle reply_cat_dog) empty_vocab
      "out/000.png" (scene_graph scenario_entry) = Ok m /\
    m_sg_iou m == 1 /\ m_relation_iou m == 1.
Proof.
  destruct (perfect_prediction MiniJson.loads (constant_oracle reply_cat_dog)
              empty_vocab "out/000.png"
              (scene_graph scenario_entry)
              [VList [VStr "cat"; VStr "on"; VStr "mat"]] [VStr "dog"]
              [("scene_graph", VList [VList [VStr "cat"; VStr "on"; VStr "mat"]]);
               ("entities", VList [VStr "dog"])])
    as (m & Hm & Hs & _ & Hr); try reflexivity.
  exists m. split; [exact Hm|]. split; [by apply Hs|by apply Hr].
Defined.

(** ** [evaluate_method]: the image loop *)

Lemma seq_get_nonneg_inv {A : Type} (l : list A) (i : Z) (x : A) :
  (0 <= i)%Z -> Py.seq_get l i = Ok x ->
  l !! Z.to_nat i = Some x /\ (i < Z.of_nat (length l))%Z.
Proof.
  intros Hi. unfold Py.seq_get.
  destruct (Z.ltb_spec i 0) as [?|_]; [lia|].
  destruct (Z.ltb_spec i 0) as [?|_]; [lia|].
  destruct (l !! Z.to_nat i) as [y|] eqn:E; [|discriminate].
  intros [= <-]. split; [done|]. apply lookup_lt_Some in E. lia.
Qed.

Lemma matching_meta_inv (records : list metadata_entry) (o : option Z)
    (i : Z) (meta : metadata_entry) :
  matching_meta records o = Some (i, meta) ->
  o = Some i /\ Py.seq_get records i = Ok meta.
Proof.
  unfold matching_meta. destruct o as [j|]; [|discriminate].
  destruct (j <? Z.of_nat (length records))%Z; [|discriminate].
  destruct (Py.seq_get records j) as [m|] eqn:E; [|discriminate].
  by intros [= <- <-].
Qed.

Lemma score_prediction_unit (gt : list pyval) (extracted : pyval) (m : metrics) :
  score_prediction gt extracted = Ok m ->
  0 <= m_sg_iou m <= 1 /\ 0 <= m_entity_iou m <= 1 /\ 0 <= m_relation_iou m <= 1.
Proof.
  unfold score_prediction.
  destruct (Py.getitem_str extracted "scene_graph") as [psg|]; [|discriminate].
  cbn [bind].
  destruct (Py.getitem_str extracted "entities") as [pe|]; [|discriminate]. cbn [bind].
  destruct (column 0 gt) as [subs|]; [|discriminate]. cbn [bind].
  destruct (column 2 gt) as [obs|]; [|discriminate]. cbn [bind].
  destruct (Py.set_of (subs ++ obs)) as [ents|]; [|discriminate]. cbn [bind].
  destruct (column 1 gt) as [rels|]; [|discriminate]. cbn [bind].
  destruct (if Py.truthy psg then _ else _) as [prels|]; [|discriminate]. cbn [bind].
  destruct (compute_iou (VList gt) psg) as [q1|] eqn:E1; [|discriminate]. cbn [bind].
  destruct (compute_iou (VList ents) pe) as [q2|] eqn:E2; [|discriminate]. cbn [bind].
  destruct (compute_iou (VList rels) (VList prels)) as [q3|] eqn:E3; [|discriminate].
  cbn [bind]. intros [= <-].
  cbn [m_sg_iou m_entity_iou m_relation_iou].
  split; [exact (compute_iou_unit_interval _ _ _ E1)|].
  split; [exact (compute_iou_unit_interval _ _ _ E2)|].
  exact (compute_iou_unit_interval _ _ _ E3).
Qed.

Section LoopProperties.
Variable json_loads : string -> option pyval.
Variable oracle : vocab -> string -> option string.

Lemma evaluate_step_cases (st : vocab) (records : list metadata_entry)
    (s s' : loop_state) (img_path : string) :
  evaluate_step json_loads oracle st records s img_path = Ok s' ->
  (resolvable records img_path = false /\ s' = skip_image s) \/
  (resolvable records img_path = true /\
   exists i meta m,
     matching_meta records (scene_idx_of (Py.basename img_path)) = Some (i, meta) /\
     evaluate_image json_loads oracle st img_path (scene_graph meta) = Ok m /\
     s' = record_image s (Py.basename img_path) i meta m).
Proof.
  unfold evaluate_step, resolvable.
  destruct (matching_meta _ _) as [[i meta]|] eqn:Em.
  - destruct (evaluate_image _ _ _ _ _) as [m|] eqn:Ei; [|discriminate]. cbn [bind].
    intros [= <-]. right. split; [done|]. by exists i, meta, m.
  - intros [= <-]. by left.
Qed.

Lemma recorded_image_good (st : vocab) (records : list metadata_entry)
    (s : loop_state) (img_path : string) (i : Z) (meta : metadata_entry) (m : metrics) :
  matching_meta records (scene_idx_of (Py.basename img_path)) = Some (i, meta) ->
  evaluate_image json_loads oracle st img_path (scene_graph meta) = Ok m ->
  exists r,
    results (record_image s (Py.basename img_path) i meta m) = results s ++ [r] /\
    image r = Py.basename img_path /\ joined records r /\ unit_scores r.
Proof.
  intros Hm Hi. eexists. split; [reflexivity|]. split; [reflexivity|].
  apply matching_meta_inv in Hm as [Hidx Hget].
  pose proof (scene_idx_of_nonneg _ _ Hidx) as Hpos.
  destruct (seq_get_nonneg_inv _ _ _ Hpos Hget) as [Hlook Hlt].
  split.
  - unfold joined. cbn. split; [done|]. split; [lia|]. by exists meta.
  - unfold unit_scores. cbn. unfold evaluate_image in Hi.
    destruct (extract_scene_graph_from_image _ _ _ _) as [ex|]; [|discriminate].
    by apply (score_prediction_unit _ _ _ Hi).
Qed.

Lemma evaluate_loop_records (st : vocab) (records : list metadata_entry)
    (image_files : list string) :
  forall s s',
    foldM (evaluate_step json_loads oracle st records) s image_files = Ok s' ->
    exists new,
      results s' = results s ++ new /\
      image <$> new = Py.basename <$> filter (fun p => resolvable records p = true) image_files /\
      Forall (joined records) new /\ Forall unit_scores new /\
      evaluated s' = (evaluated s + length new)%nat /\
      (skipped s' + length new = skipped s + length image_files)%nat.
Proof.
  induction image_files as [|img imgs IH]; intros s s'; simpl.
  - intros [= <-]. exists []. rewrite app_nil_r. repeat split; (done || constructor || lia).
  - destruct (evaluate_step _ _ _ _ s img) as [s1|] eqn:E; [|discriminate]. cbn [bind].
    intros Hrest. destruct (IH _ _ Hrest) as (new & Hres & Himg & Hj & Hu & He & Hs).
    rewrite filter_cons.
    apply evaluate_step_cases in E as [[Hno ->]|(Hyes & i & meta & m & Hm & Hi & ->)].
    + exists new. rewrite decide_False by (by rewrite Hno).
      cbn in *. repeat split; (done || lia).
    + destruct (recorded_image_good st records s img i meta m Hm Hi)
        as (r & Hr & Hname & Hjr & Hur).
      exists (r :: new). rewrite decide_True by done.
      rewrite Hres, Hr, <- app_assoc. split; [done|].
      rewrite !fmap_cons, Himg, Hname. split; [done|].
      split; [by constructor|]. split; [by constructor|].
      cbn in *. lia.
Qed.
End LoopProperties.

Lemma py_sum_bounds (f : score_record -> Q) (rs : list score_record) :
  Forall (fun r => 0 <= f r <= 1) rs ->
  0 <= py_sum f rs <= inject_Z (Z.of_nat (length rs)).
Proof.
  induction rs as [|r rs IH] using rev_ind; intros Hall.
  - split; apply Qle_refl.
  - apply Forall_app in Hall as [Hrs Hr]. apply Forall_singleton in Hr as [Hr0 Hr1].
    destruct (IH Hrs) as [H0 H1]. rewrite py_sum_snoc, length_app. cbn [length].
    rewrite Nat2Z.inj_add, inject_Z_plus. split.
    + rewrite <- (Qplus_0_r 0). by apply Qplus_le_compat.
    + by apply Qplus_le_compat.
Qed.

Lemma guarded_mean_unit (total : Q) (n : nat) :
  0 <= total <= inject_Z (Z.of_nat n) -> 0 <= guarded_mean total n <= 1.
Proof.
  intros [H0 H1]. unfold guarded_mean.
  destruct (Nat.ltb_spec 0 n) as [Hn|_]; [|split; [apply Qle_refl|discriminate]].
  assert (Hpos : 0 < inject_Z (Z.of_nat n)).
  { change 0 with (inject_Z 0). rewrite <- Zlt_Qlt. lia. }
  split.
  - apply Qle_shift_div_l; [done|]. by rewrite Qmult_0_l.
  - apply Qle_shift_div_r; [done|]. by rewrite Qmult_1_l.
Qed.

Section MethodProperties.
Variable json_loads : string -> option pyval.
Variable oracle : vocab -> string -> option string.

Lemma evaluate_method_inv (st st' : vocab) (lines image_files : list string)
    (out : method_output) :
  evaluate_method json_loads oracle st lines image_files = Ok (out, st') ->
  exists records s,
    load_metadata json_loads lines st = Ok (records, st') /\
    foldM (evaluate_step json_loads oracle st' records) loop_init image_files = Ok s /\
    per_image_results out = results s /\
    out_evaluated out = evaluated s /\ out_skipped out = skipped s /\
    n_images (out_average_metrics out) = length (results s).
Proof.
  unfold evaluate_method.
  destruct (load_metadata json_loads lines st) as [[records st1]|] eqn:El;
    [|discriminate]. cbn [bind fst snd].
  destruct (foldM _ loop_init image_files) as [s|] eqn:Eloop; [|discriminate].
  cbn [bind]. intros [= <- <-]. by exists records, s.
Qed.

(** X13.  When an evaluation returns, its records are, in order, those of
    the image files that found a metadata entry, each under its base name;
    every image file was either evaluated or skipped, and the number of
    evaluated images is the number of records and the reported [n_images]. *)
Theorem evaluate_method_accounting (st st' : vocab) (lines image_files : list string)
    (out : method_output) :
  evaluate_method json_loads oracle st lines image_files = Ok (out, st') ->
  exists records,
    load_metadata json_loads lines st = Ok (records, st') /\
    image <$> per_image_results out
      = Py.basename <$> filter (fun p => resolvable records p = true) image_files /\
    out_evaluated out = length (per_image_results out) /\
    n_images (out_average_metrics out) = length (per_image_results out) /\
    (out_evaluated out + out_skipped out = length image_files)%nat.
Proof.
  intros Hrun.
  destruct (evaluate_method_inv _ _ _ _ _ Hrun)
    as (records & s & Hload & Hloop & -> & -> & -> & ->).
  destruct (evaluate_loop_records json_loads oracle _ _ _ _ _ Hloop)
    as (new & Hres & Himg & _ & _ & He & Hs).
  cbn in Hres, He, Hs. subst new.
  exists records. repeat split; (done || lia).
Qed.

(** X14.  Every record of an evaluation that returns carries the scene
    index read off its own image name; that index is a position of the
    loaded metadata, and the record's ground truth and caption are those of
    the entry at that position. *)
Theorem evaluate_method_join (st st' : vocab) (lines image_files : list string)
    (out : method_output) :
  evaluate_method json_loads oracle st lines image_files = Ok (out, st') ->
  exists records,
    load_metadata json_loads lines st = Ok (records, st') /\
    Forall (joined records) (per_image_results out).
Proof.
  intros Hrun.
  destruct (evaluate_method_inv _ _ _ _ _ Hrun)
    as (records & s & Hload & Hloop & -> & _).
  destruct (evaluate_loop_records json_loads oracle _ _ _ _ _ Hloop)
    as (new & Hres & _ & Hj & _).
  cbn in Hres. subst new. by exists records.
Qed.

(** X15.  In an evaluation that returns, the three scores of every record
    and the three reported averages lie in [0, 1]. *)
Theorem evaluate_method_unit_interval (st st' : vocab)
    (lines image_files : list string) (out : method_output) :
  evaluate_method json_loads oracle st lines image_files = Ok (out, st') ->
  Forall unit_scores (per_image_results out) /\
  0 <= avg_sg_iou (out_average_metrics out) <= 1 /\
  0 <= avg_entity_iou (out_average_metrics out) <= 1 /\
  0 <= avg_relation_iou (out_average_metrics out) <= 1.
Proof.
  intros Hrun.
  destruct (evaluate_method_averages json_loads oracle _ _ _ _ _ Hrun)
    as (_ & H1 & H2 & H3).
  destruct (evaluate_method_inv _ _ _ _ _ Hrun)
    as (records & s & Hload & Hloop & Hout & _).
  destruct (evaluate_loop_records json_loads oracle _ _ _ _ _ Hloop)
    as (new & Hres & _ & _ & Hu & _).
  cbn in Hres. subst new. rewrite <- Hout in Hu.
  split; [exact Hu|]. rewrite H1, H2, H3.
  repeat split; apply guarded_mean_unit, py_sum_bounds;
    (eapply Forall_impl; [exact Hu|]); intros r (Ha & Hb & Hc); assumption.
Qed.
End MethodProperties.

Lemma evaluate_method_accounting_witness :
  exists out st',
    evaluate_method MiniJson.loads failing_oracle empty_vocab
      [scenario_line] ["out/000_1.png"; "out/foo.png"] = Ok (out, st') /\
    (out_evaluated out + out_skipped out = 2)%nat /\
    n_images (out_average_metrics out) = length (per_image_results out).
Proof.
  destruct (evaluate_method MiniJson.loads failing_oracle empty_vocab
              [scenario_line] ["out/000_1.png"; "out/foo.png"])
    as [[out st']|] eqn:Erun; [|vm_compute in Erun; discriminate Erun].
  exists out, st'. split; [reflexivity|].
  destruct (evaluate_method_accounting MiniJson.loads failing_oracle _ _ _ _ _ Erun)
    as (records & _ & _ & _ & Hn & Hsum).
  split; [exact Hsum|exact Hn].
Defined.

Lemma evaluate_method_join_witness :
  exists out st' records,
    evaluate_method MiniJson.loads failing_oracle empty_vocab
      [scenario_line] ["out/000_1.png"; "out/foo.png"] = Ok (out, st') /\
    Forall (joined records) (per_image_results out).
Proof.
  destruct (evaluate_method MiniJson.loads failing_oracle empty_vocab
              [scenario_line] ["out/000_1.png"; "out/foo.png"])
    as [[out st']|] eqn:Erun; [|vm_compute in Erun; discriminate Erun].
  destruct (evaluate_method_join MiniJson.loads failing_oracle _ _ _ _ _ Erun)
    as (records & _ & Hj).
  exists out, st', records. split; [reflexivity|exact Hj].
Defined.

Lemma evaluate_method_unit_interval_witness :
  exists out st',
    evaluate_method MiniJson.loads (constant_oracle reply_cat_dog) empty_vocab
      [scenario_line] ["out/000_1.png"; "out/000_2.png"] = Ok (out, st') /\
    0 <= avg_entity_iou (out_average_metrics out) <= 1.
Proof.
  destruct (evaluate_method MiniJson.loads (constant_oracle reply_cat_dog) empty_vocab
              [scenario_line] ["out/000_1.png"; "out/000_2.png"])
    as [[out st']|] eqn:Erun; [|vm_compute in Erun; discriminate Erun].
  exists out, st'. split; [reflexivity|].
  by apply (evaluate_method_unit_interval MiniJson.loads
              (constant_oracle reply_cat_dog) _ _ _ _ _ Erun).
Defined.

(** ** [load_metadata]: scene ids and blank lines *)

Lemma filter_split_count (lines : list string) :
  (length (filter (fun l => nonblank l = true) lines)
   + length (filter (fun l => nonblank l = false) lines) = length lines)%nat.
Proof.
  induction lines as [|l lines IH]; [done|].
  rewrite !filter_cons. destruct (nonblank l) eqn:E.
  - rewrite decide_True, decide_False by done. simpl. lia.
  - rewrite decide_False, decide_True by done. simpl. lia.
Qed.

(** X16.  In a load that returns, the record of the non-blank line at
    position [i] of the file sits at the position obtained by not counting
    the blank lines before it: blank lines take no scene id, and every blank
    line shifts the ids of the lines after it down by one. *)
Theorem load_metadata_scene_id
    (json_loads : string -> option pyval) (lines : list string) (st st' : vocab)
    (records : list metadata_entry) (i : nat) (line : string) :
  load_metadata json_loads lines st = Ok (records, st') ->
  lines !! i = Some line -> nonblank line = true ->
  (scene_id_at lines i + blanks_before lines i = i)%nat /\
  exists e, records !! scene_id_at lines i = Some e /\ loaded_from json_loads line e.
Proof.
  intros Hrun Hi Hnb. split.
  - unfold scene_id_at, blanks_before. rewrite filter_split_count, length_take.
    apply lookup_lt_Some in Hi. lia.
  - unfold load_metadata in Hrun.
    destruct (load_lines_sound json_loads lines [] st records st' Hrun)
      as (recs & -> & Hrecs). cbn [app].
    assert (Hpos : filter (fun l => nonblank l = true) lines !! scene_id_at lines i
                   = Some line).
    { assert (Hsplit : filter (fun l => nonblank l = true) lines
                       = filter (fun l => nonblank l = true) (take i lines)
                         ++ line :: filter (fun l => nonblank l = true) (drop (S i) lines)).
      { pose proof (take_drop_middle lines i line Hi) as Hmid.
        rewrite <- Hmid at 1.
        by rewrite filter_app, filter_cons, decide_True by done. }
      rewrite Hsplit. unfold scene_id_at.
      by rewrite lookup_app_r, Nat.sub_diag by lia. }
    destruct (Forall2_lookup_l _ _ _ _ _ Hrecs Hpos) as (e & He & Hfrom).
    by exists e.
Qed.

Lemma load_metadata_scene_id_witness :
  exists e,
    [scenario_entry] !! scene_id_at [" "; scenario_line] 1 = Some e /\
    loaded_from MiniJson.loads scenario_line e.
Proof.
  destruct (load_metadata_scene_id MiniJson.loads [" "; scenario_line] empty_vocab
              {| object_list := [VStr "cat"; VStr "mat"]; predicate_list := [VStr "on"] |}
              [scenario_entry] 1 scenario_line) as [_ H];
    [vm_compute; reflexivity|reflexivity|reflexivity|].
  exact H.
Defined.

(** ** [filter_best_per_scene]: order of the selected records *)

Section SelectionOrder.
Variable stem : string -> string.

(** X17.  The selected records come out ordered by scene key in the order
    of strings, character by character (so a key ["10"] precedes a key
    ["2"]), with no key repeated. *)
Theorem select_best_sorted (metric : metric_name) (rs out : list score_record) :
  select_best stem metric rs = Ok out ->
  StronglySorted String.le (scene_key stem <$> out) /\
  NoDup (scene_key stem <$> out).
Proof.
  intros Hrun.
  destruct (select_best_selects stem metric rs) as (out' & Hrun' & Hsel).
  assert (out' = out) as -> by congruence.
  destruct (selected_keys stem metric rs out _ Hsel) as [-> _].
  split.
  - apply Sorted_StronglySorted; [apply _|apply Sorted_sorted_keys].
  - apply NoDup_sorted_keys.
Qed.
End SelectionOrder.

Lemma select_best_sorted_witness :
  StronglySorted String.le
    (scene_key path_stem <$> [record_of "10.png" 10 (1 # 2); record_of "2.png" 2 (1 # 2)]).
Proof.
  apply (select_best_sorted path_stem SgIou
           [record_of "2.png" 2 (1 # 2); record_of "10.png" 10 (1 # 2)]).
  vm_compute. reflexivity.
Defined.

(** ** The scene key of the filter and the scene index of the evaluation *)

Lemma extract_scene_index_segment (stem : string -> string) (name : string) :
  extract_scene_index stem name = before_underscore (stem name).
Proof.
  unfold extract_scene_index, Py.split.
  by destruct (split_underscore_head (stem name) EmptyString) as [rest ->].
Qed.

Lemma take_all_dots_head (n : nat) (name : string) :
  (0 < n)%nat -> (0 < String.length name)%nat ->
  forallb (Ascii.eqb ".") (String.list_ascii_of_string (Py.take n name)) = true ->
  exists rest, name = String "." rest.
Proof.
  intros Hn Hlen. destruct n as [|n]; [lia|]. destruct name as [|c rest]; [simpl in Hlen; lia|].
  cbn [Py.take String.list_ascii_of_string forallb].
  intros [Hc _]%andb_true_iff. apply Ascii.eqb_eq in Hc as <-. by exists rest.
Qed.

Lemma stem_segment_agrees (name : string) (i : Z) :
  Py.rfind "/" name = (-1)%Z ->
  (Py.rfind "." name < Z.of_nat (String.length name) - 1)%Z ->
  scene_idx_of name = Some i ->
  before_underscore (path_stem name) = before_underscore (Py.splitext_root name).
Proof.
  intros Hsep Hdot Hidx. rewrite scene_idx_of_spec in Hidx. cbn zeta in Hidx.
  unfold path_stem. unfold Py.splitext_root in *. rewrite Hsep in *.
  change (-1 + 1)%Z with 0%Z in *. change (Z.to_nat 0) with 0%nat in *.
  change (Py.drop 0 name) with name in *.
  set (d := Py.rfind "." name) in *.
  destruct (Z.ltb_spec (-1) d) as [Hd|Hd].
  - destruct (Z.ltb_spec 0 d) as [Hd0|Hd0].
    + destruct (Z.ltb_spec d (Z.of_nat (String.length name) - 1)) as [_|?]; [|lia].
      cbn [andb]. rewrite Z.sub_0_r in *.
      destruct (forallb _ _) eqn:Edots; [|done]. exfalso.
      destruct (take_all_dots_head (Z.to_nat d) name) as [rest ->]; [lia|lia|done|].
      cbn in Hidx. discriminate Hidx.
    + assert (d = 0%Z) as -> by lia. cbn [andb]. reflexivity.
  - destruct (Z.ltb_spec 0 d) as [?|_]; [lia|]. reflexivity.
Qed.

(** X18.  For an image name without directory part whose last dot is not
    its last character, the key under which the filter groups the image is
    the run of digits whose value the evaluation recorded as scene index.
    So two such records with the same key have the same scene index: a group
    of the filter never mixes scenes. *)
Theorem scene_key_matches_index (r1 r2 : score_record) :
  Forall (fun r =>
            Py.rfind "/" (image r) = (-1)%Z /\
            (Py.rfind "." (image r) < Z.of_nat (String.length (image r)) - 1)%Z /\
            consistent_record r) [r1; r2] ->
  Py.isdigit (scene_key path_stem r1) = true /\
  decimal (scene_key path_stem r1) = scene_index r1 /\
  (scene_key path_stem r1 = scene_key path_stem r2 -> scene_index r1 = scene_index r2).
Proof.
  intros Hall.
  assert (Hone : forall r,
            Py.rfind "/" (image r) = (-1)%Z ->
            (Py.rfind "." (image r) < Z.of_nat (String.length (image r)) - 1)%Z ->
            consistent_record r ->
            Py.isdigit (scene_key path_stem r) = true /\
            decimal (scene_key path_stem r) = scene_index r).
  { intros r Hsep Hdot Hc. unfold consistent_record in Hc.
    unfold scene_key. rewrite extract_scene_index_segment.
    rewrite (stem_segment_agrees _ _ Hsep Hdot Hc).
    by apply scene_idx_of_digits in Hc as (Hd & _ & ->). }
  apply Forall_cons in Hall as [(S1 & D1 & C1) Hall].
  apply Forall_cons in Hall as [(S2 & D2 & C2) _].
  destruct (Hone r1 S1 D1 C1) as [Hd1 Hv1]. destruct (Hone r2 S2 D2 C2) as [_ Hv2].
  split; [exact Hd1|]. split; [exact Hv1|].
  intros Hkey. rewrite <- Hv1, <- Hv2. by rewrite Hkey.
Qed.

Lemma scene_key_matches_index_witness :
  Py.isdigit (scene_key path_stem (record_of "007_1.png" 7 (2 # 5))) = true /\
  decimal (scene_key path_stem (record_of "007_1.png" 7 (2 # 5))) = 7%Z.
Proof.
  destruct (scene_key_matches_index (record_of "007_1.png" 7 (2 # 5))
              (record_of "007_2.jpg" 7 (7 # 10))) as (H1 & H2 & _).
  - repeat constructor.
  - split; [exact H1|exact H2].
Defined.

(** ** One scene under two keys *)

Lemma scene_key_decimal (r : score_record) :
  written_record r ->
  decimal (scene_key path_stem r) = scene_index r.
Proof.
  intros (Hsep & Hdot & Hc). unfold consistent_record in Hc.
  unfold scene_key. rewrite extract_scene_index_segment.
  rewrite (stem_segment_agrees _ _ Hsep Hdot Hc).
  by apply scene_idx_of_digits in Hc as (_ & _ & ->).
Qed.

Lemma NoDup_fmap_elem {A B : Type} (f : A -> B) (l : list A) (x y : A) :
  NoDup (f <$> l) -> x ∈ l -> y ∈ l -> f x = f y -> x = y.
Proof.
  induction l as [|a l IH]; intros Hnd Hx Hy Hf; [by apply elem_of_nil in Hx|].
  rewrite fmap_cons in Hnd. apply NoDup_cons in Hnd as [Ha Hnd].
  apply elem_of_cons in Hx as [->|Hx]; apply elem_of_cons in Hy as [->|Hy]; auto.
  - exfalso. apply Ha. rewrite Hf. by apply list_elem_of_fmap_2.
  - exfalso. apply Ha. rewrite <- Hf. by apply list_elem_of_fmap_2.
Qed.

(** C2, where the code departs from it.  [evaluate_method] reads the scene
    index of an image as a number, so ["0.png"] and ["000.png"] are images
    of scene 0; the filter groups by the text before the underscore and
    never converts it.  Whenever a results file holds two records of one
    scene index whose names write that index differently, the selection
    returns two different records of that scene: the scene indices of its
    output are not distinct. *)
Theorem same_scene_kept_twice (metric : metric_name) (rs : list score_record)
    (r1 r2 : score_record) :
  Forall written_record rs ->
  r1 ∈ rs -> r2 ∈ rs ->
  scene_index r1 = scene_index r2 ->
  scene_key path_stem r1 <> scene_key path_stem r2 ->
  exists out s1 s2,
    select_best path_stem metric rs = Ok out /\
    s1 ∈ out /\ s2 ∈ out /\ s1 <> s2 /\
    scene_index s1 = scene_index r1 /\ scene_index s2 = scene_index r1 /\
    ~ NoDup (scene_index <$> out).
Proof.
  intros Hall H1 H2 Hidx Hkey.
  destruct (select_best_selects path_stem metric rs) as (out & Hrun & Hsel).
  destruct (selected_keys path_stem metric rs out _ Hsel) as [Hkeys Hin].
  rewrite Forall_forall in Hall, Hin.
  assert (Hpick : forall r, r ∈ rs ->
            exists s, s ∈ out /\ scene_key path_stem s = scene_key path_stem r /\
                      scene_index s = scene_index r).
  { intros r Hr.
    assert (Hk : scene_key path_stem r ∈ scene_key path_stem <$> out).
    { rewrite Hkeys. apply elem_of_sorted_keys. by apply list_elem_of_fmap_2. }
    apply list_elem_of_fmap in Hk as (s & Hs & Hsout).
    exists s. split; [exact Hsout|]. split; [done|].
    rewrite <- (scene_key_decimal s), <- (scene_key_decimal r); auto.
    by rewrite Hs. }
  destruct (Hpick r1 H1) as (s1 & Hs1 & Hk1 & Hi1).
  destruct (Hpick r2 H2) as (s2 & Hs2 & Hk2 & Hi2).
  assert (Hne : s1 <> s2) by (intros ->; congruence).
  exists out, s1, s2. split; [exact Hrun|]. split; [exact Hs1|]. split; [exact Hs2|].
  split; [exact Hne|]. split; [exact Hi1|]. split; [congruence|].
  intros Hnd. apply Hne. apply (NoDup_fmap_elem scene_index out); auto. congruence.
Qed.

Lemma same_scene_kept_twice_witness :
  scene_index record_0 = scene_index record_000 /\
  exists out,
    select_best path_stem SgIou [record_0; record_000] = Ok out /\
    out = [record_0; record_000] /\
    ~ NoDup (scene_index <$> out).
Proof.
  split; [reflexivity|].
  destruct (same_scene_kept_twice SgIou [record_0; record_000] record_0 record_000)
    as (out & s1 & s2 & Hrun & _ & _ & _ & _ & _ & Hdup).
  - repeat constructor.
  - by left.
  - right. by left.
  - reflexivity.
  - vm_compute. discriminate.
  - exists out. split; [exact Hrun|]. split; [|exact Hdup].
    vm_compute in Hrun. by injection Hrun as <-.
Defined.

(** ** Dicts in insertion order *)

Section assign_facts.
Context {K V : Type} `{EqDecision K}.

Lemma elem_of_assign_keys (k k' : K) (v : V) (d : list (K * V)) :
  k' ∈ (assign k v d).*1 <-> k' = k \/ k' ∈ d.*1.
Proof.
  induction d as [|[k0 v0] d IH]; simpl.
  - rewrite elem_of_cons, elem_of_nil. tauto.
  - destruct (decide (k = k0)) as [->|Hne]; simpl.
    + rewrite !elem_of_cons. tauto.
    + rewrite !elem_of_cons, IH. tauto.
Qed.

Lemma NoDup_assign_keys (k : K) (v : V) (d : list (K * V)) :
  NoDup d.*1 -> NoDup (assign k v d).*1.
Proof.
  induction d as [|[k0 v0] d IH]; simpl; intros Hnd.
  - apply NoDup_singleton.
  - apply NoDup_cons in Hnd as [Hk0 Hnd].
    destruct (decide (k = k0)) as [->|Hne]; simpl.
    + by apply NoDup_cons.
    + apply NoDup_cons. split; [|by apply IH].
      rewrite elem_of_assign_keys. intros [?|?]; [congruence|done].
Qed.

Lemma elem_of_assign (k : K) (v : V) (d : list (K * V)) (kv : K * V) :
  kv ∈ assign k v d -> kv = (k, v) \/ kv ∈ d.
Proof.
  induction d as [|[k0 v0] d IH]; simpl.
  - rewrite elem_of_cons, elem_of_nil. tauto.
  - destruct (decide (k = k0)) as [->|Hne]; rewrite !elem_of_cons; [tauto|].
    intros [Hhd|Htl]; [tauto|]. destruct (IH Htl); tauto.
Qed.

Lemma assign_here (k : K) (v : V) (d : list (K * V)) : (k, v) ∈ assign k v d.
Proof.
  induction d as [|[k0 v0] d IH]; simpl; [by left|].
  destruct (decide (k = k0)); [by left|by right].
Qed.

Lemma assign_keeps (k k' : K) (v v' : V) (d : list (K * V)) :
  k <> k' -> (k', v') ∈ d -> (k', v') ∈ assign k v d.
Proof.
  intros Hne. induction d as [|[k0 v0] d IH]; simpl; [by intros ?%elem_of_nil|].
  rewrite elem_of_cons. intros [[= <- <-]|Hin].
  - destruct (decide (k = k')); [done|by left].
  - destruct (decide (k = k0)); right; auto.
Qed.

Lemma assign_fresh (k : K) (v : V) (d : list (K * V)) :
  k ∉ d.*1 -> assign k v d = d ++ [(k, v)].
Proof.
  induction d as [|[k0 v0] d IH]; simpl; [done|].
  rewrite not_elem_of_cons. intros [Hne Hk].
  destruct (decide (k = k0)); [done|]. by rewrite IH.
Qed.
End assign_facts.

(** ** [compare_methods] *)

Section ComparisonProperties.
Variable json_loads : string -> option pyval.
Variable oracle : vocab -> string -> option string.

Lemma compare_loop (lines : list string) (methods_config : list (string * list string)) :
  forall acc st cmp st',
    foldM (compare_step json_loads oracle lines) (acc, st) methods_config
      = Ok (cmp, st') ->
    (NoDup acc.*1 -> NoDup cmp.*1) /\
    (forall name, name ∈ cmp.*1 <-> name ∈ acc.*1 \/ name ∈ methods_config.*1) /\
    Forall (fun kv => kv ∈ acc \/ entry_of_run json_loads oracle lines methods_config kv) cmp.
Proof.
  induction methods_config as [|[name imgs] configs IH]; intros acc st cmp st'; simpl.
  - intros [= <- <-]. split; [done|]. split.
    + intros name. rewrite elem_of_nil. tauto.
    + apply Forall_forall. by left.
  - unfold compare_step at 1. cbn [fst snd].
    destruct (evaluate_method json_loads oracle st lines imgs) as [[out st1]|] eqn:Er;
      [|discriminate]. cbn [bind fst snd]. intros Hrest.
    destruct (IH _ _ _ _ Hrest) as (Hnd & Hkeys & Hall).
    split; [intros Ha; by apply Hnd, NoDup_assign_keys|]. split.
    + intros k. rewrite Hkeys, elem_of_assign_keys, elem_of_cons. tauto.
    + eapply Forall_impl; [exact Hall|]. intros kv [Hin|(imgs' & sA & o & sB & H1 & H2 & H3)].
      * apply elem_of_assign in Hin as [->|Hin]; [|by left].
        right. exists imgs, st, out, st1. split; [by left|done].
      * right. exists imgs', sA, o, sB. split; [by right|done].
Qed.

(** X19.  A comparison that returns holds exactly one entry per distinct
    method name of the configuration, and every entry is the averages of a
    run of [evaluate_method], on the same metadata lines, over the image
    files of a method of that name. *)
Theorem compare_methods_entries (st st' : vocab) (lines : list string)
    (methods_config : list (string * list string))
    (comparison : list (string * average_metrics)) :
  compare_methods json_loads oracle st lines methods_config = Ok (comparison, st') ->
  NoDup comparison.*1 /\
  (forall name, name ∈ comparison.*1 <-> name ∈ methods_config.*1) /\
  Forall (entry_of_run json_loads oracle lines methods_config) comparison.
Proof.
  intros Hrun. unfold compare_methods in Hrun.
  destruct (compare_loop _ _ _ _ _ _ Hrun) as (Hnd & Hkeys & Hall).
  split; [apply Hnd; constructor|]. split.
  - intros name. rewrite Hkeys. cbn. rewrite elem_of_nil. tauto.
  - eapply Forall_impl; [exact Hall|]. intros kv [Hin|H]; [|done].
    by apply elem_of_nil in Hin.
Qed.
End ComparisonProperties.

Lemma compare_methods_entries_witness :
  exists comparison st',
    compare_methods MiniJson.loads failing_oracle empty_vocab [scenario_line] two_methods
      = Ok (comparison, st') /\
    comparison.*1 = ["gnn_run"; "repr_run"] /\
    Forall (entry_of_run MiniJson.loads failing_oracle [scenario_line] two_methods)
           comparison.
Proof.
  destruct (compare_methods MiniJson.loads failing_oracle empty_vocab
              [scenario_line] two_methods)
    as [[comparison st']|] eqn:Erun; [|vm_compute in Erun; discriminate Erun].
  exists comparison, st'. split; [reflexivity|].
  destruct (compare_methods_entries MiniJson.loads failing_oracle _ _ _ _ _ Erun)
    as (_ & _ & Hall).
  split; [|exact Hall].
  vm_compute in Erun. by injection Erun as <- _.
Defined.

(** ** [scan_metadata_file] *)

Section assign_all_facts.
Context {K V : Type} `{EqDecision K}.

Lemma elem_of_assign_all_keys (ps d : list (K * V)) (k : K) :
  k ∈ (assign_all d ps).*1 <-> k ∈ d.*1 \/ k ∈ ps.*1.
Proof.
  revert d. induction ps as [|[k0 v0] ps IH]; intros d; cbn.
  - rewrite elem_of_nil. tauto.
  - unfold assign_all in IH. rewrite IH, elem_of_assign_keys, elem_of_cons. tauto.
Qed.

Lemma NoDup_assign_all_keys (ps d : list (K * V)) :
  NoDup d.*1 -> NoDup (assign_all d ps).*1.
Proof.
  revert d. induction ps as [|[k0 v0] ps IH]; intros d Hd; [done|].
  cbn. apply IH. by apply NoDup_assign_keys.
Qed.

Lemma assign_all_keeps (ps d : list (K * V)) (k : K) (v : V) :
  k ∉ ps.*1 -> (k, v) ∈ d -> (k, v) ∈ assign_all d ps.
Proof.
  revert d. induction ps as [|[k0 v0] ps IH]; intros d Hk Hin; [done|].
  cbn in *. apply not_elem_of_cons in Hk as [Hne Hk].
  apply IH; [done|]. by apply assign_keeps.
Qed.

Lemma assign_all_last (p1 p2 d : list (K * V)) (k : K) (v : V) :
  k ∉ p2.*1 -> (k, v) ∈ assign_all d (p1 ++ (k, v) :: p2).
Proof.
  intros Hk. unfold assign_all. rewrite foldl_app. cbn [foldl fst snd].
  apply assign_all_keeps; [done|]. apply assign_here.
Qed.

Lemma length_assign_all (ps : list (K * V)) :
  length (assign_all [] ps) = length (remove_dups ps.*1).
Proof.
  rewrite <- (length_fmap fst (assign_all [] ps)).
  apply Permutation_length, NoDup_Permutation.
  - apply NoDup_assign_all_keys. constructor.
  - apply NoDup_remove_dups.
  - intros k. rewrite elem_of_assign_all_keys, elem_of_remove_dups. cbn.
    rewrite elem_of_nil. tauto.
Qed.
End assign_all_facts.

Section ScanProperties.
Variable json_loads : string -> option pyval.

Lemma scan_line_scenes (s s' : scan_state) (line : string) :
  scan_line json_loads s line = Ok s' ->
  scenes s' = assign_all (scenes s) (option_list (scan_pair json_loads line)) /\
  (nonblank line = true -> is_Some (scan_pair json_loads line)).
Proof.
  unfold scan_line, scan_pair, nonblank. destruct (Py.truthy _).
  - unfold loads. destruct (json_loads line) as [data|]; [|discriminate]. cbn [bind].
    destruct (Py.getitem_str data "file_name") as [fn|]; [|discriminate]. cbn [bind].
    destruct (Py.hashable fn); [|discriminate]. cbn [negb].
    destruct (Py.getitem_str data "objects") as [ov|]; [|discriminate]. cbn [bind].
    destruct (Py.iter ov) as [objs|]; [|discriminate]. cbn [bind].
    destruct (set_update _ objs) as [os|]; [|discriminate]. cbn [bind].
    destruct (Py.getitem_str data "relations") as [rv|]; [|discriminate]. cbn [bind].
    destruct (Py.iter rv) as [rels|]; [|discriminate]. cbn [bind].
    destruct (mapM predicate_of rels) as [ps|]; [|discriminate]. cbn [bind].
    intros [= <-]. split; [done|]. intros _. by eexists.
  - intros [= <-]. split; [done|]. discriminate.
Qed.

Lemma scan_loop_scenes (lines : list string) :
  forall s s',
    foldM (scan_line json_loads) s lines = Ok s' ->
    scenes s' = assign_all (scenes s) (scan_pairs json_loads lines) /\
    length (scan_pairs json_loads lines)
    = length (filter (fun l => nonblank l = true) lines).
Proof.
  induction lines as [|line lines IH]; intros s s'; simpl.
  - by intros [= <-].
  - destruct (scan_line json_loads s line) as [s1|] eqn:E; [|discriminate]. cbn [bind].
    intros Hrest. destruct (IH _ _ Hrest) as [Hsc Hlen].
    destruct (scan_line_scenes _ _ _ E) as [H1 Hsome].
    unfold scan_pairs in *. cbn [omap list_omap]. fold (omap (scan_pair json_loads) lines).
    rewrite Hsc, H1, filter_cons. split.
    + destruct (scan_pair json_loads line); reflexivity.
    + destruct (nonblank line) eqn:Enb.
      * rewrite decide_True by done. destruct (Hsome eq_refl) as [p ->].
        cbn [length]. by rewrite Hlen.
      * rewrite decide_False by done. unfold scan_pair. by rewrite Enb.
Qed.

(** X20.  When the scan returns the [scenes] dict, it holds one entry per
    distinct [file_name] of the non-blank lines: a later line with the same
    [file_name] replaces the earlier one, so the dict can hold fewer scenes
    than the file has records. *)
Theorem scan_metadata_file_scenes (lines : list string)
    (found : list (pyval * pyval)) :
  scan_metadata_file json_loads (Some lines) = Ok (Some found) ->
  NoDup found.*1 /\
  length found = length (remove_dups (scan_pairs json_loads lines).*1) /\
  (length found <= length (filter (fun l => nonblank l = true) lines))%nat /\
  (forall before after file_name data,
     scan_pairs json_loads lines = before ++ (file_name, data) :: after ->
     file_name ∉ after.*1 ->
     (file_name, data) ∈ found).
Proof.
  unfold scan_metadata_file.
  destruct (foldM (scan_line json_loads) scan_init lines) as [s|] eqn:Eloop;
    [|discriminate]. cbn [bind].
  destruct (scan_report s) as [[]|]; [|discriminate]. cbn [bind].
  intros [= <-].
  destruct (scan_loop_scenes _ _ _ Eloop) as [Hsc Hlen]. cbn [scenes scan_init] in Hsc.
  rewrite Hsc. split; [apply NoDup_assign_all_keys; constructor|].
  split; [apply length_assign_all|]. split.
  - rewrite length_assign_all, <- Hlen, <- (length_fmap fst (scan_pairs json_loads lines)).
    apply submseteq_length, NoDup_submseteq; [apply NoDup_remove_dups|].
    intros k. by rewrite elem_of_remove_dups.
  - intros before after fn data -> Hfn. by apply assign_all_last.
Qed.
End ScanProperties.

Lemma scan_metadata_file_scenes_witness :
  exists found,
    scan_metadata_file MiniJson.loads (Some repeated_lines) = Ok (Some found) /\
    length (filter (fun l => nonblank l = true) repeated_lines) = 2%nat /\
    length found = 1%nat /\
    NoDup found.*1.
Proof.
  destruct (scan_metadata_file MiniJson.loads (Some repeated_lines))
    as [[found|]|] eqn:Erun;
    [|vm_compute in Erun; discriminate Erun|vm_compute in Erun; discriminate Erun].
  exists found. split; [reflexivity|].
  destruct (scan_metadata_file_scenes MiniJson.loads _ _ Erun) as (Hnd & Hlen & _ & _).
  split; [by vm_compute|]. split; [|exact Hnd].
  rewrite Hlen. by vm_compute.
Defined.

(** ** [auto_create_scene_mapping] *)

Lemma enumerate_from_cons {A : Type} (k : nat) (x : A) (xs : list A) :
  enumerate_from k (x :: xs) = (k, x) :: enumerate_from (S k) xs.
Proof.
  unfold enumerate_from. rewrite imap_cons. f_equal; [f_equal; lia|].
  apply imap_ext. intros i y _. cbn. f_equal. lia.
Qed.

Lemma enumerate_from_zero {A : Type} (xs : list A) :
  enumerate xs = enumerate_from 0 xs.
Proof. reflexivity. Qed.

Section SceneMappingProperties.
Variable json_loads : string -> option pyval.

Lemma index_loop (lines : list string) :
  forall (k : nat) (m md : gmap nat pyval),
    foldM (index_line json_loads) m (enumerate_from k lines) = Ok md ->
    (forall j, (k <= j)%nat -> m !! j = None) ->
    size md = (size m + length (filter (fun l => nonblank l = true) lines))%nat /\
    (forall j, (j < k)%nat -> md !! j = m !! j) /\
    (forall i l, lines !! i = Some l ->
       md !! (k + i)%nat = if nonblank l then json_loads l else None) /\
    (forall j, (k + length lines <= j)%nat -> md !! j = None).
Proof.
  induction lines as [|line lines IH]; intros k m md.
  - intros [= <-] Hm. rewrite Nat.add_0_r. split; [done|]. split; [done|].
    split; [by intros i l [=]|]. intros j Hj. apply Hm. simpl in Hj. lia.
  - rewrite enumerate_from_cons. cbn [foldM].
    destruct (index_line json_loads m (k, line)) as [m1|] eqn:Estep; [|discriminate].
    cbn [bind]. intros Hrest Hm.
    assert (Hm1 : (forall j, (S k <= j)%nat -> m1 !! j = None) /\
                  (forall j, (j < k)%nat -> m1 !! j = m !! j) /\
                  m1 !! k = (if nonblank line then json_loads line else None) /\
                  size m1 = (size m + (if nonblank line then 1 else 0))%nat).
    { unfold index_line, nonblank in *. destruct (Py.truthy _).
      - unfold loads in Estep. destruct (json_loads line) as [data|]; [|discriminate].
        cbn [bind] in Estep. injection Estep as <-.
        split; [intros j Hj; rewrite lookup_insert_ne by lia; apply Hm; lia|].
        split; [intros j Hj; by rewrite lookup_insert_ne by lia|].
        split; [by rewrite lookup_insert_eq|].
        rewrite map_size_insert_None by (apply Hm; lia). lia.
      - injection Estep as <-. split; [intros j Hj; apply Hm; lia|].
        split; [done|]. split; [apply Hm; lia|lia]. }
    destruct Hm1 as (Hm1 & Hlow & Hk & Hsize).
    destruct (IH _ _ _ Hrest Hm1) as (Hsz & Hkeep & Hat & Hout).
    split; [|split; [|split]].
    + rewrite Hsz, Hsize, filter_cons.
      destruct (nonblank line); [rewrite decide_True by done|rewrite decide_False by done];
        cbn [length]; lia.
    + intros j Hj. rewrite Hkeep by lia. by apply Hlow.
    + intros [|i] l Hl.
      * injection Hl as <-. rewrite Nat.add_0_r, Hkeep by lia. exact Hk.
      * cbn in Hl. replace (k + S i)%nat with (S k + i)%nat by lia. by apply Hat.
    + intros j Hj. apply Hout. cbn [length] in Hj. lia.
Qed.

Lemma index_metadata_lookup (lines : list string) (md : gmap nat pyval) :
  index_metadata json_loads lines = Ok md ->
  size md = length (filter (fun l => nonblank l = true) lines) /\
  (forall i, is_Some (md !! i) ->
     exists l, lines !! i = Some l /\ nonblank l = true /\ md !! i = json_loads l) /\
  (forall i l, lines !! i = Some l -> nonblank l = false -> md !! i = None).
Proof.
  unfold index_metadata. rewrite enumerate_from_zero. intros Hrun.
  destruct (index_loop _ _ _ _ Hrun) as (Hsz & _ & Hat & Hout); [done|].
  rewrite map_size_empty in Hsz. split; [done|]. split.
  - intros i [data Hi]. destruct (lines !! i) as [l|] eqn:El.
    + exists l. specialize (Hat _ _ El). change (0 + i)%nat with i in Hat.
      destruct (nonblank l); [done|congruence].
    + apply lookup_ge_None in El. rewrite Hout in Hi by lia. discriminate.
  - intros i l El Hb. specialize (Hat _ _ El). change (0 + i)%nat with i in Hat.
    by rewrite Hb in Hat.
Qed.

Lemma map_loop (md : gmap nat pyval) (dirs : list string) :
  forall (k : nat) (mapping result : list (string * nat)),
    foldM (map_scene md) mapping (enumerate_from k dirs) = Ok result ->
    NoDup dirs ->
    (forall d, d ∈ dirs -> d ∉ mapping.*1) ->
    result = mapping ++ imap (fun i d => (d, (k + i)%nat)) (take (size md - k) dirs) /\
    (forall i, (i < length dirs)%nat -> (k + i < size md)%nat -> is_Some (md !! (k + i)%nat)).
Proof.
  induction dirs as [|d dirs IH]; intros k mapping result.
  - intros [= <-] _ _. rewrite take_nil. cbn. rewrite app_nil_r.
    split; [done|]. intros i Hi. cbn in Hi. lia.
  - rewrite enumerate_from_cons. cbn [foldM].
    destruct (map_scene md mapping (k, d)) as [m1|] eqn:Estep; [|discriminate].
    cbn [bind]. intros Hrest Hnd Hfresh.
    apply NoDup_cons in Hnd as [Hd Hnd].
    unfold map_scene in Estep. destruct (k <? size md)%nat eqn:Ek.
    + apply Nat.ltb_lt in Ek.
      destruct (md !! k) as [meta|] eqn:Emeta; [|discriminate].
      destruct (Py.getitem_str meta "caption") as [c|]; [|discriminate]. cbn [bind] in Estep.
      destruct (check_slice c) as [[]|]; [|discriminate]. cbn [bind] in Estep.
      injection Estep as <-.
      rewrite assign_fresh in Hrest by (apply Hfresh; left).
      destruct (IH _ _ _ Hrest Hnd) as [Hres Hsome].
      { intros d' Hd'. rewrite fmap_app, elem_of_app. cbn.
        rewrite list_elem_of_singleton. intros [Hin| ->]; [|done].
        by apply (Hfresh d'); [right|]. }
      split.
      * rewrite Hres, <- app_assoc. f_equal.
        replace (size md - k)%nat with (S (size md - S k))%nat by lia.
        rewrite firstn_cons, imap_cons. cbn [app]. f_equal; [f_equal; lia|].
        apply imap_ext. intros i y _. cbn. f_equal. lia.
      * intros [|i] Hi Hlt.
        -- rewrite Nat.add_0_r. by eexists.
        -- replace (k + S i)%nat with (S k + i)%nat by lia.
           apply Hsome; [cbn in Hi; lia|lia].
    + apply Nat.ltb_ge in Ek. injection Estep as <-.
      destruct (IH _ _ _ Hrest Hnd) as [Hres Hsome].
      { intros d' Hd'. apply Hfresh. by right. }
      split.
      * rewrite Hres. replace (size md - S k)%nat with 0%nat by lia.
        replace (size md - k)%nat with 0%nat by lia. done.
      * intros i Hi Hlt. lia.
Qed.

Lemma NoDup_distinct_sorted (scene_dirs : list string) :
  NoDup (distinct_sorted scene_dirs).
Proof.
  unfold distinct_sorted. rewrite merge_sort_Permutation. apply NoDup_remove_dups.
Qed.

Lemma all_nonblank_scene_id (lines : list string) (i : nat) :
  (forall j, (j < i)%nat -> exists l, lines !! j = Some l /\ nonblank l = true) ->
  scene_id_at lines i = i.
Proof.
  unfold scene_id_at. revert lines. induction i as [|i IH]; intros lines Hall.
  - by rewrite take_0.
  - destruct (Hall 0%nat) as (l0 & Hl0 & Hnb); [lia|].
    destruct lines as [|l lines]; [discriminate|]. injection Hl0 as ->.
    rewrite firstn_cons, filter_cons, decide_True by done. cbn [length]. f_equal.
    apply IH. intros j Hj. apply (Hall (S j)). lia.
Qed.

(** X21.  When the automatic mapping returns, the sorted distinct scene
    directories are mapped in order to 0, 1, 2, ... up to the number of
    non-blank metadata lines; every mapped number is the number of a
    non-blank line of the file and also the position of that line's record
    in the list [load_metadata] builds. *)
Theorem auto_create_scene_mapping_order (lines scene_dirs : list string)
    (mapping : list (string * nat)) :
  auto_create_scene_mapping json_loads lines scene_dirs = Ok mapping ->
  mapping = imap (fun i d => (d, i))
              (take (length (filter (fun l => nonblank l = true) lines))
                    (distinct_sorted scene_dirs)) /\
  (forall d i, (d, i) ∈ mapping ->
     (exists l, lines !! i = Some l /\ nonblank l = true) /\
     scene_id_at lines i = i).
Proof.
  unfold auto_create_scene_mapping.
  destruct (index_metadata json_loads lines) as [md|] eqn:Emd; [|discriminate].
  cbn [bind]. rewrite enumerate_from_zero. intros Hrun.
  destruct (index_metadata_lookup _ _ Emd) as (Hsz & Hsome & _).
  destruct (map_loop _ _ _ _ _ Hrun (NoDup_distinct_sorted _)) as [Hres Hfound].
  { intros d _. cbn. apply not_elem_of_nil. }
  cbn in Hres. rewrite Nat.sub_0_r, Hsz in Hres.
  split; [exact Hres|].
  assert (Hline : forall j,
            (j < length (take (length (filter (fun l => nonblank l = true) lines))
                              (distinct_sorted scene_dirs)))%nat ->
            exists l, lines !! j = Some l /\ nonblank l = true).
  { intros j Hj. rewrite length_take in Hj.
    destruct (Hsome j) as (l & Hl & Hnb & _); [|by exists l].
    apply (Hfound j); [lia|]. cbn. rewrite Hsz. lia. }
  intros d i Hin. rewrite Hres in Hin.
  apply elem_of_lookup_imap in Hin as (j & d' & [= -> ->] & Hj).
  apply lookup_lt_Some in Hj. split; [by apply Hline|].
  apply all_nonblank_scene_id. intros j' Hj'. apply Hline. lia.
Qed.

Lemma map_loop_gap (md : gmap nat pyval) (dirs : list string) :
  (forall i meta, md !! i = Some meta ->
     exists c, Py.getitem_str meta "caption" = Ok c /\ check_slice c = Ok tt) ->
  forall (k i : nat) (mapping : list (string * nat)),
    (i < length dirs)%nat -> (k + i < size md)%nat -> md !! (k + i)%nat = None ->
    foldM (map_scene md) mapping (enumerate_from k dirs) = Err KeyError.
Proof.
  intros Hcap. induction dirs as [|d dirs IH]; intros k i mapping Hi Hlt Hnone.
  - cbn in Hi. lia.
  - rewrite enumerate_from_cons. cbn [foldM]. unfold map_scene at 1.
    destruct (k <? size md)%nat eqn:Ek.
    + destruct (md !! k) as [meta|] eqn:Emeta; [|done].
      destruct (Hcap _ _ Emeta) as (c & -> & Hc). cbn [bind]. rewrite Hc. cbn [bind].
      destruct i as [|i]; [rewrite Nat.add_0_r in Hnone; congruence|].
      apply (IH (S k) i); [cbn in Hi; lia|lia|].
      by replace (S k + i)%nat with (k + S i)%nat by lia.
    + apply Nat.ltb_ge in Ek. lia.
Qed.

(** X22.  A blank line inside the metadata file breaks the automatic
    mapping: when every non-blank line parses and has a caption, and a blank
    line's number is below both the number of non-blank lines and the number
    of distinct scene directories, the mapping raises [KeyError] instead of
    returning. *)
Theorem auto_create_scene_mapping_blank_line (lines scene_dirs : list string)
    (i : nat) (blank : string) :
  (forall l, l ∈ lines -> nonblank l = true -> has_caption json_loads l = true) ->
  lines !! i = Some blank ->
  nonblank blank = false ->
  (i < length (filter (fun l => nonblank l = true) lines))%nat ->
  (i < length (distinct_sorted scene_dirs))%nat ->
  auto_create_scene_mapping json_loads lines scene_dirs = Err KeyError.
Proof.
  intros Hcap Hi Hblank Hn Hdirs. unfold auto_create_scene_mapping.
  destruct (index_metadata json_loads lines) as [md|e] eqn:Emd.
  - cbn [bind]. rewrite enumerate_from_zero.
    destruct (index_metadata_lookup _ _ Emd) as (Hsz & Hsome & Hnone).
    apply (map_loop_gap md _) with (i := i); [|done|cbn; lia|by apply (Hnone i blank)].
    intros j meta Hj. destruct (Hsome j) as (l & Hl & Hnb & Hmd); [by eexists|].
    assert (Hc : has_caption json_loads l = true).
    { apply Hcap; [|done]. by apply list_elem_of_lookup_2 in Hl. }
    unfold has_caption in Hc. rewrite Hj in Hmd. rewrite <- Hmd in Hc.
    destruct (Py.getitem_str meta "caption") as [c|]; [|discriminate].
    exists c. split; [done|]. by destruct (check_slice c) as [[]|].
  - exfalso. unfold index_metadata in Emd.
    assert (Hok : forall (ls : list string) k m,
              (forall l, l ∈ ls -> nonblank l = true -> has_caption json_loads l = true) ->
              is_ok (foldM (index_line json_loads) m (enumerate_from k ls)) = true).
    { induction ls as [|l ls IH]; intros k m Hls; [done|].
      rewrite enumerate_from_cons. cbn [foldM]. unfold index_line at 1. fold (nonblank l).
      destruct (nonblank l) eqn:Enb.
      - pose proof (Hls l (list_elem_of_here _ _) Enb) as Hl. unfold has_caption in Hl.
        unfold loads. destruct (json_loads l); [|discriminate]. cbn [bind].
        apply IH. intros l' Hl'. apply Hls. by right.
      - cbn [bind]. apply IH. intros l' Hl'. apply Hls. by right. }
    specialize (Hok lines 0%nat ∅ Hcap). rewrite <- enumerate_from_zero in Hok.
    by rewrite Emd in Hok.
Qed.
End SceneMappingProperties.

Lemma auto_create_scene_mapping_order_witness :
  exists mapping,
    auto_create_scene_mapping MiniJson.loads [scenario_line; scenario_line]
      ["b"; "a"; "b"; "c"] = Ok mapping /\
    mapping = [("a", 0%nat); ("b", 1%nat)] /\
    (forall d i, (d, i) ∈ mapping -> scene_id_at [scenario_line; scenario_line] i = i).
Proof.
  destruct (auto_create_scene_mapping MiniJson.loads [scenario_line; scenario_line]
              ["b"; "a"; "b"; "c"])
    as [mapping|] eqn:Erun; [|vm_compute in Erun; discriminate Erun].
  exists mapping. split; [reflexivity|].
  destruct (auto_create_scene_mapping_order MiniJson.loads _ _ _ Erun) as [Hmap Hids].
  split.
  - rewrite Hmap. by vm_compute.
  - intros d i Hin. by destruct (Hids d i Hin).
Defined.

Lemma auto_create_scene_mapping_blank_line_witness :
  auto_create_scene_mapping MiniJson.loads gapped_lines ["a"; "b"] = Err KeyError.
Proof.
  apply (auto_create_scene_mapping_blank_line MiniJson.loads gapped_lines
           ["a"; "b"] 1 EmptyString).
  - intros l Hl Hnb. unfold gapped_lines in Hl.
    repeat (apply elem_of_cons in Hl as [->|Hl]);
      try (by vm_compute); try (vm_compute in Hnb; discriminate Hnb).
    by apply elem_of_nil in Hl.
  - reflexivity.
  - by vm_compute.
  - vm_compute. lia.
  - vm_compute. lia.
Defined.

(** ** The filter on a results file with records *)

Lemma select_best_nonempty (stem : string -> string) (metric : metric_name)
    (rs : list score_record) :
  rs <> [] ->
  exists best,
    select_best stem metric rs = Ok best /\
    (1 <= length best <= length rs)%nat /\
    Forall (fun r => r ∈ rs) best.
Proof.
  intros Hne.
  destruct (select_best_selects stem metric rs) as (best & Hrun & Hsel).
  destruct (selected_keys stem metric rs best _ Hsel) as [Hkeys Hin].
  exists best. split; [exact Hrun|]. split; [|exact Hin].
  rewrite <- (length_fmap (scene_key stem) best), Hkeys. split.
  - destruct rs as [|r rs']; [done|].
    assert (Hk : scene_key stem r ∈ sorted_keys (group_by_scene stem (r :: rs')))
      by (apply elem_of_sorted_keys; rewrite fmap_cons; left).
    destruct (sorted_keys _); [by apply elem_of_nil in Hk|cbn; lia].
  - rewrite <- (length_fmap (scene_key stem) rs).
    apply submseteq_length, NoDup_submseteq; [apply NoDup_sorted_keys|].
    intros k. apply elem_of_sorted_keys.
Qed.

(** X23.  On a results file with at least one record the filter returns:
    it keeps between one record and as many records as the file has, every
    kept record is a record of the file, the file's own averages are carried
    over as [original_metrics], and when the scores of the file lie in
    [0, 1] so do the three recomputed averages. *)
Theorem filter_best_per_scene_returns (stem : string -> string)
    (data : results_data) (metric : metric_name) :
  data_per_image_results data <> [] ->
  exists out,
    filter_best_per_scene stem data metric = Ok out /\
    (1 <= n_images (fd_average_metrics out) <= length (data_per_image_results data))%nat /\
    n_images (fd_average_metrics out) = length (fd_per_image_results out) /\
    Forall (fun r => r ∈ data_per_image_results data) (fd_per_image_results out) /\
    original_metrics out = data_average_metrics data /\
    (Forall unit_scores (data_per_image_results data) ->
     0 <= avg_sg_iou (fd_average_metrics out) <= 1 /\
     0 <= avg_entity_iou (fd_average_metrics out) <= 1 /\
     0 <= avg_relation_iou (fd_average_metrics out) <= 1).
Proof.
  intros Hne. set (rs := data_per_image_results data) in *.
  destruct (select_best_nonempty stem metric rs Hne) as (best & Hrun & Hlen & Hin).
  unfold filter_best_per_scene. fold rs. rewrite Hrun. cbn [bind].
  destruct (length best) as [|n] eqn:En; [lia|]. cbn [py_div bind].
  eexists. split; [reflexivity|]. cbn.
  split; [lia|]. split; [done|]. split; [exact Hin|]. split; [done|].
  intros Hunit.
  assert (Hbest : Forall unit_scores best).
  { apply Forall_forall. intros r Hr.
    rewrite Forall_forall in Hin, Hunit. apply Hunit, Hin, Hr. }
  repeat split;
    first [ apply Qle_shift_div_l; [reflexivity|]; rewrite Qmult_0_l;
            apply py_sum_bounds; (eapply Forall_impl; [exact Hbest|]);
            intros r (Ha & Hb & Hc); assumption
          | apply Qle_shift_div_r; [reflexivity|]; rewrite Qmult_1_l, <- En;
            apply py_sum_bounds; (eapply Forall_impl; [exact Hbest|]);
            intros r (Ha & Hb & Hc); assumption ].
Qed.

Lemma filter_best_per_scene_returns_witness :
  exists out,
    filter_best_per_scene path_stem scene_0_results SgIou = Ok out /\
    n_images (fd_average_metrics out) = 1%nat /\
    0 <= avg_sg_iou (fd_average_metrics out) <= 1.
Proof.
  destruct (filter_best_per_scene_returns path_stem scene_0_results SgIou)
    as (out & Hrun & _ & _ & _ & _ & Hunit); [discriminate|].
  exists out. split; [exact Hrun|]. split.
  - vm_compute in Hrun. by injection Hrun as <-.
  - apply Hunit. repeat constructor; by vm_compute.
Defined.

(** ** [compare_methods_best_only] *)

Section BestOnlyProperties.
Variable stem : string -> string.

Lemma filter_step (data : results_data) (metric : metric_name) :
  match data_per_image_results data with
  | [] => filter_best_per_scene stem data metric = Err ZeroDivisionError
  | _ :: _ =>
      exists out, filter_best_per_scene stem data metric = Ok out /\
                  (1 <= n_images (fd_average_metrics out))%nat
  end.
Proof.
  destruct (data_per_image_results data) as [|r rs] eqn:Ers.
  - unfold filter_best_per_scene. by rewrite Ers.
  - destruct (select_best_nonempty stem metric (r :: rs)) as (best & Hrun & Hlen & _);
      [done|].
    unfold filter_best_per_scene. rewrite Ers, Hrun. cbn [bind].
    destruct (length best) as [|n] eqn:En; [lia|]. cbn [py_div bind].
    eexists. split; [reflexivity|]. cbn. lia.
Qed.

Lemma compare_best_fails (metric : metric_name)
    (methods_results : list (string * results_data)) :
  Exists (fun entry => data_per_image_results (snd entry) = []) methods_results ->
  forall comparison,
    foldM (compare_best_step stem metric) comparison methods_results
    = Err ZeroDivisionError.
Proof.
  induction methods_results as [|[name data] rest IH]; intros Hex comparison;
    [by apply Exists_nil in Hex|].
  cbn [foldM compare_best_step]. pose proof (filter_step data metric) as Hstep.
  destruct (data_per_image_results data) as [|r rs] eqn:Ers.
  - by rewrite Hstep.
  - destruct Hstep as (out & -> & _). cbn [bind].
    apply Exists_cons in Hex as [Hex|Hex]; [cbn in Hex; congruence|]. by apply IH.
Qed.

Lemma compare_best_returns (metric : metric_name)
    (methods_results : list (string * results_data)) :
  Forall (fun entry => data_per_image_results (snd entry) <> []) methods_results ->
  forall comparison,
    Forall (fun kv => (1 <= n_images (snd kv))%nat) comparison ->
    exists result,
      foldM (compare_best_step stem metric) comparison methods_results = Ok result /\
      (NoDup comparison.*1 -> NoDup result.*1) /\
      (forall name, name ∈ result.*1 <->
                    name ∈ comparison.*1 \/ name ∈ methods_results.*1) /\
      Forall (fun kv => (1 <= n_images (snd kv))%nat) result.
Proof.
  induction methods_results as [|[name data] rest IH]; intros Hall comparison Hcmp.
  - exists comparison. split; [done|]. split; [done|]. split; [|done].
    intros k. cbn. rewrite elem_of_nil. tauto.
  - apply Forall_cons in Hall as [Hdata Hall]. cbn [snd] in Hdata.
    cbn [foldM compare_best_step]. pose proof (filter_step data metric) as Hstep.
    destruct (data_per_image_results data) as [|r rs]; [done|].
    destruct Hstep as (out & -> & Hn). cbn [bind].
    destruct (IH Hall (assign name (fd_average_metrics out) comparison))
      as (result & Hrun & Hnd & Hkeys & Hres).
    { apply Forall_forall. intros kv Hin.
      apply elem_of_assign in Hin as [->|Hin]; [done|].
      rewrite Forall_forall in Hcmp. by apply Hcmp. }
    exists result. split; [exact Hrun|].
    split; [intros Ha; by apply Hnd, NoDup_assign_keys|]. split; [|exact Hres].
    intros k. rewrite Hkeys, elem_of_assign_keys, fmap_cons, elem_of_cons. cbn. tauto.
Qed.

(** X24.  The comparison of the filtered methods is all or nothing: when
    the results file of one method has no records, the whole comparison
    raises [ZeroDivisionError] and no method is reported; when every file
    has records, it returns one entry per method name, each over at least
    one image. *)
Theorem compare_methods_best_only_all_or_nothing
    (methods_results : list (string * results_data)) (metric : metric_name) :
  (Exists (fun entry => data_per_image_results (snd entry) = []) methods_results ->
   compare_methods_best_only stem methods_results metric = Err ZeroDivisionError) /\
  (Forall (fun entry => data_per_image_results (snd entry) <> []) methods_results ->
   exists comparison,
     compare_methods_best_only stem methods_results metric = Ok comparison /\
     NoDup comparison.*1 /\
     (forall name, name ∈ comparison.*1 <-> name ∈ methods_results.*1) /\
     Forall (fun kv => (1 <= n_images (snd kv))%nat) comparison).
Proof.
  unfold compare_methods_best_only. split.
  - intros Hex. by apply compare_best_fails.
  - intros Hall.
    destruct (compare_best_returns metric _ Hall []) as (result & Hrun & Hnd & Hkeys & Hres);
      [constructor|].
    exists result. split; [exact Hrun|]. split; [apply Hnd; constructor|].
    split; [|exact Hres]. intros k. rewrite Hkeys. cbn. rewrite elem_of_nil. tauto.
Qed.
End BestOnlyProperties.

Lemma compare_methods_best_only_all_or_nothing_witness :
  compare_methods_best_only path_stem
    [("gnn_run", scene_0_results); ("repr_run", empty_results)] SgIou
  = Err ZeroDivisionError /\
  exists comparison,
    compare_methods_best_only path_stem
      [("gnn_run", scene_0_results); ("repr_run", scene_0_results)] SgIou
    = Ok comparison /\
    comparison.*1 = ["gnn_run"; "repr_run"].
Proof.
  split.
  - apply (compare_methods_best_only_all_or_nothing path_stem
             [("gnn_run", scene_0_results); ("repr_run", empty_results)] SgIou).
    apply Exists_cons. right. apply Exists_cons. by left.
  - destruct (proj2 (compare_methods_best_only_all_or_nothing path_stem
                       [("gnn_run", scene_0_results); ("repr_run", scene_0_results)] SgIou))
      as (comparison & Hrun & _).
    + repeat constructor; discriminate.
    + exists comparison. split; [exact Hrun|].
      vm_compute in Hrun. by injection Hrun as <-.
Defined.
